(** * soundCode: the turn-coordination layer, embedded and verified

    A shallow embedding of the parts of the soundCode extension that carry
    its turn-taking logic:

    - [WorkspaceService.buildContextForPrompt]  (the bounded context blob),
    - [GeminiLiveClient]                        (the streaming session client),
    - [SoundCodeViewProvider]                   (the coordinator in the
                                                 extension host),
    - the webview script                        (send button, debounce,
                                                 message handler).

    Conventions.  A JavaScript string is a [string]; one character stands
    for one UTF-16 code unit and [strlen] is the [.length] property.  Numbers
    that the code only ever uses as integers (character budgets, clock
    readings in milliseconds) are in [Z].  Objects with mutable fields are
    records threaded through the functions; objects that outlive the field
    that referenced them (a discarded session client, a spawned process)
    live in explicit stores.  Everything the code does to the outside world
    (messages posted to the webview, frames written to the socket, processes
    spawned and killed) is appended to an effect log, in program order. *)

From Stdlib Require Import ZArith Lia Ascii String.
From stdpp Require Import base tactics option list strings pretty gmap.

Open Scope Z_scope.

(** ** JavaScript string primitives *)

Module JS.

Definition nl : string := String (ascii_of_nat 10) EmptyString.

(** [s.length] *)
Definition strlen (s : string) : Z := Z.of_nat (String.length s).

(** Truthiness of a string value: every string but the empty one. *)
Definition truthy (s : string) : bool :=
  match s with
  | EmptyString => false
  | String _ _ => true
  end.

(** Truthiness of [string | null | undefined]. *)
Definition truthy_opt (o : option string) : bool :=
  match o with
  | Some s => truthy s
  | None => false
  end.

(** [a || b] on strings, with [a] possibly undefined. *)
Definition or_else (o : option string) (d : string) : string :=
  match o with
  | Some s => if truthy s then s else d
  | None => d
  end.

(** A possibly undefined string inside a template literal. *)
Definition interpolate (o : option string) : string :=
  match o with
  | Some s => s
  | None => "undefined"
  end.

(** [s.substring(0, n)] for an integer [n]: a negative end counts as 0, an
    end past the string as its length. *)
Definition substring0 (s : string) (n : Z) : string :=
  String.substring 0 (Z.to_nat n) s.

(** White space as [String.prototype.trim] sees it, among the code units
    below 256: TAB, LF, VT, FF, CR, SPACE and NBSP. *)
Definition is_space (c : ascii) : bool :=
  let n := N_of_ascii c in
  (((9 <=? n) && (n <=? 13)) || (n =? 32) || (n =? 160))%N.

Fixpoint trim_start (s : string) : string :=
  match s with
  | EmptyString => EmptyString
  | String c s' => if is_space c then trim_start s' else s
  end.

(** Drops trailing white space: a character is kept when it is not white
    space or when something is kept after it. *)
Fixpoint trim_end (s : string) : string :=
  match s with
  | EmptyString => EmptyString
  | String c s' =>
      match trim_end s' with
      | EmptyString => if is_space c then EmptyString else String c EmptyString
      | r => String c r
      end
  end.

(** [s.trim()] *)
Definition trim (s : string) : string := trim_end (trim_start s).

(** [n] copies of a character; used to write large inputs down. *)
Definition replicate (c : ascii) (n : positive) : string :=
  Pos.iter (String c) EmptyString n.

End JS.

(** ** WorkspaceService *)

Module WorkspaceService.
Import JS.

Record FileInfo := {
  path : string;
  relativePath : string;
  name : string;
  content : option string;
  language : option string
}.

Record WorkspaceContext := {
  workspaceName : string;
  workspacePath : string;
  openFiles : list FileInfo;
  activeFile : option FileInfo;
  selectedText : option string;
  recentFiles : list FileInfo
}.

(** What the editor host answers: the result of [getContext()] ([None]
    when no folder is open), of [readFile(p)] for every path ([None] when
    the document cannot be opened) and of [findFiles(pattern, maxResults)]. *)
Record Workspace := {
  getContext : option WorkspaceContext;
  readFile : string -> option FileInfo;
  findFiles : string -> Z -> list FileInfo
}.

(** [readFiles]: the files that could be read, in the order asked. *)
Definition readFiles (w : Workspace) (filePaths : list string) : list FileInfo :=
  omap (readFile w) filePaths.

(** The truncation both sections apply:
    [content.length > remainingChars - 200
       ? content.substring(0, remainingChars - 200) + '\n... (truncated)'
       : content] *)
Definition truncate (content : string) (remainingChars : Z) : string :=
  if remainingChars - 200 <? strlen content
  then substring0 content (remainingChars - 200) +:+ nl +:+ "... (truncated)"
  else content.

Definition header (context : WorkspaceContext) : string :=
  "## Workspace: " +:+ workspaceName context +:+ nl +:+ nl.

Definition selectedSection (sel : string) : string :=
  "### Selected Text:" +:+ nl +:+ "```" +:+ nl +:+ sel +:+ nl +:+ "```" +:+ nl +:+ nl.

Definition activeSection (f : FileInfo) (truncatedContent : string) : string :=
  "### Currently Active File: " +:+ relativePath f +:+ nl
    +:+ "Language: " +:+ interpolate (language f) +:+ nl
    +:+ "```" +:+ or_else (language f) "" +:+ nl
    +:+ truncatedContent +:+ nl +:+ "```" +:+ nl +:+ nl.

Definition fileSection (f : FileInfo) (truncatedContent : string) : string :=
  "### File: " +:+ relativePath f +:+ nl
    +:+ "```" +:+ or_else (language f) "" +:+ nl
    +:+ truncatedContent +:+ nl +:+ "```" +:+ nl +:+ nl.

(** The two accumulators of the function. *)
Definition Acc : Type := string * Z.

Definition addSelection (context : WorkspaceContext) (acc : Acc) : Acc :=
  let '(contextStr, remainingChars) := acc in
  match selectedText context with
  | Some sel =>
      if truthy sel && (0 <? remainingChars) then
        let section := selectedSection sel in
        if strlen section <=? remainingChars
        then (contextStr +:+ section, remainingChars - strlen section)
        else acc
      else acc
  | None => acc
  end.

Definition addActiveFile (context : WorkspaceContext) (acc : Acc) : Acc :=
  let '(contextStr, remainingChars) := acc in
  match activeFile context with
  | Some f =>
      match content f with
      | Some c =>
          if truthy c && (0 <? remainingChars) then
            let section := activeSection f (truncate c remainingChars) in
            (contextStr +:+ section, remainingChars - strlen section)
          else acc
      | None => acc
      end
  | None => acc
  end.

(** The [for (const file of files)] loop with its [break]. *)
Fixpoint addFiles (files : list FileInfo) (acc : Acc) : Acc :=
  match files with
  | [] => acc
  | file :: rest =>
      let '(contextStr, remainingChars) := acc in
      match content file with
      | Some c =>
          if truthy c && (500 <? remainingChars) then
            let section := fileSection file (truncate c remainingChars) in
            let acc' := (contextStr +:+ section, remainingChars - strlen section) in
            if snd acc' <=? 0 then acc' else addFiles rest acc'
          else addFiles rest acc
      | None => addFiles rest acc
      end
  end.

Definition defaultMaxChars : Z := 50000.

Definition buildContextForPrompt
    (w : Workspace) (contextFiles : list string) (maxChars : Z) : string :=
  let acc0 : Acc := (EmptyString, maxChars) in
  let acc1 :=
    match getContext w with
    | Some context =>
        let contextStr := fst acc0 +:+ header context in
        let remainingChars := snd acc0 - strlen contextStr in
        addActiveFile context (addSelection context (contextStr, remainingChars))
    | None => acc0
    end in
  let acc2 :=
    if (0 <? Z.of_nat (length contextFiles)) && (0 <? snd acc1)
    then addFiles (readFiles w contextFiles) acc1
    else acc1 in
  fst acc2.

End WorkspaceService.

(** ** GeminiLiveClient *)

Module GeminiLiveClient.
Import JS.

(** A Node [Buffer]; on the wire it travels as base64 text, which stands
    for the same bytes. *)
Definition Buffer : Type := list Byte.byte.

Inductive ReadyState := CONNECTING | OPEN | CLOSING | CLOSED.

Record MediaChunk := { mimeType : string; data : Buffer }.

(** The JSON objects the client writes to the socket. *)
Inductive Frame :=
| Setup (model : string) (systemInstruction : string)
| RealtimeInput (mediaChunks : list MediaChunk)
| ClientContent (role : string) (text : string) (turnComplete : bool).

(** The parsed server message, with the fields [handleResponse] looks at. *)
Record ErrorBody := { message : option string; json : string }.

Inductive Transcription :=
| TranscriptionString (s : string)
| TranscriptionObject (text : option string).

Record ServerContent := {
  inputTranscription : option Transcription;
  modelTurnParts : option (list (option string));  (* modelTurn?.parts, each part's [text] *)
  turnComplete : bool;
  interrupted : bool
}.

Record Response := {
  error : option ErrorBody;
  setupComplete : bool;
  serverContent : option ServerContent
}.

(** What leaves the client: frames on the socket and calls of the
    callbacks it was constructed with. *)
Inductive Effect :=
| Send (f : Frame)
| Close
| OnTranscription (text : string) (isFinal : bool)
| OnModelResponse (text : string) (isFinal : bool)
| OnError (error : string)
| OnConnected
| OnDisconnected.

(** The value of [this.callbacks.onModelResponse]: the callback given at
    construction, or the closure installed by the [k]-th call of
    [requestModelResponse] around the value it found. *)
Inductive Handler :=
| Constructed
| Swapped (k : nat) (originalCallback : Handler).

(** State of a promise; settling a settled promise changes nothing. *)
Inductive Settled :=
| Pending
| Resolved (text : string)
| Rejected (reason : string).

Definition settle (p : Settled) (v : Settled) : Settled :=
  match p with
  | Pending => v
  | _ => p
  end.

(** What one call of [requestModelResponse] leaves behind: its promise,
    the variables its closures share, and whether it got as far as
    [setTimeout]. *)
Record Request := {
  promise : Settled;
  resolved : bool;
  originalCallback : Handler;
  timerSet : bool
}.

Record Client := {
  ws : option ReadyState;           (* [this.ws]: null, or a socket and its readyState *)
  apiKey : string;
  currentTranscription : string;
  currentModelResponse : string;
  workspaceContext : string;
  onModelResponse : Handler;        (* [this.callbacks.onModelResponse] *)
  requests : list Request           (* calls of [requestModelResponse], by number *)
}.

Definition set_ws (v : option ReadyState) (c : Client) : Client :=
  {| ws := v; apiKey := apiKey c; currentTranscription := currentTranscription c;
     currentModelResponse := currentModelResponse c; workspaceContext := workspaceContext c;
     onModelResponse := onModelResponse c; requests := requests c |}.

Definition set_currentTranscription (v : string) (c : Client) : Client :=
  {| ws := ws c; apiKey := apiKey c; currentTranscription := v;
     currentModelResponse := currentModelResponse c; workspaceContext := workspaceContext c;
     onModelResponse := onModelResponse c; requests := requests c |}.

Definition set_currentModelResponse (v : string) (c : Client) : Client :=
  {| ws := ws c; apiKey := apiKey c; currentTranscription := currentTranscription c;
     currentModelResponse := v; workspaceContext := workspaceContext c;
     onModelResponse := onModelResponse c; requests := requests c |}.

Definition set_workspaceContext (v : string) (c : Client) : Client :=
  {| ws := ws c; apiKey := apiKey c; currentTranscription := currentTranscription c;
     currentModelResponse := currentModelResponse c; workspaceContext := v;
     onModelResponse := onModelResponse c; requests := requests c |}.

Definition set_onModelResponse (v : Handler) (c : Client) : Client :=
  {| ws := ws c; apiKey := apiKey c; currentTranscription := currentTranscription c;
     currentModelResponse := currentModelResponse c; workspaceContext := workspaceContext c;
     onModelResponse := v; requests := requests c |}.

Definition set_requests (v : list Request) (c : Client) : Client :=
  {| ws := ws c; apiKey := apiKey c; currentTranscription := currentTranscription c;
     currentModelResponse := currentModelResponse c; workspaceContext := workspaceContext c;
     onModelResponse := onModelResponse c; requests := v |}.

(** [new GeminiLiveClient(callbacks)] *)
Definition create (key : string) : Client :=
  {| ws := None; apiKey := key; currentTranscription := ""; currentModelResponse := "";
     workspaceContext := ""; onModelResponse := Constructed; requests := [] |}.

Definition isConnected (c : Client) : bool :=
  match ws c with
  | Some OPEN => true
  | _ => false
  end.

Definition getTranscription (c : Client) : string := trim (currentTranscription c).
Definition getModelResponse (c : Client) : string := currentModelResponse c.
Definition resetTranscription (c : Client) : Client := set_currentTranscription "" c.
Definition resetModelResponse (c : Client) : Client := set_currentModelResponse "" c.
Definition setWorkspaceContext (context : string) (c : Client) : Client :=
  set_workspaceContext context c.

Definition model : string := "gemini-2.0-flash-exp".

Definition baseInstruction : string :=
  "You are a helpful coding assistant integrated into VS Code. You help developers write, understand, and debug code. Be concise and practical in your responses. When discussing code, reference specific files and line numbers when relevant.".

Definition systemInstruction (c : Client) : string :=
  if truthy (workspaceContext c)
  then baseInstruction +:+ nl +:+ nl +:+ "Here is the current workspace context:" +:+ nl
         +:+ workspaceContext c
  else baseInstruction.

(** [connect()]: without a key it reports an error, otherwise a socket is
    created, which starts out connecting. *)
Definition connect (c : Client) : Client * list Effect :=
  if truthy (apiKey c)
  then (set_ws (Some CONNECTING) c, [])
  else (c, [OnError "Gemini API key not configured. Go to Settings > soundcode.geminiApiKey"]).

(** The socket's ['open'] listener, the socket being open by then. *)
Definition onOpen (c : Client) : Client * list Effect :=
  match ws c with
  | Some _ => (set_ws (Some OPEN) c, [Send (Setup ("models/" +:+ model) (systemInstruction c))])
  | None => (c, [])
  end.

(** The socket starts closing (its readyState changes, no listener runs). *)
Definition onClosing (c : Client) : Client :=
  match ws c with
  | Some _ => set_ws (Some CLOSING) c
  | None => c
  end.

(** The socket's ['error'] and ['close'] listeners. *)
Definition onSocketError (msg : string) (c : Client) : Client * list Effect :=
  (c, [OnError ("Connection error: " +:+ msg)]).

Definition onClose (c : Client) : Client * list Effect :=
  (set_ws None c, [OnDisconnected]).

Definition update_request (k : nat) (f : Request -> Request) (c : Client) : Client :=
  match requests c !! k with
  | Some r => set_requests (<[k := f r]> (requests c)) c
  | None => c
  end.

Definition mark_resolved (v : Settled) (r : Request) : Request :=
  {| promise := settle (promise r) v; resolved := true;
     originalCallback := originalCallback r; timerSet := timerSet r |}.

(** Calling a value of [this.callbacks.onModelResponse].  The closure of
    request [k] first calls the callback it replaced; on a final text,
    and when its request is not yet resolved, it marks it resolved, puts
    the replaced callback back and resolves the promise with the text. *)
Fixpoint call (h : Handler) (text : string) (isFinal : bool) (c : Client)
    : Client * list Effect :=
  match h with
  | Constructed => (c, [OnModelResponse text isFinal])
  | Swapped k original =>
      let '(c1, out) := call original text isFinal c in
      match requests c1 !! k with
      | Some r =>
          if isFinal && negb (resolved r)
          then (set_onModelResponse original
                  (update_request k (mark_resolved (Resolved text)) c1), out)
          else (c1, out)
      | None => (c1, out)
      end
  end.

(** [this.callbacks.onModelResponse(text, isFinal)] *)
Definition callOnModelResponse (text : string) (isFinal : bool) (c : Client)
    : Client * list Effect :=
  call (onModelResponse c) text isFinal c.

(** The loop over [modelTurn.parts]. *)
Fixpoint handleParts (parts : list (option string)) (c : Client) : Client * list Effect :=
  match parts with
  | [] => (c, [])
  | part :: rest =>
      if truthy_opt part then
        let c1 := set_currentModelResponse
                    (currentModelResponse c +:+ interpolate part) c in
        let '(c2, out1) := callOnModelResponse (currentModelResponse c1) false c1 in
        let '(c3, out2) := handleParts rest c2 in
        (c3, out1 ++ out2)
      else handleParts rest c
  end.

Definition transcriptionText (t : Transcription) : option string :=
  match t with
  | TranscriptionString s => Some s
  | TranscriptionObject o => o
  end.

(** Truthiness of [serverContent.inputTranscription]: an object always,
    a string unless empty. *)
Definition transcriptionPresent (o : option Transcription) : bool :=
  match o with
  | Some (TranscriptionString s) => truthy s
  | Some (TranscriptionObject _) => true
  | None => false
  end.

Definition handleTurnComplete (c : Client) : Client * list Effect :=
  if truthy (currentModelResponse c)
  then callOnModelResponse (currentModelResponse c) true c
  else callOnModelResponse "" true c.

Definition handleServerContent (sc : ServerContent) (c : Client) : Client * list Effect :=
  if transcriptionPresent (inputTranscription sc) then
    match inputTranscription sc ≫= transcriptionText with
    | Some text =>
        if truthy text then
          let c1 := set_currentTranscription (currentTranscription c +:+ text) c in
          (c1, [OnTranscription (currentTranscription c1) false])
        else (c, [])
    | None => (c, [])
    end
  else
    match modelTurnParts sc with
    | Some parts => handleParts parts c
    | None => if turnComplete sc then handleTurnComplete c else (c, [])
    end.

Definition handleResponse (response : Response) (c : Client) : Client * list Effect :=
  match error response with
  | Some e => (c, [OnError ("Gemini error: " +:+ or_else (message e) (json e))])
  | None =>
      if setupComplete response then (c, [OnConnected])
      else
        match serverContent response with
        | Some sc => handleServerContent sc c
        | None => (c, [])
        end
  end.

Definition audioMimeType : string := "audio/pcm;rate=24000".

Definition sendAudio (audioData : Buffer) (c : Client) : Client * list Effect :=
  if isConnected c
  then (c, [Send (RealtimeInput [ {| mimeType := audioMimeType; data := audioData |} ])])
  else (c, []).

(** [Buffer.alloc(480)]: 10 ms of silence. *)
Definition silence : Buffer := repeat Byte.x00 480.

Definition interrupt (c : Client) : Client * list Effect :=
  if isConnected c then
    let c1 := set_currentModelResponse "" c in
    let out := [Send (RealtimeInput [ {| mimeType := audioMimeType; data := silence |} ])] in
    (set_currentTranscription "" c1, out)
  else (c, []).

Definition fallbackUserText : string := "Hello, please respond to me.".
Definition notConnectedError : string := "WebSocket not connected".
Definition audioEndError : string := "Failed to send audio end message".
Definition turnCompleteError : string := "Failed to send turn complete message".
Definition timeoutError : string := "Model response timeout - no response received".

Definition audioEndMessage : Frame := RealtimeInput [].

Definition endTurnMessage (c : Client) : Frame :=
  ClientContent "user"
    (if truthy (currentTranscription c) then currentTranscription c else fallbackUserText)
    true.

Definition add_request (r : Request) (c : Client) : Client :=
  set_requests (requests c ++ [r]) c.

(** [requestModelResponse()].  The call is number [length (requests c)];
    [sent1] and [sent2] say whether the two [ws.send] calls return rather
    than throw.  The promise executor runs at once, so the call returns
    with the promise already rejected or with closure and timer in
    place. *)
Definition requestModelResponse (sent1 sent2 : bool) (c : Client) : Client * list Effect :=
  let k := length (requests c) in
  if negb (isConnected c) then
    (add_request {| promise := Rejected notConnectedError; resolved := false;
                    originalCallback := onModelResponse c; timerSet := false |} c, [])
  else
    let c1 := set_currentModelResponse "" c in
    let original := onModelResponse c1 in
    let c2 := set_onModelResponse (Swapped k original) c1 in
    if negb sent1 then
      (add_request {| promise := Rejected audioEndError; resolved := false;
                      originalCallback := original; timerSet := false |} c2, [])
    else if negb sent2 then
      (add_request {| promise := Rejected turnCompleteError; resolved := false;
                      originalCallback := original; timerSet := false |} c2,
       [Send audioEndMessage])
    else
      (add_request {| promise := Pending; resolved := false;
                      originalCallback := original; timerSet := true |} c2,
       [Send audioEndMessage; Send (endTurnMessage c2)]).

(** The callback given to [setTimeout(..., 30000)] by request [k]. *)
Definition requestTimeoutMs : Z := 30000.

Definition onTimeout (k : nat) (c : Client) : Client :=
  match requests c !! k with
  | Some r =>
      if timerSet r && negb (resolved r) then
        let outcome :=
          if truthy (currentModelResponse c)
          then Resolved (currentModelResponse c)
          else Rejected timeoutError in
        set_onModelResponse (originalCallback r)
          (update_request k (mark_resolved outcome) c)
      else c
  | None => c
  end.

Definition contextUpdatePrefix : string :=
  "[CONTEXT UPDATE] The following files have been added to the conversation context. Please reference them in subsequent responses:".

Definition sendContextUpdate (sent : bool) (context : string) (c : Client)
    : Client * list Effect :=
  if negb (isConnected c) then (c, [])
  else if negb (truthy (trim context)) then (c, [])
  else if sent then
    (c, [Send (ClientContent "user" (contextUpdatePrefix +:+ nl +:+ nl +:+ context) false)])
  else (c, []).

Definition disconnect (c : Client) : Client * list Effect :=
  let '(c1, out) :=
    match ws c with
    | Some _ => (set_ws None c, [Close])
    | None => (c, [])
    end in
  (set_currentModelResponse "" (set_currentTranscription "" c1), out).

(** Everything that can happen to a client: socket events, method calls,
    and the timers of its requests. *)
Inductive Event :=
| WsOpen
| WsMessage (response : Response)
| WsError (msg : string)
| WsClosing
| WsClose
| Connect
| SendAudio (audioData : Buffer)
| Interrupt
| RequestModelResponse (sent1 sent2 : bool)
| SendContextUpdate (sent : bool) (context : string)
| Disconnect
| ResetTranscription
| ResetModelResponse
| SetWorkspaceContext (context : string)
| Timeout (k : nat).

Definition step (e : Event) (c : Client) : Client * list Effect :=
  match e with
  | WsOpen => onOpen c
  | WsMessage response => handleResponse response c
  | WsError msg => onSocketError msg c
  | WsClosing => (onClosing c, [])
  | WsClose => onClose c
  | Connect => connect c
  | SendAudio audioData => sendAudio audioData c
  | Interrupt => interrupt c
  | RequestModelResponse sent1 sent2 => requestModelResponse sent1 sent2 c
  | SendContextUpdate sent context => sendContextUpdate sent context c
  | Disconnect => disconnect c
  | ResetTranscription => (resetTranscription c, [])
  | ResetModelResponse => (resetModelResponse c, [])
  | SetWorkspaceContext context => (setWorkspaceContext context c, [])
  | Timeout k => (onTimeout k c, [])
  end.

Fixpoint run (es : list Event) (c : Client) : Client * list Effect :=
  match es with
  | [] => (c, [])
  | e :: rest =>
      let '(c1, out1) := step e c in
      let '(c2, out2) := run rest c1 in
      (c2, out1 ++ out2)
  end.

(** The promise of request [k]. *)
Definition promiseOf (k : nat) (c : Client) : option Settled :=
  promise <$> requests c !! k.

(** A server message that reaches the [turnComplete] branch of
    [handleResponse], that is, one that delivers a final model response. *)
Definition isTurnComplete (response : Response) : bool :=
  match error response, setupComplete response, serverContent response with
  | None, false, Some sc =>
      negb (transcriptionPresent (inputTranscription sc))
      && negb (bool_decide (is_Some (modelTurnParts sc)))
      && turnComplete sc
  | _, _, _ => false
  end.

End GeminiLiveClient.

(** ** Messages between the webview and the extension host *)

Module Msg.

(** [vscode.postMessage] in the webview script. *)
Inductive FromWebview :=
| startDictation
| stopDictation
| sendToModel (text : string)
| addContextFile (file : string)
| removeContextFile (file : string)
| searchFiles (query : string)
| interrupt
| hardStop.

(** [webview.postMessage] in the provider. *)
Inductive ToWebview :=
| recordingStarted
| recordingStopped
| transcriptionUpdate (text : string) (isFinal : bool)
| thinking
| modelResponse (text : string)
| audioComplete
| audioData (audio : GeminiLiveClient.Buffer)
| error (text : string)
| fileSearchResults (files : list string)
| interrupted
| hardStopped.

Definition isSendToModel (m : FromWebview) : bool :=
  match m with
  | sendToModel _ => true
  | _ => false
  end.

(** The two messages that end a turn for the webview. *)
Definition isTerminal (m : ToWebview) : bool :=
  match m with
  | audioComplete | error _ => true
  | _ => false
  end.

Definition isError (m : ToWebview) : bool :=
  match m with
  | error _ => true
  | _ => false
  end.

End Msg.

(** Function application written in program order. *)
Notation "x |> f" := (f x) (at level 68, left associativity, only parsing).

(** ** The webview script *)

Module Webview.
Import JS.

(** An element's [classList]. *)
Definition ClassList : Type := list string.

Definition add (cls : string) (l : ClassList) : ClassList :=
  if bool_decide (cls ∈ l) then l else l ++ [cls].

Definition remove (cls : list string) (l : ClassList) : ClassList :=
  filter (fun c => c ∉ cls) l.

Definition contains (cls : string) (l : ClassList) : bool := bool_decide (cls ∈ l).

(** The callbacks the script hands to [setTimeout]. *)
Inductive Timer :=
| RetrySend        (* in the send handler's debounce branch *)
| ShowListening.   (* in the ['interrupted'] case *)

(** The script's variables, the parts of the document it writes, its
    pending timers (with the time each is due) and what it posted.  The
    microphone icon, scrolling, the waveform canvas and the context-file
    input are left out: nothing below reads them. *)
Record Webview := {
  isRecording : bool;
  isDictationActive : bool;
  currentTranscription : string;
  lastTranscriptionUpdate : Z;
  isSending : bool;
  isModelResponding : bool;
  messageStatus : string;
  voiceText : string;
  startLabel : string;
  statusPill : ClassList;
  startBtn : ClassList;
  sendBtn : ClassList;
  interruptBtn : ClassList;
  stopBtn : ClassList;
  chatMessages : list (string * string);
  timers : list (Z * Timer);
  posted : list Msg.FromWebview
}.

Definition set_isRecording (v : bool) (x : Webview) : Webview :=
  {| isRecording := v; isDictationActive := isDictationActive x;
     currentTranscription := currentTranscription x;
     lastTranscriptionUpdate := lastTranscriptionUpdate x; isSending := isSending x;
     isModelResponding := isModelResponding x; messageStatus := messageStatus x;
     voiceText := voiceText x; startLabel := startLabel x; statusPill := statusPill x;
     startBtn := startBtn x; sendBtn := sendBtn x; interruptBtn := interruptBtn x;
     stopBtn := stopBtn x; chatMessages := chatMessages x; timers := timers x;
     posted := posted x |}.

Definition set_isDictationActive (v : bool) (x : Webview) : Webview :=
  {| isRecording := isRecording x; isDictationActive := v;
     currentTranscription := currentTranscription x;
     lastTranscriptionUpdate := lastTranscriptionUpdate x; isSending := isSending x;
     isModelResponding := isModelResponding x; messageStatus := messageStatus x;
     voiceText := voiceText x; startLabel := startLabel x; statusPill := statusPill x;
     startBtn := startBtn x; sendBtn := sendBtn x; interruptBtn := interruptBtn x;
     stopBtn := stopBtn x; chatMessages := chatMessages x; timers := timers x;
     posted := posted x |}.

Definition set_currentTranscription (v : string) (x : Webview) : Webview :=
  {| isRecording := isRecording x; isDictationActive := isDictationActive x;
     currentTranscription := v; lastTranscriptionUpdate := lastTranscriptionUpdate x;
     isSending := isSending x; isModelResponding := isModelResponding x;
     messageStatus := messageStatus x; voiceText := voiceText x; startLabel := startLabel x;
     statusPill := statusPill x; startBtn := startBtn x; sendBtn := sendBtn x;
     interruptBtn := interruptBtn x; stopBtn := stopBtn x; chatMessages := chatMessages x;
     timers := timers x; posted := posted x |}.

Definition set_lastTranscriptionUpdate (v : Z) (x : Webview) : Webview :=
  {| isRecording := isRecording x; isDictationActive := isDictationActive x;
     currentTranscription := currentTranscription x; lastTranscriptionUpdate := v;
     isSending := isSending x; isModelResponding := isModelResponding x;
     messageStatus := messageStatus x; voiceText := voiceText x; startLabel := startLabel x;
     statusPill := statusPill x; startBtn := startBtn x; sendBtn := sendBtn x;
     interruptBtn := interruptBtn x; stopBtn := stopBtn x; chatMessages := chatMessages x;
     timers := timers x; posted := posted x |}.

Definition set_isSending (v : bool) (x : Webview) : Webview :=
  {| isRecording := isRecording x; isDictationActive := isDictationActive x;
     currentTranscription := currentTranscription x;
     lastTranscriptionUpdate := lastTranscriptionUpdate x; isSending := v;
     isModelResponding := isModelResponding x; messageStatus := messageStatus x;
     voiceText := voiceText x; startLabel := startLabel x; statusPill := statusPill x;
     startBtn := startBtn x; sendBtn := sendBtn x; interruptBtn := interruptBtn x;
     stopBtn := stopBtn x; chatMessages := chatMessages x; timers := timers x;
     posted := posted x |}.

Definition set_isModelResponding (v : bool) (x : Webview) : Webview :=
  {| isRecording := isRecording x; isDictationActive := isDictationActive x;
     currentTranscription := currentTranscription x;
     lastTranscriptionUpdate := lastTranscriptionUpdate x; isSending := isSending x;
     isModelResponding := v; messageStatus := messageStatus x; voiceText := voiceText x;
     startLabel := startLabel x; statusPill := statusPill x; startBtn := startBtn x;
     sendBtn := sendBtn x; interruptBtn := interruptBtn x; stopBtn := stopBtn x;
     chatMessages := chatMessages x; timers := timers x; posted := posted x |}.

Definition set_messageStatus (v : string) (x : Webview) : Webview :=
  {| isRecording := isRecording x; isDictationActive := isDictationActive x;
     currentTranscription := currentTranscription x;
     lastTranscriptionUpdate := lastTranscriptionUpdate x; isSending := isSending x;
     isModelResponding := isModelResponding x; messageStatus := v; voiceText := voiceText x;
     startLabel := startLabel x; statusPill := statusPill x; startBtn := startBtn x;
     sendBtn := sendBtn x; interruptBtn := interruptBtn x; stopBtn := stopBtn x;
     chatMessages := chatMessages x; timers := timers x; posted := posted x |}.

Definition set_voiceText (v : string) (x : Webview) : Webview :=
  {| isRecording := isRecording x; isDictationActive := isDictationActive x;
     currentTranscription := currentTranscription x;
     lastTranscriptionUpdate := lastTranscriptionUpdate x; isSending := isSending x;
     isModelResponding := isModelResponding x; messageStatus := messageStatus x;
     voiceText := v; startLabel := startLabel x; statusPill := statusPill x;
     startBtn := startBtn x; sendBtn := sendBtn x; interruptBtn := interruptBtn x;
     stopBtn := stopBtn x; chatMessages := chatMessages x; timers := timers x;
     posted := posted x |}.

Definition set_startLabel (v : string) (x : Webview) : Webview :=
  {| isRecording := isRecording x; isDictationActive := isDictationActive x;
     currentTranscription := currentTranscription x;
     lastTranscriptionUpdate := lastTranscriptionUpdate x; isSending := isSending x;
     isModelResponding := isModelResponding x; messageStatus := messageStatus x;
     voiceText := voiceText x; startLabel := v; statusPill := statusPill x;
     startBtn := startBtn x; sendBtn := sendBtn x; interruptBtn := interruptBtn x;
     stopBtn := stopBtn x; chatMessages := chatMessages x; timers := timers x;
     posted := posted x |}.

Definition set_statusPill (v : ClassList) (x : Webview) : Webview :=
  {| isRecording := isRecording x; isDictationActive := isDictationActive x;
     currentTranscription := currentTranscription x;
     lastTranscriptionUpdate := lastTranscriptionUpdate x; isSending := isSending x;
     isModelResponding := isModelResponding x; messageStatus := messageStatus x;
     voiceText := voiceText x; startLabel := startLabel x; statusPill := v;
     startBtn := startBtn x; sendBtn := sendBtn x; interruptBtn := interruptBtn x;
     stopBtn := stopBtn x; chatMessages := chatMessages x; timers := timers x;
     posted := posted x |}.

Definition set_startBtn (v : ClassList) (x : Webview) : Webview :=
  {| isRecording := isRecording x; isDictationActive := isDictationActive x;
     currentTranscription := currentTranscription x;
     lastTranscriptionUpdate := lastTranscriptionUpdate x; isSending := isSending x;
     isModelResponding := isModelResponding x; messageStatus := messageStatus x;
     voiceText := voiceText x; startLabel := startLabel x; statusPill := statusPill x;
     startBtn := v; sendBtn := sendBtn x; interruptBtn := interruptBtn x;
     stopBtn := stopBtn x; chatMessages := chatMessages x; timers := timers x;
     posted := posted x |}.

Definition set_sendBtn (v : ClassList) (x : Webview) : Webview :=
  {| isRecording := isRecording x; isDictationActive := isDictationActive x;
     currentTranscription := currentTranscription x;
     lastTranscriptionUpdate := lastTranscriptionUpdate x; isSending := isSending x;
     isModelResponding := isModelResponding x; messageStatus := messageStatus x;
     voiceText := voiceText x; startLabel := startLabel x; statusPill := statusPill x;
     startBtn := startBtn x; sendBtn := v; interruptBtn := interruptBtn x;
     stopBtn := stopBtn x; chatMessages := chatMessages x; timers := timers x;
     posted := posted x |}.

Definition set_interruptBtn (v : ClassList) (x : Webview) : Webview :=
  {| isRecording := isRecording x; isDictationActive := isDictationActive x;
     currentTranscription := currentTranscription x;
     lastTranscriptionUpdate := lastTranscriptionUpdate x; isSending := isSending x;
     isModelResponding := isModelResponding x; messageStatus := messageStatus x;
     voiceText := voiceText x; startLabel := startLabel x; statusPill := statusPill x;
     startBtn := startBtn x; sendBtn := sendBtn x; interruptBtn := v; stopBtn := stopBtn x;
     chatMessages := chatMessages x; timers := timers x; posted := posted x |}.

Definition set_stopBtn (v : ClassList) (x : Webview) : Webview :=
  {| isRecording := isRecording x; isDictationActive := isDictationActive x;
     currentTranscription := currentTranscription x;
     lastTranscriptionUpdate := lastTranscriptionUpdate x; isSending := isSending x;
     isModelResponding := isModelResponding x; messageStatus := messageStatus x;
     voiceText := voiceText x; startLabel := startLabel x; statusPill := statusPill x;
     startBtn := startBtn x; sendBtn := sendBtn x; interruptBtn := interruptBtn x;
     stopBtn := v; chatMessages := chatMessages x; timers := timers x; posted := posted x |}.

Definition set_chatMessages (v : list (string * string)) (x : Webview) : Webview :=
  {| isRecording := isRecording x; isDictationActive := isDictationActive x;
     currentTranscription := currentTranscription x;
     lastTranscriptionUpdate := lastTranscriptionUpdate x; isSending := isSending x;
     isModelResponding := isModelResponding x; messageStatus := messageStatus x;
     voiceText := voiceText x; startLabel := startLabel x; statusPill := statusPill x;
     startBtn := startBtn x; sendBtn := sendBtn x; interruptBtn := interruptBtn x;
     stopBtn := stopBtn x; chatMessages := v; timers := timers x; posted := posted x |}.

Definition set_timers (v : list (Z * Timer)) (x : Webview) : Webview :=
  {| isRecording := isRecording x; isDictationActive := isDictationActive x;
     currentTranscription := currentTranscription x;
     lastTranscriptionUpdate := lastTranscriptionUpdate x; isSending := isSending x;
     isModelResponding := isModelResponding x; messageStatus := messageStatus x;
     voiceText := voiceText x; startLabel := startLabel x; statusPill := statusPill x;
     startBtn := startBtn x; sendBtn := sendBtn x; interruptBtn := interruptBtn x;
     stopBtn := stopBtn x; chatMessages := chatMessages x; timers := v; posted := posted x |}.

Definition set_posted (v : list Msg.FromWebview) (x : Webview) : Webview :=
  {| isRecording := isRecording x; isDictationActive := isDictationActive x;
     currentTranscription := currentTranscription x;
     lastTranscriptionUpdate := lastTranscriptionUpdate x; isSending := isSending x;
     isModelResponding := isModelResponding x; messageStatus := messageStatus x;
     voiceText := voiceText x; startLabel := startLabel x; statusPill := statusPill x;
     startBtn := startBtn x; sendBtn := sendBtn x; interruptBtn := interruptBtn x;
     stopBtn := stopBtn x; chatMessages := chatMessages x; timers := timers x; posted := v |}.

(** The script's initial values and the document as the provider's HTML
    has it. *)
Definition initial : Webview :=
  {| isRecording := false; isDictationActive := false; currentTranscription := "";
     lastTranscriptionUpdate := 0; isSending := false; isModelResponding := false;
     messageStatus := "Ready"; voiceText := ""; startLabel := "start dictation";
     statusPill := ["status-pill"; "ready"]; startBtn := ["btn-dictate"];
     sendBtn := ["btn-send"; "hidden"]; interruptBtn := ["btn-interrupt"; "hidden"];
     stopBtn := ["btn-stop"; "hidden"]; chatMessages := []; timers := []; posted := [] |}.

Definition sendDebounceMs : Z := 300.

Definition postMessage (m : Msg.FromWebview) (w : Webview) : Webview :=
  set_posted (posted w ++ [m]) w.

(** [setTimeout(callback, delay)] called at time [now]. *)
Definition setTimeout (callback : Timer) (delay : Z) (now : Z) (w : Webview) : Webview :=
  set_timers (timers w ++ [(now + delay, callback)]) w.

Definition addChatMessage (text role : string) (w : Webview) : Webview :=
  set_chatMessages (chatMessages w ++ [(text, role)]) w.

(** The start button's click listener. *)
Definition startClick (w : Webview) : Webview :=
  if negb (isRecording w)
  then postMessage Msg.startDictation w
  else postMessage Msg.stopDictation w.

Definition interruptClick (w : Webview) : Webview := postMessage Msg.interrupt w.
Definition stopClick (w : Webview) : Webview := postMessage Msg.hardStop w.

(** The part of the send listener after its three guards. *)
Definition doSend (w : Webview) : Webview :=
  let w1 := set_isSending true w in
  let w2 :=
    if isRecording w1
    then w1 |> postMessage Msg.stopDictation |> set_isRecording false
    else w1 in
  let userMessage := trim (currentTranscription w2) in
  w2 |> postMessage (Msg.sendToModel userMessage)
     |> addChatMessage userMessage "user"
     |> set_currentTranscription ""
     |> set_voiceText ""
     |> set_messageStatus "Thinking..."
     |> (fun w => set_statusPill
                    (add "thinking"
                       (remove ["paused"; "ready"; "listening"; "speaking"] (statusPill w))) w)
     |> set_isModelResponding true
     |> set_isDictationActive false
     |> (fun w => set_startBtn (add "hidden" (remove ["paused"; "recording"] (startBtn w))) w)
     |> (fun w => set_sendBtn (add "hidden" (sendBtn w)) w)
     |> (fun w => set_interruptBtn (remove ["hidden"] (interruptBtn w)) w).

(** The send button's click listener, run at clock reading [now]. *)
Definition sendClick (now : Z) (w : Webview) : Webview :=
  if isSending w then w
  else if negb (truthy (trim (currentTranscription w))) then w
  else
    let timeSinceLastUpdate := now - lastTranscriptionUpdate w in
    if timeSinceLastUpdate <? sendDebounceMs then
      w |> set_messageStatus "Finishing..."
        |> setTimeout RetrySend (sendDebounceMs - timeSinceLastUpdate + 50) now
    else doSend w.

(** Running a timer callback at clock reading [now]. *)
Definition runTimer (t : Timer) (now : Z) (w : Webview) : Webview :=
  match t with
  | RetrySend =>
      if negb (isSending w) && truthy (trim (currentTranscription w))
      then sendClick now w
      else w
  | ShowListening =>
      w |> set_messageStatus "Listening..."
        |> (fun w => set_statusPill (add "listening" (remove ["interrupted"] (statusPill w))) w)
  end.

(** The [n]-th pending timer fires: it leaves the pending list and its
    callback runs. *)
Definition fireTimer (n : nat) (now : Z) (w : Webview) : Webview :=
  match timers w !! n with
  | Some (_, t) => runTimer t now (set_timers (delete n (timers w)) w)
  | None => w
  end.

(** The ['message'] listener, run at clock reading [now]. *)
Definition receive (message : Msg.ToWebview) (now : Z) (w : Webview) : Webview :=
  match message with
  | Msg.recordingStarted =>
      w |> set_isRecording true
        |> set_isDictationActive true
        |> (fun w => set_startBtn (remove ["paused"] (add "recording" (startBtn w))) w)
        |> set_startLabel "pause"
        |> (fun w => set_statusPill
                       (add "listening"
                          (remove ["paused"; "ready"; "thinking"; "speaking"] (statusPill w))) w)
        |> set_messageStatus "Listening..."
        |> (fun w => set_sendBtn (remove ["hidden"] (sendBtn w)) w)
        |> (fun w => set_stopBtn (remove ["hidden"] (stopBtn w)) w)
  | Msg.recordingStopped =>
      w |> set_isRecording false
        |> (fun w => set_startBtn (add "paused" (remove ["recording"] (startBtn w))) w)
        |> set_startLabel "resume"
        |> (fun w => set_statusPill (remove ["ready"; "thinking"] (add "paused" (statusPill w))) w)
        |> set_messageStatus "Paused"
        |> (fun w => if isDictationActive w
                     then set_sendBtn (remove ["hidden"] (sendBtn w)) w
                     else w)
  | Msg.transcriptionUpdate text _ =>
      w |> set_currentTranscription text
        |> set_voiceText text
        |> set_lastTranscriptionUpdate now
  | Msg.thinking =>
      w |> set_messageStatus "Thinking..."
        |> (fun w => set_statusPill
                       (add "thinking"
                          (remove ["paused"; "ready"; "listening"; "speaking"] (statusPill w))) w)
  | Msg.modelResponse text =>
      let w1 := set_isModelResponding false w in
      if truthy text then
        w1 |> set_voiceText text
           |> addChatMessage text "assistant"
           |> set_messageStatus "Speaking..."
           |> (fun w => set_statusPill
                          (add "speaking"
                             (remove ["paused"; "thinking"; "ready"; "listening"] (statusPill w))) w)
      else w1
  | Msg.audioComplete =>
      w |> set_messageStatus "Ready"
        |> (fun w => set_statusPill
                       (add "ready"
                          (remove ["paused"; "thinking"; "speaking"; "listening"] (statusPill w))) w)
        |> set_isSending false
        |> (fun w => set_startBtn (remove ["hidden"] (startBtn w)) w)
        |> set_startLabel "start dictation"
        |> (fun w => set_interruptBtn (add "hidden" (interruptBtn w)) w)
        |> (fun w => set_stopBtn (add "hidden" (stopBtn w)) w)
  | Msg.audioData _ => w
  | Msg.error _ =>
      w |> set_messageStatus "Error"
        |> (fun w => set_statusPill (remove ["thinking"] (statusPill w)) w)
        |> set_isModelResponding false
        |> set_isSending false
        |> (fun w => set_startBtn (remove ["hidden"] (startBtn w)) w)
        |> (fun w => set_interruptBtn (add "hidden" (interruptBtn w)) w)
  | Msg.fileSearchResults _ => w
  | Msg.interrupted =>
      w |> set_isModelResponding false
        |> set_isSending false
        |> set_isRecording true
        |> set_isDictationActive true
        |> set_currentTranscription ""
        |> set_voiceText ""
        |> set_messageStatus "Interrupted"
        |> (fun w => set_statusPill
                       (add "interrupted"
                          (remove ["paused"; "ready"; "thinking"; "speaking"; "listening"]
                             (statusPill w))) w)
        |> setTimeout ShowListening 500 now
        |> (fun w => set_startBtn (add "recording" (remove ["hidden"] (startBtn w))) w)
        |> set_startLabel "pause"
        |> (fun w => set_sendBtn (remove ["hidden"] (sendBtn w)) w)
        |> (fun w => set_stopBtn (remove ["hidden"] (stopBtn w)) w)
        |> (fun w => set_interruptBtn (add "hidden" (interruptBtn w)) w)
  | Msg.hardStopped =>
      w |> set_isRecording false
        |> set_isDictationActive false
        |> set_isModelResponding false
        |> set_isSending false
        |> set_currentTranscription ""
        |> set_voiceText ""
        |> set_messageStatus "Ready"
        |> (fun w => set_statusPill
                       (add "ready"
                          (remove ["paused"; "thinking"; "speaking"; "listening"] (statusPill w))) w)
        |> (fun w => set_startBtn (remove ["hidden"; "recording"; "paused"] (startBtn w)) w)
        |> set_startLabel "start dictation"
        |> (fun w => set_sendBtn (add "hidden" (sendBtn w)) w)
        |> (fun w => set_interruptBtn (add "hidden" (interruptBtn w)) w)
        |> (fun w => set_stopBtn (add "hidden" (stopBtn w)) w)
  end.

(** How many turn-completion requests the webview has asked for. *)
Definition sendCount (w : Webview) : nat :=
  length (filter (fun m => Msg.isSendToModel m = true) (posted w)).

(** The start control is on screen and no send lock is held. *)
Definition startCapable (w : Webview) : bool :=
  negb (contains "hidden" (startBtn w)) && negb (isSending w).

End Webview.

(** ** SoundCodeViewProvider, with the capture and playback adapters *)

Module SoundCodeViewProvider.
Import JS.
Module G := GeminiLiveClient.

Definition Workspace : Type := WorkspaceService.Workspace.

(** What the provider and its adapters do to the world, in order. *)
Inductive Effect :=
| PostMessage (m : Msg.ToWebview)
| ShowErrorMessage (text : string)
| SocketSend (client : nat) (f : G.Frame)
| SocketClose (client : nat)
| SpawnRecorder (pid : nat)                    (* [spawn('rec', ...)] *)
| SpawnPlayer (pid : nat) (audio : G.Buffer)   (* [spawn('ffplay', ...)] and the write to its stdin *)
| Kill (pid : nat)
| TextToSpeech (text : string).                (* the request of [textToSpeech] *)

(** Where a call of [handleSendToModel] stands: at one of its [await]s,
    or over. *)
Inductive SendState :=
| Sleeping                                 (* the 100 ms pause *)
| AwaitingResponse (client : nat) (k : nat)  (* [requestModelResponse()] of that client *)
| AwaitingSpeech                           (* [textToSpeech(responseText)] *)
| AwaitingPlayback (pid : nat)             (* [audioPlayer.play(audioBuffer)] *)
| Finished.

(** The provider object and what it owns.  Client objects live in
    [clients], [geminiClient] refers to one of them or is null; child
    processes that are alive are in [recorders] and [players], whoever
    still holds a handle to them. *)
Record Provider := {
  captureProcess : option nat;     (* [audioCapture.process] *)
  playerProcess : option nat;      (* [audioPlayer.process] *)
  geminiClient : option nat;
  clients : list G.Client;
  geminiApiKey : string;
  elevenLabsApiKey : string;
  contextFiles : list string;
  workspace : Workspace;
  recorders : gset nat;
  players : gset nat;
  nextPid : nat;
  sends : list SendState;          (* calls of [handleSendToModel], by number *)
  effects : list Effect
}.

Definition set_captureProcess (v : option nat) (x : Provider) : Provider :=
  {| captureProcess := v; playerProcess := playerProcess x; geminiClient := geminiClient x;
     clients := clients x; geminiApiKey := geminiApiKey x;
     elevenLabsApiKey := elevenLabsApiKey x; contextFiles := contextFiles x;
     workspace := workspace x; recorders := recorders x; players := players x;
     nextPid := nextPid x; sends := sends x; effects := effects x |}.

Definition set_playerProcess (v : option nat) (x : Provider) : Provider :=
  {| captureProcess := captureProcess x; playerProcess := v; geminiClient := geminiClient x;
     clients := clients x; geminiApiKey := geminiApiKey x;
     elevenLabsApiKey := elevenLabsApiKey x; contextFiles := contextFiles x;
     workspace := workspace x; recorders := recorders x; players := players x;
     nextPid := nextPid x; sends := sends x; effects := effects x |}.

Definition set_geminiClient (v : option nat) (x : Provider) : Provider :=
  {| captureProcess := captureProcess x; playerProcess := playerProcess x; geminiClient := v;
     clients := clients x; geminiApiKey := geminiApiKey x;
     elevenLabsApiKey := elevenLabsApiKey x; contextFiles := contextFiles x;
     workspace := workspace x; recorders := recorders x; players := players x;
     nextPid := nextPid x; sends := sends x; effects := effects x |}.

Definition set_clients (v : list G.Client) (x : Provider) : Provider :=
  {| captureProcess := captureProcess x; playerProcess := playerProcess x;
     geminiClient := geminiClient x; clients := v; geminiApiKey := geminiApiKey x;
     elevenLabsApiKey := elevenLabsApiKey x; contextFiles := contextFiles x;
     workspace := workspace x; recorders := recorders x; players := players x;
     nextPid := nextPid x; sends := sends x; effects := effects x |}.

Definition set_geminiApiKey (v : string) (x : Provider) : Provider :=
  {| captureProcess := captureProcess x; playerProcess := playerProcess x;
     geminiClient := geminiClient x; clients := clients x; geminiApiKey := v;
     elevenLabsApiKey := elevenLabsApiKey x; contextFiles := contextFiles x;
     workspace := workspace x; recorders := recorders x; players := players x;
     nextPid := nextPid x; sends := sends x; effects := effects x |}.

Definition set_elevenLabsApiKey (v : string) (x : Provider) : Provider :=
  {| captureProcess := captureProcess x; playerProcess := playerProcess x;
     geminiClient := geminiClient x; clients := clients x; geminiApiKey := geminiApiKey x;
     elevenLabsApiKey := v; contextFiles := contextFiles x; workspace := workspace x;
     recorders := recorders x; players := players x; nextPid := nextPid x; sends := sends x;
     effects := effects x |}.

Definition set_contextFiles (v : list string) (x : Provider) : Provider :=
  {| captureProcess := captureProcess x; playerProcess := playerProcess x;
     geminiClient := geminiClient x; clients := clients x; geminiApiKey := geminiApiKey x;
     elevenLabsApiKey := elevenLabsApiKey x; contextFiles := v; workspace := workspace x;
     recorders := recorders x; players := players x; nextPid := nextPid x; sends := sends x;
     effects := effects x |}.

Definition set_workspace (v : Workspace) (x : Provider) : Provider :=
  {| captureProcess := captureProcess x; playerProcess := playerProcess x;
     geminiClient := geminiClient x; clients := clients x; geminiApiKey := geminiApiKey x;
     elevenLabsApiKey := elevenLabsApiKey x; contextFiles := contextFiles x; workspace := v;
     recorders := recorders x; players := players x; nextPid := nextPid x; sends := sends x;
     effects := effects x |}.

Definition set_recorders (v : gset nat) (x : Provider) : Provider :=
  {| captureProcess := captureProcess x; playerProcess := playerProcess x;
     geminiClient := geminiClient x; clients := clients x; geminiApiKey := geminiApiKey x;
     elevenLabsApiKey := elevenLabsApiKey x; contextFiles := contextFiles x;
     workspace := workspace x; recorders := v; players := players x; nextPid := nextPid x;
     sends := sends x; effects := effects x |}.

Definition set_players (v : gset nat) (x : Provider) : Provider :=
  {| captureProcess := captureProcess x; playerProcess := playerProcess x;
     geminiClient := geminiClient x; clients := clients x; geminiApiKey := geminiApiKey x;
     elevenLabsApiKey := elevenLabsApiKey x; contextFiles := contextFiles x;
     workspace := workspace x; recorders := recorders x; players := v; nextPid := nextPid x;
     sends := sends x; effects := effects x |}.

Definition set_nextPid (v : nat) (x : Provider) : Provider :=
  {| captureProcess := captureProcess x; playerProcess := playerProcess x;
     geminiClient := geminiClient x; clients := clients x; geminiApiKey := geminiApiKey x;
     elevenLabsApiKey := elevenLabsApiKey x; contextFiles := contextFiles x;
     workspace := workspace x; recorders := recorders x; players := players x; nextPid := v;
     sends := sends x; effects := effects x |}.

Definition set_sends (v : list SendState) (x : Provider) : Provider :=
  {| captureProcess := captureProcess x; playerProcess := playerProcess x;
     geminiClient := geminiClient x; clients := clients x; geminiApiKey := geminiApiKey x;
     elevenLabsApiKey := elevenLabsApiKey x; contextFiles := contextFiles x;
     workspace := workspace x; recorders := recorders x; players := players x;
     nextPid := nextPid x; sends := v; effects := effects x |}.

Definition set_effects (v : list Effect) (x : Provider) : Provider :=
  {| captureProcess := captureProcess x; playerProcess := playerProcess x;
     geminiClient := geminiClient x; clients := clients x; geminiApiKey := geminiApiKey x;
     elevenLabsApiKey := elevenLabsApiKey x; contextFiles := contextFiles x;
     workspace := workspace x; recorders := recorders x; players := players x;
     nextPid := nextPid x; sends := sends x; effects := v |}.

Definition create (geminiKey elevenLabsKey : string) (w : Workspace) : Provider :=
  {| captureProcess := None; playerProcess := None; geminiClient := None; clients := [];
     geminiApiKey := geminiKey; elevenLabsApiKey := elevenLabsKey; contextFiles := [];
     workspace := w; recorders := ∅; players := ∅; nextPid := 0; sends := [];
     effects := [] |}.

Definition emit (e : Effect) (p : Provider) : Provider :=
  set_effects (effects p ++ [e]) p.

(** [this.webviewView?.webview.postMessage(m)], the view being resolved. *)
Definition postMessage (m : Msg.ToWebview) (p : Provider) : Provider :=
  emit (PostMessage m) p.

(** [this.geminiClient && this.geminiClient.isConnected()] *)
Definition connected (p : Provider) : bool :=
  match geminiClient p ≫= (fun i => clients p !! i) with
  | Some c => G.isConnected c
  | None => false
  end.

(** *** AudioCapture and AudioPlayer *)

(** [audioCapture.startRecording(onData)]: a recorder is spawned and the
    field is overwritten with its handle. *)
Definition startRecordingProcess (p : Provider) : Provider :=
  let pid := nextPid p in
  p |> set_nextPid (S pid)
    |> set_recorders ({[pid]} ∪ recorders p)
    |> set_captureProcess (Some pid)
    |> emit (SpawnRecorder pid).

(** [audioCapture.stopRecording()]: kills the process the field holds;
    the field keeps the handle. *)
Definition stopRecordingProcess (p : Provider) : Provider :=
  match captureProcess p with
  | Some pid => p |> set_recorders (recorders p ∖ {[pid]}) |> emit (Kill pid)
  | None => p
  end.

(** [audioPlayer.play(audioBuffer)] up to the point where it waits. *)
Definition play (audio : G.Buffer) (p : Provider) : Provider :=
  let pid := nextPid p in
  p |> set_nextPid (S pid)
    |> set_players ({[pid]} ∪ players p)
    |> set_playerProcess (Some pid)
    |> emit (SpawnPlayer pid audio).

(** [audioPlayer.stop()] *)
Definition stopPlayer (p : Provider) : Provider :=
  match playerProcess p with
  | Some pid =>
      p |> set_players (players p ∖ {[pid]}) |> emit (Kill pid) |> set_playerProcess None
  | None => p
  end.

(** *** The callbacks handed to a client, and calls into a client *)

Definition startAudioCapture (p : Provider) : Provider :=
  p |> startRecordingProcess |> postMessage Msg.recordingStarted.

(** One thing client [i] did: a frame or a close on its socket, or a call
    of one of the callbacks it was constructed with. *)
Definition absorb (i : nat) (p : Provider) (e : G.Effect) : Provider :=
  match e with
  | G.Send f => emit (SocketSend i f) p
  | G.Close => emit (SocketClose i) p
  | G.OnTranscription text isFinal => postMessage (Msg.transcriptionUpdate text isFinal) p
  | G.OnModelResponse _ _ => p
  | G.OnError err =>
      p |> postMessage (Msg.error err) |> emit (ShowErrorMessage ("soundCode: " +:+ err))
  | G.OnConnected => startAudioCapture p
  | G.OnDisconnected => p
  end.

(** Running a method or listener of client object [i]. *)
Definition onClient (i : nat) (f : G.Client -> G.Client * list G.Effect) (p : Provider)
    : Provider :=
  match clients p !! i with
  | Some c =>
      let '(c', out) := f c in
      foldl (absorb i) (set_clients (<[i := c']> (clients p)) p) out
  | None => p
  end.

Definition quietly (f : G.Client -> G.Client) (c : G.Client) : G.Client * list G.Effect :=
  (f c, []).

(** [this.geminiClient?.resetTranscription()] *)
Definition resetTranscription (p : Provider) : Provider :=
  match geminiClient p with
  | Some i => onClient i (quietly G.resetTranscription) p
  | None => p
  end.

(** *** The message handlers *)

Definition handleInterrupt (p : Provider) : Provider :=
  let p1 := stopPlayer p in
  match geminiClient p1 with
  | Some i =>
      if connected p1 then
        p1 |> onClient i (quietly G.resetTranscription)
           |> onClient i G.interrupt
           |> postMessage Msg.interrupted
           |> startAudioCapture
      else p1
  | None => p1
  end.

Definition handleHardStop (p : Provider) : Provider :=
  let p1 := p |> stopRecordingProcess |> stopPlayer in
  let p2 :=
    match geminiClient p1 with
    | Some i => p1 |> onClient i G.disconnect |> set_geminiClient None
    | None => p1
    end in
  postMessage Msg.hardStopped p2.

Definition buildContext (p : Provider) : string :=
  WorkspaceService.buildContextForPrompt (workspace p) (contextFiles p)
    WorkspaceService.defaultMaxChars.

Definition updateWorkspaceContext (p : Provider) : Provider :=
  match geminiClient p with
  | Some i =>
      if connected p then onClient i (G.sendContextUpdate true (buildContext p)) p else p
  | None => p
  end.

Definition handleFileSearch (query : string) (p : Provider) : Provider :=
  if negb (truthy (trim query)) then p
  else
    let files :=
      WorkspaceService.findFiles (workspace p) ("**/*" +:+ query +:+ "*") 20 in
    postMessage (Msg.fileSearchResults (WorkspaceService.relativePath <$> files)) p.

Definition startRecording (p : Provider) : Provider :=
  if negb (connected p) then
    let i := length (clients p) in
    let workspaceContext := buildContext p in
    p |> set_clients (clients p ++ [G.create (geminiApiKey p)])
      |> set_geminiClient (Some i)
      |> onClient i (quietly (G.setWorkspaceContext workspaceContext))
      |> onClient i G.connect
  else startAudioCapture p.

Definition stopRecording (p : Provider) : Provider :=
  p |> stopRecordingProcess |> postMessage Msg.recordingStopped.

(** *** handleSendToModel, cut at its awaits *)

Definition setSend (j : nat) (s : SendState) (p : Provider) : Provider :=
  set_sends (<[j := s]> (sends p)) p.

(** Entry, up to the 100 ms pause.  The call is number [length (sends p)]. *)
Definition handleSendToModel (p : Provider) : Provider :=
  if negb (connected p) then
    p |> postMessage Msg.audioComplete |> (fun p => set_sends (sends p ++ [Finished]) p)
  else
    p |> stopRecordingProcess |> (fun p => set_sends (sends p ++ [Sleeping]) p).

(** After the pause, up to [await requestModelResponse()].  With
    [geminiClient] null by then, [getTranscription] throws outside the
    [try] and the call ends there. *)
Definition afterSleep (j : nat) (sent1 sent2 : bool) (p : Provider) : Provider :=
  match sends p !! j with
  | Some Sleeping =>
      match geminiClient p with
      | Some i =>
          match clients p !! i with
          | Some c =>
              let k := length (G.requests c) in
              p |> postMessage Msg.thinking
                |> onClient i (G.requestModelResponse sent1 sent2)
                |> setSend j (AwaitingResponse i k)
          | None => p
          end
      | None => setSend j Finished p
      end
  | _ => p
  end.

(** The end of the [try] block. *)
Definition complete (j : nat) (p : Provider) : Provider :=
  p |> resetTranscription |> postMessage Msg.audioComplete |> setSend j Finished.

(** The [catch] block; [err] is the thrown value as the template prints it. *)
Definition fail (j : nat) (err : string) (p : Provider) : Provider :=
  p |> resetTranscription
    |> postMessage (Msg.error ("Failed to get response: " +:+ err))
    |> setSend j Finished.

(** From the response text to [await textToSpeech(...)] or to the end. *)
Definition afterResponse (j : nat) (responseText : string) (p : Provider) : Provider :=
  if negb (truthy responseText) then setSend j Finished p
  else
    let p1 := postMessage (Msg.modelResponse responseText) p in
    if truthy (elevenLabsApiKey p1)
    then p1 |> emit (TextToSpeech responseText) |> setSend j AwaitingSpeech
    else complete j p1.

(** A call waiting for a promise goes on once the promise is settled. *)
Definition resume (p : Provider) (j : nat) : Provider :=
  match sends p !! j with
  | Some (AwaitingResponse i k) =>
      match clients p !! i ≫= G.promiseOf k with
      | Some (G.Resolved text) => afterResponse j text p
      | Some (G.Rejected reason) => fail j ("Error: " +:+ reason) p
      | _ => p
      end
  | _ => p
  end.

Definition resumeAll (p : Provider) : Provider :=
  foldl resume p (seq 0 (length (sends p))).

(** [textToSpeech] has returned [audio] to call [j]. *)
Definition afterSpeech (j : nat) (audio : option G.Buffer) (p : Provider) : Provider :=
  match sends p !! j with
  | Some AwaitingSpeech =>
      match audio with
      | Some audioBuffer =>
          let pid := nextPid p in
          p |> play audioBuffer |> setSend j (AwaitingPlayback pid)
      | None => complete j p
      end
  | _ => p
  end.

(** The calls waiting for player [pid] go on with [k]. *)
Definition afterPlayback (pid : nat) (k : nat -> Provider -> Provider) (p : Provider)
    : Provider :=
  foldl (fun p j =>
           match sends p !! j with
           | Some (AwaitingPlayback q) => if bool_decide (q = pid) then k j p else p
           | _ => p
           end)
        p (seq 0 (length (sends p))).

Definition showCode (code : option Z) : string :=
  match code with
  | Some n => pretty n
  | None => "null"
  end.

(** The player's ['close'] and ['error'] listeners. *)
Definition onPlayerClose (pid : nat) (code : option Z) (p : Provider) : Provider :=
  p |> set_players (players p ∖ {[pid]})
    |> set_playerProcess None
    |> afterPlayback pid
         (fun j => if bool_decide (code = Some 0) then complete j
                   else fail j ("Error: ffplay exited with code " +:+ showCode code)).

Definition onPlayerError (pid : nat) (err : string) (p : Provider) : Provider :=
  p |> set_playerProcess None |> afterPlayback pid (fun j => fail j err).

(** The recorder's stdout listener, for a recorder that is alive. *)
Definition onRecorderData (pid : nat) (chunk : G.Buffer) (p : Provider) : Provider :=
  if bool_decide (pid ∈ recorders p) then
    let p1 := postMessage (Msg.audioData chunk) p in
    match geminiClient p1 with
    | Some i => onClient i (G.sendAudio chunk) p1
    | None => p1
    end
  else p.

(** [onDidReceiveMessage] *)
Definition onDidReceiveMessage (m : Msg.FromWebview) (p : Provider) : Provider :=
  match m with
  | Msg.startDictation => startRecording p
  | Msg.stopDictation => stopRecording p
  | Msg.sendToModel _ => handleSendToModel p
  | Msg.addContextFile file =>
      if truthy file && negb (bool_decide (file ∈ contextFiles p))
      then p |> set_contextFiles (contextFiles p ++ [file]) |> updateWorkspaceContext
      else p
  | Msg.removeContextFile file =>
      p |> set_contextFiles (filter (fun f => f ≠ file) (contextFiles p))
        |> updateWorkspaceContext
  | Msg.searchFiles query => handleFileSearch query p
  | Msg.interrupt => handleInterrupt p
  | Msg.hardStop => handleHardStop p
  end.

(** Everything that can wake the extension host up. *)
Inductive Event :=
| Receive (m : Msg.FromWebview)
| Client (i : nat) (e : G.Event)         (* a socket event or request timer of client [i] *)
| Woke (j : nat) (sent1 sent2 : bool)    (* the pause of call [j] is over *)
| Spoken (j : nat) (audio : option G.Buffer)
| PlayerClose (pid : nat) (code : option Z)
| PlayerError (pid : nat) (err : string)
| RecorderData (pid : nat) (chunk : G.Buffer)
| WorkspaceChange (w : Workspace).

(** The client events that come from outside: its socket and its timers. *)
Definition external (e : G.Event) : bool :=
  match e with
  | G.WsOpen | G.WsMessage _ | G.WsError _ | G.WsClosing | G.WsClose | G.Timeout _ => true
  | _ => false
  end.

(** One turn of the event loop: the listener runs, then the calls whose
    promise it settled go on. *)
Definition step (p : Provider) (e : Event) : Provider :=
  resumeAll
    match e with
    | Receive m => onDidReceiveMessage m p
    | Client i e => if external e then onClient i (G.step e) p else p
    | Woke j sent1 sent2 => afterSleep j sent1 sent2 p
    | Spoken j audio => afterSpeech j audio p
    | PlayerClose pid code => onPlayerClose pid code p
    | PlayerError pid err => onPlayerError pid err p
    | RecorderData pid chunk => onRecorderData pid chunk p
    | WorkspaceChange w => set_workspace w p
    end.

Definition run (es : list Event) (p : Provider) : Provider := foldl step p es.

(** The messages posted to the webview, in order. *)
Definition postedOf (es : list Effect) : list Msg.ToWebview :=
  omap (fun e => match e with PostMessage m => Some m | _ => None end) es.

(** Calls that start speaking: a synthesis request or a player. *)
Definition isSpeech (e : Effect) : bool :=
  match e with
  | TextToSpeech _ | SpawnPlayer _ _ => true
  | _ => false
  end.

End SoundCodeViewProvider.

(** ** The webview and the extension host together *)

Module System.
Module W := Webview.
Module P := SoundCodeViewProvider.
Module G := GeminiLiveClient.

(** Both sides, and how far each has read the other's messages.  A
    message is delivered within the turn that posted it, at the same
    clock reading. *)
Record System := {
  webview : W.Webview;
  provider : P.Provider;
  taken : nat;    (* messages of the webview the provider has received *)
  shown : nat     (* messages of the provider the webview has received *)
}.

Definition create (geminiKey elevenLabsKey : string) (w : P.Workspace) : System :=
  {| webview := W.initial; provider := P.create geminiKey elevenLabsKey w;
     taken := 0; shown := 0 |}.

Definition toHost (s : System) : System :=
  let ms := drop (taken s) (W.posted (webview s)) in
  {| webview := webview s;
     provider := foldl (fun p m => P.step p (P.Receive m)) (provider s) ms;
     taken := length (W.posted (webview s));
     shown := shown s |}.

Definition toWebview (now : Z) (s : System) : System :=
  let all := P.postedOf (P.effects (provider s)) in
  {| webview := foldl (fun w m => W.receive m now w) (webview s) (drop (shown s) all);
     provider := provider s;
     taken := taken s;
     shown := length all |}.

Definition deliver (now : Z) (s : System) : System := toWebview now (toHost s).

Inductive Event :=
| StartClick
| SendClick
| InterruptClick
| StopClick
| TimerFired (n : nat)       (* the [n]-th pending timer of the webview *)
| Host (e : P.Event).

Definition onWebview (f : W.Webview -> W.Webview) (s : System) : System :=
  {| webview := f (webview s); provider := provider s; taken := taken s; shown := shown s |}.

Definition onProvider (f : P.Provider -> P.Provider) (s : System) : System :=
  {| webview := webview s; provider := f (provider s); taken := taken s; shown := shown s |}.

(** An event at clock reading [now]. *)
Definition step (s : System) (te : Z * Event) : System :=
  let '(now, e) := te in
  deliver now
    match e with
    | StartClick => onWebview W.startClick s
    | SendClick => onWebview (W.sendClick now) s
    | InterruptClick => onWebview W.interruptClick s
    | StopClick => onWebview W.stopClick s
    | TimerFired n => onWebview (W.fireTimer n now) s
    | Host e => onProvider (fun p => P.step p e) s
    end.

Definition run (es : list (Z * Event)) (s : System) : System := foldl step s es.



(** The requests of all clients whose promise is still pending. *)
Definition isPending (r : G.Request) : bool :=
  match G.promise r with
  | G.Pending => true
  | _ => false
  end.

Definition pendingRequests (s : System) : nat :=
  length (filter (fun r => isPending r = true)
                 (concat (G.requests <$> P.clients (provider s)))).

End System.


(** ** Properties stated below, and the concrete runs they are tried on *)

Module Properties.
Import JS.
Module G := GeminiLiveClient.
Module W := Webview.
Module P := SoundCodeViewProvider.
Module S := System.

(** *** Session client *)

(** An event that neither delivers a final model response nor is the timer
    of request [k]. *)
Definition quiet (k : nat) (e : G.Event) : bool :=
  match e with
  | G.WsMessage response => negb (G.isTurnComplete response)
  | G.Timeout j => negb (bool_decide (j = k))
  | _ => true
  end.

(** Request [k] is still waiting: timer set, not resolved, promise pending. *)
Definition waiting (k : nat) (c : G.Client) : Prop :=
  exists r, G.requests c !! k = Some r /\
            G.promise r = G.Pending /\ G.resolved r = false /\ G.timerSet r = true.

(** The two frames of a turn completion carry the accumulated transcription. *)
Definition submitsTranscription (c : G.Client) : Prop :=
  (G.requestModelResponse true true c).2 =
    [G.Send (G.RealtimeInput []);
     G.Send (G.ClientContent "user" (G.currentTranscription c) true)].

(** After the call the promise is settled and the callback slot holds what
    it held before the call. *)
Definition settledAndRestored (before after : G.Client) (k : nat) : Prop :=
  (exists v, G.promiseOf k after = Some v /\ v <> G.Pending) /\
  G.onModelResponse after = G.onModelResponse before.

(** *** Webview *)



(** *** Provider *)

(** The silent chunk [interrupt()] writes. *)
Definition silentChunk : G.Frame :=
  G.RealtimeInput
    [ {| G.mimeType := "audio/pcm;rate=24000"; G.data := repeat Byte.x00 480 |} ].




(** What a handler added to the effect log. *)
Definition added (p p' : P.Provider) : list P.Effect :=
  drop (length (P.effects p)) (P.effects p').

(** The handler surfaced an error to the webview. *)
Definition errorSurfaced (p p' : P.Provider) : Prop :=
  exists text, P.PostMessage (Msg.error text) ∈ added p p'.

(** The terminal messages among those posted so far. *)
Definition terminalMessages (p : P.Provider) : list Msg.ToWebview :=
  filter (fun m => Msg.isTerminal m = true) (P.postedOf (P.effects p)).

(** *** Both sides *)



End Properties.

Module Scenarios.
Import JS.
Module G := GeminiLiveClient.
Module W := Webview.
Module P := SoundCodeViewProvider.
Module S := System.

(** *** Workspace: a large active file under a long path *)

Definition deepFile : WorkspaceService.FileInfo :=
  {| WorkspaceService.path := "/w/" +:+ replicate "d" 150;
     WorkspaceService.relativePath := replicate "d" 150;
     WorkspaceService.name := "d";
     WorkspaceService.content := Some (replicate "x" 50000);
     WorkspaceService.language := Some "typescript" |}.

Definition deepWorkspace : WorkspaceService.Workspace :=
  {| WorkspaceService.getContext :=
       Some {| WorkspaceService.workspaceName := "w";
               WorkspaceService.workspacePath := "/w";
               WorkspaceService.openFiles := [];
               WorkspaceService.activeFile := Some deepFile;
               WorkspaceService.selectedText := None;
               WorkspaceService.recentFiles := [] |};
     WorkspaceService.readFile := fun _ => None;
     WorkspaceService.findFiles := fun _ _ => [] |}.

Definition emptyWorkspace : WorkspaceService.Workspace :=
  {| WorkspaceService.getContext := None;
     WorkspaceService.readFile := fun _ => None;
     WorkspaceService.findFiles := fun _ _ => [] |}.

(** *** Server messages *)

Definition serverMessage (sc : G.ServerContent) : G.Response :=
  {| G.error := None; G.setupComplete := false; G.serverContent := Some sc |}.

Definition setupDone : G.Response :=
  {| G.error := None; G.setupComplete := true; G.serverContent := None |}.

(** The server transcribed [text]. *)
Definition heard (text : string) : G.Response :=
  serverMessage {| G.inputTranscription := Some (G.TranscriptionObject (Some text));
                   G.modelTurnParts := None; G.turnComplete := false;
                   G.interrupted := false |}.

(** The model answered with these parts. *)
Definition said (texts : list string) : G.Response :=
  serverMessage {| G.inputTranscription := None; G.modelTurnParts := Some (Some <$> texts);
                   G.turnComplete := false; G.interrupted := false |}.

Definition turnDone : G.Response :=
  serverMessage {| G.inputTranscription := None; G.modelTurnParts := None;
                   G.turnComplete := true; G.interrupted := false |}.

(** *** Session client *)

(** A session that has just been set up: nothing heard, nothing said. *)
Definition freshSession : G.Client :=
  (G.run [G.Connect; G.WsOpen; G.WsMessage setupDone] (G.create "key")).1.

Definition listeningSession (text : string) : G.Client :=
  (G.step (G.WsMessage (heard text)) freshSession).1.

(** A second request is made while the first is still waiting, then the
    turn completes. *)
Definition overlappingRequests : list G.Event :=
  [G.RequestModelResponse true true; G.Interrupt; G.WsMessage (heard "Wait");
   G.RequestModelResponse true true; G.WsMessage (said ["Sure."]); G.WsMessage turnDone].

(** *** Webview *)

(** Dictation is on, the last fragment came at 1000 ms. *)
Definition dictating : W.Webview :=
  W.initial |> W.receive Msg.recordingStarted 0
            |> W.receive (Msg.transcriptionUpdate "Explain recursion" false) 1000.


(** *** Provider *)

Definition idle : P.Provider := P.create "key" "" emptyWorkspace.

Definition handshake (i : nat) : list P.Event :=
  [P.Client i G.WsOpen; P.Client i (G.WsMessage setupDone)].

(** Start is asked for twice before the first session is connected. *)
Definition startedTwice : list P.Event :=
  [P.Receive Msg.startDictation; P.Receive Msg.startDictation] ++ handshake 0 ++ handshake 1.


(** A turn is under way and nothing has come back after 30 s; the timer of
    the request has run but the waiting call has not gone on yet. *)
Definition timedOut : P.Provider :=
  P.run ([P.Receive Msg.startDictation] ++ handshake 0 ++
         [P.Client 0 (G.WsMessage (heard "Explain recursion"));
          P.Receive (Msg.sendToModel "Explain recursion"); P.Woke 0 true true]) idle
    |> P.onClient 0 (G.step (G.Timeout 0)).

(** *** Both sides *)

Definition atRest : S.System := S.create "key" "" emptyWorkspace.

Definition dictation : list (Z * S.Event) :=
  [(0, S.StartClick);
   (10, S.Host (P.Client 0 G.WsOpen));
   (20, S.Host (P.Client 0 (G.WsMessage setupDone)));
   (1000, S.Host (P.Client 0 (G.WsMessage (heard "Explain recursion"))))].

(** The turn completes without the model having said anything. *)
Definition emptyAnswer : list (Z * S.Event) :=
  dictation ++
  [(2000, S.SendClick);
   (2100, S.Host (P.Woke 0 true true));
   (2600, S.Host (P.Client 0 (G.WsMessage turnDone)))].

(** The user interrupts while the model is thinking and dictates again. *)
Definition interruptedTurn : list (Z * S.Event) :=
  dictation ++
  [(2000, S.SendClick);
   (2100, S.Host (P.Woke 0 true true));
   (3000, S.InterruptClick);
   (4000, S.Host (P.Client 0 (G.WsMessage (heard "Wait"))))].

End Scenarios.


(** ** GoogleSpeechClient *)

Module GoogleSpeechClient.
Import JS.

(** The streaming response, with the fields [handleResponse] reads. *)
Record Alternative := { transcript : option string }.

Record Result := {
  alternatives : option (list Alternative);
  isFinal : option bool
}.

Record Response := { results : option (list Result) }.

Inductive Effect :=
| OnTranscription (text : string) (isFinal : bool)
| OnError (error : string)
| Write (audioData : GeminiLiveClient.Buffer)   (* [recognizeStream.write] *)
| EndStream                                     (* [recognizeStream.end()] *)
| CloseClient.                                  (* [client.close()] *)

Record Client := {
  client : bool;                     (* [this.client] is not null *)
  recognizeStream : option bool;     (* the stream, and whether it is destroyed *)
  currentTranscription : string
}.

Definition set_currentTranscription (v : string) (c : Client) : Client :=
  {| client := client c; recognizeStream := recognizeStream c; currentTranscription := v |}.

Definition set_recognizeStream (v : option bool) (c : Client) : Client :=
  {| client := client c; recognizeStream := v;
     currentTranscription := currentTranscription c |}.

Definition set_client (v : bool) (c : Client) : Client :=
  {| client := v; recognizeStream := recognizeStream c;
     currentTranscription := currentTranscription c |}.

Definition create : Client :=
  {| client := false; recognizeStream := None; currentTranscription := "" |}.

(** [start()]; [created] says whether constructing the client and opening
    the stream went through ([err] is the message of what was thrown
    otherwise).  The result is the boolean the method returns. *)
Definition start (created : bool) (err : string) (c : Client) : Client * list Effect * bool :=
  if created
  then (c |> set_client true |> set_recognizeStream (Some false), [], true)
  else (c, [OnError ("Failed to start speech: " +:+ err)], false).

Definition handleResponse (data : Response) (c : Client) : Client * list Effect :=
  match results data with
  | Some (result :: _) =>
      match alternatives result with
      | Some (alternative :: _) =>
          let transcript := or_else (transcript alternative) "" in
          if default false (isFinal result) then
            let c1 := set_currentTranscription
                        (currentTranscription c +:+ (transcript +:+ " ")) c in
            (c1, [OnTranscription (trim (currentTranscription c1)) false])
          else
            let interimText := currentTranscription c +:+ transcript in
            (c, [OnTranscription (trim interimText) false])
      | _ => (c, [])
      end
  | _ => (c, [])
  end.

Definition sendAudio (audioData : GeminiLiveClient.Buffer) (c : Client)
    : Client * list Effect :=
  match recognizeStream c with
  | Some false => (c, [Write audioData])
  | _ => (c, [])
  end.

Definition stop (c : Client) : Client * list Effect :=
  match recognizeStream c with
  | Some _ => (set_recognizeStream None c, [EndStream])
  | None => (c, [])
  end.

Definition getTranscription (c : Client) : string := trim (currentTranscription c).

Definition resetTranscription (c : Client) : Client := set_currentTranscription "" c.

Definition destroy (c : Client) : Client * list Effect :=
  let '(c1, out) := stop c in
  if client c1 then (set_client false c1, out ++ [CloseClient]) else (c1, out).

(** The stream's ['data'] listener over a sequence of responses. *)
Fixpoint receive (rs : list Response) (c : Client) : Client * list Effect :=
  match rs with
  | [] => (c, [])
  | data :: rest =>
      let '(c1, out1) := handleResponse data c in
      let '(c2, out2) := receive rest c1 in
      (c2, out1 ++ out2)
  end.

End GoogleSpeechClient.

(** ** ElevenLabsClient *)

Module ElevenLabsClient.
Import JS.

Definition Buffer : Type := GeminiLiveClient.Buffer.

(** What the HTTP call comes to: [fetch] throws; the response is not ok; or
    it is ok and reading its body yields a buffer or throws. *)
Inductive Fetch :=
| FetchThrew
| NotOk
| Ok (body : option Buffer).

Inductive Effect :=
| Request (text : string).     (* the POST to the text-to-speech endpoint *)

(** [textToSpeech(text)] *)
Definition textToSpeech (apiKey : string) (text : string) (outcome : Fetch)
    : option Buffer * list Effect :=
  if negb (truthy apiKey) then (None, [])
  else
    match outcome with
    | FetchThrew => (None, [Request text])
    | NotOk => (None, [Request text])
    | Ok body => (body, [Request text])
    end.

Definition isConfigured (apiKey : string) : bool := truthy apiKey.

(** The result of [testConnection()]: success, or failure with a message. *)
Inductive TestResult :=
| Success
| Failure (error : string).

(** [testConnection()] *)
Definition testConnection (apiKey : string) (outcome : Fetch) : TestResult * list Effect :=
  if negb (truthy apiKey) then (Failure "API key not configured", [])
  else
    let '(buffer, out) := textToSpeech apiKey "Test" outcome in
    match buffer with
    | Some b =>
        if 0 <? Z.of_nat (length b) then (Success, out)
        else (Failure "No audio buffer returned", out)
    | None => (Failure "No audio buffer returned", out)
    end.

End ElevenLabsClient.

(** ** The webview's event loop *)

Module WebviewLoop.
Module W := Webview.

(** What the page reacts to: clicks on its four buttons, a timer that
    fires, a message from the extension host. *)
Inductive Event :=
| SendClick
| StartClick
| InterruptClick
| StopClick
| Fire (n : nat)
| Receive (m : Msg.ToWebview).

(** An event at clock reading [now]. *)
Definition step (w : W.Webview) (te : Z * Event) : W.Webview :=
  let '(now, e) := te in
  match e with
  | SendClick => W.sendClick now w
  | StartClick => W.startClick w
  | InterruptClick => W.interruptClick w
  | StopClick => W.stopClick w
  | Fire n => W.fireTimer n now w
  | Receive m => W.receive m now w
  end.

Definition run (es : list (Z * Event)) (w : W.Webview) : W.Webview := foldl step w es.

(** The messages whose handler clears [isSending]. *)
Definition releasesLock (m : Msg.ToWebview) : bool :=
  match m with
  | Msg.audioComplete | Msg.error _ | Msg.interrupted | Msg.hardStopped => true
  | _ => false
  end.

Definition keepsLock (te : Z * Event) : bool :=
  match te.2 with
  | Receive m => negb (releasesLock m)
  | _ => true
  end.

End WebviewLoop.

(** ** Invariants stated below *)

Module Invariants.
Import JS.
Module G := GeminiLiveClient.
Module W := Webview.
Module P := SoundCodeViewProvider.

(** A request whose promise is pending has its timer set and is not marked
    resolved. *)
Definition timed (r : G.Request) : Prop :=
  G.promise r = G.Pending -> G.timerSet r = true /\ G.resolved r = false.

(** A send message that carries text: not empty, and already trimmed. *)
Definition wellFormedSend (m : Msg.FromWebview) : Prop :=
  match m with
  | Msg.sendToModel text => truthy text = true /\ trim text = text
  | _ => True
  end.

(** An answer that is shown or handed to synthesis is not empty. *)
Definition answerNotEmpty (e : P.Effect) : Prop :=
  match e with
  | P.PostMessage (Msg.modelResponse text) | P.TextToSpeech text => truthy text = true
  | _ => True
  end.

(** Process ids are handed out in order: whatever is alive or held in a
    field was spawned before, and no process is both recorder and player. *)
Definition processesFresh (p : P.Provider) : Prop :=
  (forall pid, pid ∈ P.recorders p -> (pid < P.nextPid p)%nat) /\
  (forall pid, pid ∈ P.players p -> (pid < P.nextPid p)%nat) /\
  (forall pid, P.captureProcess p = Some pid -> (pid < P.nextPid p)%nat) /\
  (forall pid, P.playerProcess p = Some pid -> (pid < P.nextPid p)%nat) /\
  P.recorders p ## P.players p.

(** The attached files: no name twice, no empty name. *)
Definition contextSet (p : P.Provider) : Prop :=
  NoDup (P.contextFiles p) /\ Forall (fun f => truthy f = true) (P.contextFiles p).

(** What path and language add around an attached file's content fits the
    200 characters the truncation reserves. *)
Definition shortWrapper (f : WorkspaceService.FileInfo) : Prop :=
  strlen (WorkspaceService.relativePath f)
    + strlen (or_else (WorkspaceService.language f) "") <= 163.

(** An utterance as the speech service reports it. *)
Inductive Utterance :=
| Interim (text : string)
| Final (text : string).

Definition report (u : Utterance) : GoogleSpeechClient.Response :=
  let result text final :=
    {| GoogleSpeechClient.alternatives :=
         Some [ {| GoogleSpeechClient.transcript := Some text |} ];
       GoogleSpeechClient.isFinal := Some final |} in
  {| GoogleSpeechClient.results :=
       Some [ match u with
              | Interim text => result text false
              | Final text => result text true
              end ] |}.

(** The final texts, each followed by a space. *)
Definition spoken (us : list Utterance) : string :=
  foldr (fun u rest => match u with
                       | Final text => text +:+ " " +:+ rest
                       | Interim _ => rest
                       end) "" us.

(** Path and language (which the active file's section prints twice) fit
    the 200 characters the truncation reserves. *)
Definition shortActive (f : WorkspaceService.FileInfo) : Prop :=
  strlen (WorkspaceService.relativePath f)
    + strlen (interpolate (WorkspaceService.language f))
    + strlen (or_else (WorkspaceService.language f) "") <= 135.

(** The two accumulators of [buildContextForPrompt] add up to the budget,
    and nothing is owed. *)
Definition balanced (maxChars : Z) (acc : WorkspaceService.Acc) : Prop :=
  strlen acc.1 + acc.2 = maxChars /\ 0 <= acc.2.

(** Something written to the socket. *)
Definition isFrame (e : G.Effect) : bool :=
  match e with
  | G.Send _ => true
  | _ => false
  end.

(** The server transcribes these fragments, one message each. *)
Definition hears (texts : list string) : list G.Event :=
  (fun t => G.WsMessage (Scenarios.heard t)) <$> texts.

(** The model streams these parts, one message per list. *)
Definition says (partss : list (list string)) : list G.Event :=
  (fun parts => G.WsMessage (Scenarios.said parts)) <$> partss.

(** Empty, or starting with a character that is not white space. *)
Definition noLeadingSpace (s : string) : Prop :=
  match s with
  | EmptyString => True
  | String c _ => is_space c = false
  end.

(** A callback of the speech client that reports trimmed text and not a
    final result. *)
Definition interimCallback (e : GoogleSpeechClient.Effect) : Prop :=
  exists text, e = GoogleSpeechClient.OnTranscription text false /\ trim text = text.

(** A step of a client object: timed requests stay timed and no request
    is forgotten. *)
Definition clientStep (c c' : G.Client) : Prop :=
  (Forall timed (G.requests c) -> Forall timed (G.requests c')) /\
  (length (G.requests c) <= length (G.requests c'))%nat.

(** The call waits for a model response. *)
Definition awaiting (s : P.SendState) : Prop := exists i k, s = P.AwaitingResponse i k.

(** Every request of every client is timed, and a call that waits for a
    response waits for a request that exists. *)
Definition tracked (p : P.Provider) : Prop :=
  Forall (fun c => Forall timed (G.requests c)) (P.clients p) /\
  forall j i k, P.sends p !! j = Some (P.AwaitingResponse i k) ->
    exists c, P.clients p !! i = Some c /\ (k < length (G.requests c))%nat.

(** The call is past the wait for the model. *)
Definition movedOn (j : nat) (p : P.Provider) : Prop :=
  P.sends p !! j = Some P.Finished \/ P.sends p !! j = Some P.AwaitingSpeech.

End Invariants.

(** ** Further concrete runs *)

Module Examples.
Import JS.
Module G := GeminiLiveClient.
Module W := Webview.
Module P := SoundCodeViewProvider.

(** A workspace with short paths: a small active file, a selection, and
    attached files of 2000 characters each. *)
Definition tidyWorkspace : WorkspaceService.Workspace :=
  {| WorkspaceService.getContext :=
       Some {| WorkspaceService.workspaceName := "w";
               WorkspaceService.workspacePath := "/w";
               WorkspaceService.openFiles := [];
               WorkspaceService.activeFile :=
                 Some {| WorkspaceService.path := "/w/src/a.ts";
                         WorkspaceService.relativePath := "src/a.ts";
                         WorkspaceService.name := "a.ts";
                         WorkspaceService.content := Some (replicate "x" 100);
                         WorkspaceService.language := Some "typescript" |};
               WorkspaceService.selectedText := Some "f(x)";
               WorkspaceService.recentFiles := [] |};
     WorkspaceService.readFile := fun p =>
       Some {| WorkspaceService.path := "/w/" +:+ p;
               WorkspaceService.relativePath := p;
               WorkspaceService.name := p;
               WorkspaceService.content := Some (replicate "y" 2000);
               WorkspaceService.language := Some "markdown" |};
     WorkspaceService.findFiles := fun _ _ => [] |}.

(** A session that was connected and then disconnected. *)
Definition closedSession : G.Client := (G.disconnect Scenarios.freshSession).1.

(** A turn is under way: the call waits for the model. *)
Definition waitingForModel : list P.Event :=
  [P.Receive Msg.startDictation] ++ Scenarios.handshake 0 ++
  [P.Client 0 (G.WsMessage (Scenarios.heard "Explain recursion"));
   P.Receive (Msg.sendToModel "Explain recursion"); P.Woke 0 true true].

(** The model has answered and the turn is complete; the waiting call has
    not gone on yet. *)
Definition answered : P.Provider :=
  P.run waitingForModel Scenarios.idle
    |> P.onClient 0 (G.step (G.WsMessage (Scenarios.said ["Recursion is..."])))
    |> P.onClient 0 (G.step (G.WsMessage Scenarios.turnDone)).

(** A connected session over the tidy workspace, the recorder running. *)
Definition listening : P.Provider :=
  P.run ([P.Receive Msg.startDictation] ++ Scenarios.handshake 0)
    (P.create "key" "" tidyWorkspace).

(** The answer is being played back: the call waits for the player. *)
Definition speaking : P.Provider :=
  P.run (waitingForModel ++
         [P.Client 0 (G.WsMessage (Scenarios.said ["Recursion is..."]));
          P.Client 0 (G.WsMessage Scenarios.turnDone);
          P.Spoken 0 (Some [Byte.x01])])
    (P.create "key" "tts-key" Scenarios.emptyWorkspace).

(** Clicks on send while a turn is open, none of them followed by a
    message that ends the turn. *)
Definition impatientClicks : list (Z * WebviewLoop.Event) :=
  [(1400, WebviewLoop.SendClick); (1405, WebviewLoop.SendClick);
   (1500, WebviewLoop.Receive Msg.thinking);
   (1600, WebviewLoop.Receive (Msg.transcriptionUpdate "again" false));
   (2000, WebviewLoop.SendClick); (2001, WebviewLoop.Fire 0)].

End Examples.


(** * Facts *)

(** ** The context blob and its budget *)

Module WorkspaceFacts.
Import JS WorkspaceService Scenarios.

(** With nothing open there is nothing to say. *)
Lemma no_workspace_no_context (w : Workspace) (maxChars : Z) :
  getContext w = None -> buildContextForPrompt w [] maxChars = "".
Proof. unfold buildContextForPrompt. by intros ->. Qed.

(** Lengths of the pieces. *)
Lemma length_append a b :
  String.length (a +:+ b) = (String.length a + String.length b)%nat.
Proof. induction a as [|ch a IH]; simpl; [done|by rewrite IH]. Qed.

Lemma strlen_app a b : strlen (a +:+ b) = strlen a + strlen b.
Proof. unfold strlen. rewrite length_append. lia. Qed.

Lemma length_substring_0 n s :
  String.length (String.substring 0 n s) = Nat.min n (String.length s).
Proof.
  revert s; induction n as [|n IH]; intros [|ch s]; simpl; try done.
  by rewrite IH.
Qed.

Lemma strlen_substring0 s n : 0 <= n <= strlen s -> strlen (substring0 s n) = n.
Proof. unfold strlen, substring0. rewrite length_substring_0. lia. Qed.

Lemma strlen_truncate c remaining :
  200 <= remaining -> remaining - 200 < strlen c ->
  strlen (truncate c remaining) = remaining - 184.
Proof.
  intros H1 H2. unfold truncate. rewrite (proj2 (Z.ltb_lt _ _) H2).
  rewrite !strlen_app, strlen_substring0 by lia.
  change (strlen nl) with 1. change (strlen "... (truncated)") with 15. lia.
Qed.

Lemma strlen_activeSection f t :
  strlen (activeSection f t) =
    49 + strlen (relativePath f) + strlen (interpolate (language f))
       + strlen (or_else (language f) "") + strlen t.
Proof.
  unfold activeSection. rewrite !strlen_app.
  change (strlen nl) with 1. change (strlen "```") with 3.
  change (strlen "### Currently Active File: ") with 27.
  change (strlen "Language: ") with 10. lia.
Qed.

(** An active file too long for what is left, no selection, at least 200
    characters left after the header: the blob is the budget plus path and
    language (twice) minus 135. *)
Lemma active_file_blob_length (w : Workspace) (context : WorkspaceContext)
    (f : FileInfo) (c : string) (maxChars : Z) :
  getContext w = Some context ->
  selectedText context = None ->
  activeFile context = Some f ->
  content f = Some c ->
  200 <= maxChars - strlen (header context) ->
  maxChars - strlen (header context) - 200 < strlen c ->
  strlen (buildContextForPrompt w [] maxChars) =
    maxChars + (strlen (relativePath f) + strlen (interpolate (language f))
                + strlen (or_else (language f) "")) - 135.
Proof.
  intros Hw Hs Ha Hc H1 H2. unfold buildContextForPrompt. rewrite Hw. simpl.
  unfold addSelection, addActiveFile. rewrite Hs, Ha, Hc.
  assert (truthy c = true) as ->.
  { destruct c; [|done]. change (strlen "") with 0 in H2. exfalso. lia. }
  change ("" +:+ header context) with (header context).
  rewrite (proj2 (Z.ltb_lt 0 _)) by lia. cbn [andb fst].
  rewrite strlen_app, strlen_activeSection, strlen_truncate by lia. lia.
Qed.

(** Under the same conditions the budget is kept exactly when path and
    language (twice) take no more than 135 characters. *)
Corollary active_file_within_budget (w : Workspace) (context : WorkspaceContext)
    (f : FileInfo) (c : string) (maxChars : Z) :
  getContext w = Some context ->
  selectedText context = None ->
  activeFile context = Some f ->
  content f = Some c ->
  200 <= maxChars - strlen (header context) ->
  maxChars - strlen (header context) - 200 < strlen c ->
  strlen (buildContextForPrompt w [] maxChars) <= maxChars <->
  strlen (relativePath f) + strlen (interpolate (language f))
    + strlen (or_else (language f) "") <= 135.
Proof.
  intros Hw Hs Ha Hc H1 H2.
  rewrite (active_file_blob_length w context f c maxChars) by done. lia.
Qed.

(** C1.  The blob is meant to stay within [maxChars], and the code reserves
    200 characters for what it wraps around truncated content.  The wrapper
    of the active file is 49 characters plus the path plus the language
    twice, and the truncation mark is 16 more: with the default budget of
    50000, a 50000-character active file at a 150-character path with
    language "typescript" yields a blob of 50035 characters. *)
Theorem context_exceeds_budget :
  defaultMaxChars = 50000 /\
  strlen (buildContextForPrompt deepWorkspace [] defaultMaxChars) = 50035.
Proof. split; [reflexivity|]. vm_compute. reflexivity. Qed.

(** The same with an attached file instead of the active one: the test for
    500 remaining characters is passed, and the 200 reserved do not cover a
    164-character path. *)
Lemma attached_file_exceeds_budget :
  let w := {| getContext := None;
              readFile := fun _ =>
                Some {| path := ""; relativePath := replicate "d" 164; name := "";
                        content := Some (replicate "x" 50000); language := None |};
              findFiles := fun _ _ => [] |} in
  strlen (buildContextForPrompt w ["f"] defaultMaxChars) = 50001.
Proof. vm_compute. reflexivity. Qed.

End WorkspaceFacts.

(** ** The session client *)

Module ClientFacts.
Import JS GeminiLiveClient Properties Scenarios.

(** A streaming text runs through every installed closure and changes
    nothing. *)
Lemma call_streaming h text c : call h text false c = (c, [OnModelResponse text false]).
Proof.
  induction h as [|k h IH]; simpl; [done|].
  rewrite IH. by destruct (requests c !! k).
Qed.

Lemma handleParts_requests parts c : requests (handleParts parts c).1 = requests c.
Proof.
  revert c; induction parts as [|part rest IH]; intros c; simpl; [done|].
  destruct (truthy_opt part); [|apply IH].
  unfold callOnModelResponse. rewrite call_streaming.
  destruct (handleParts rest _) as [c3 out2] eqn:E. simpl.
  change c3 with (c3, out2).1. rewrite <- E, IH. done.
Qed.

Lemma handleResponse_requests response c :
  isTurnComplete response = false -> requests (handleResponse response c).1 = requests c.
Proof.
  unfold isTurnComplete, handleResponse. intros H.
  destruct (error response); [done|].
  destruct (setupComplete response); [done|].
  destruct (serverContent response) as [sc|]; [|done].
  unfold handleServerContent.
  destruct (transcriptionPresent (inputTranscription sc)).
  - destruct (inputTranscription sc ≫= transcriptionText) as [text|]; [|done].
    by destruct (truthy text).
  - destruct (modelTurnParts sc) as [parts|]; [apply handleParts_requests|].
    simpl in H. by rewrite H.
Qed.

Lemma waiting_requests k c c' : requests c' = requests c -> waiting k c -> waiting k c'.
Proof. unfold waiting. by intros ->. Qed.

(** A quiet event leaves a waiting request waiting. *)
Lemma step_waiting k e c : quiet k e = true -> waiting k c -> waiting k (step e c).1.
Proof.
  intros Hq Hw. destruct e; simpl in *;
    try (eapply waiting_requests; [|exact Hw]; done).
  - unfold onOpen. destruct (ws c); by eapply waiting_requests.
  - eapply waiting_requests; [|exact Hw]. apply handleResponse_requests.
    by destruct (isTurnComplete response).
  - unfold onClosing. destruct (ws c); by eapply waiting_requests.
  - unfold connect. destruct (truthy (apiKey c)); by eapply waiting_requests.
  - unfold sendAudio. destruct (isConnected c); by eapply waiting_requests.
  - unfold interrupt. destruct (isConnected c); by eapply waiting_requests.
  - destruct Hw as (r & Hr & ?). exists r. split; [|done].
    unfold requestModelResponse.
    destruct (isConnected c), sent1, sent2; simpl; by apply lookup_app_l_Some.
  - unfold sendContextUpdate.
    destruct (isConnected c), (truthy (trim context)), sent; by eapply waiting_requests.
  - unfold disconnect. destruct (ws c); by eapply waiting_requests.
  - destruct Hw as (r & Hr & ?). exists r. split; [|done].
    apply negb_true_iff, bool_decide_eq_false in Hq.
    unfold onTimeout. destruct (requests c !! k0) as [r0|] eqn:E; [|done].
    destruct (timerSet r0 && negb (resolved r0)); [|done].
    unfold update_request. rewrite E. simpl. by rewrite list_lookup_insert_ne.
Qed.

Lemma run_waiting k es c :
  Forall (fun e => quiet k e = true) es -> waiting k c -> waiting k (run es c).1.
Proof.
  intros Hq; revert c; induction Hq as [|e es He _ IH]; intros c Hw; simpl; [done|].
  destruct (step e c) as [c1 out1] eqn:E1.
  destruct (run es c1) as [c2 out2] eqn:E2. simpl.
  change c2 with (c2, out2).1. rewrite <- E2. apply IH.
  change c1 with (c1, out1).1. rewrite <- E1. by apply step_waiting.
Qed.

(** On an open socket whose two sends go through, the new request waits. *)
Lemma request_waiting c :
  isConnected c = true -> waiting (length (requests c)) (requestModelResponse true true c).1.
Proof.
  intros H. unfold requestModelResponse. rewrite H. simpl.
  eexists. split; [by apply list_lookup_middle|done].
Qed.

Lemma onTimeout_waiting k c :
  waiting k c ->
  promiseOf k (onTimeout k c) =
    Some (if truthy (currentModelResponse c) then Resolved (currentModelResponse c)
          else Rejected timeoutError).
Proof.
  intros (r & Hr & Hp & Hres & Ht). unfold onTimeout, promiseOf, update_request.
  rewrite Hr, Ht, Hres. simpl.
  rewrite list_lookup_insert_eq by (by eapply lookup_lt_Some).
  simpl. by rewrite Hp.
Qed.

(** C3.  A request made on an open socket, whose sends go through, and
    followed by any events among which no server message completes the turn:
    its promise is pending until its 30-second timer runs, and the timer
    resolves it with the accumulated response text when that is non-empty
    and rejects it with the timeout error when it is empty. *)
Theorem request_times_out (c : Client) (es : list Event) :
  isConnected c = true ->
  Forall (fun e => quiet (length (requests c)) e = true) es ->
  let k := length (requests c) in
  let c' := (run es (requestModelResponse true true c).1).1 in
  promiseOf k c' = Some Pending /\
  promiseOf k (onTimeout k c') =
    Some (if truthy (currentModelResponse c')
          then Resolved (currentModelResponse c')
          else Rejected "Model response timeout - no response received").
Proof.
  intros Hc Hq k c'.
  assert (waiting k c') as Hw by (apply run_waiting; [done|by apply request_waiting]).
  split; [|by apply onTimeout_waiting].
  destruct Hw as (r & Hr & Hp & _). unfold promiseOf. by rewrite Hr, <- Hp.
Qed.

(** Two parts of an answer arrive, a fragment of speech too, the turn never
    completes: the timer resolves with the two parts.  With nothing said it
    rejects. *)
Lemma request_times_out_witness :
  let c := listeningSession "Explain recursion" in
  let es := [WsMessage (said ["Recursion "; "is"]); WsMessage (heard " please")] in
  isConnected c = true /\
  Forall (fun e => quiet 0 e = true) es /\
  promiseOf 0 (onTimeout 0 (run es (requestModelResponse true true c).1).1)
    = Some (Resolved "Recursion is") /\
  promiseOf 0 (onTimeout 0 (requestModelResponse true true c).1)
    = Some (Rejected timeoutError).
Proof.
  intros c es.
  split; [reflexivity|]. split; [repeat constructor|]. split.
  - exact (proj2 (request_times_out c es eq_refl ltac:(repeat constructor))).
  - exact (proj2 (request_times_out c [] eq_refl ltac:(constructor))).
Defined.

(** Once a request is resolved its timer does nothing. *)
Lemma timer_after_resolution k c r :
  requests c !! k = Some r -> resolved r = true -> onTimeout k c = c.
Proof.
  intros Hr Hres. unfold onTimeout. rewrite Hr, Hres.
  by rewrite andb_false_r.
Qed.

(** A settled promise stays as it is. *)
Lemma settle_once p v : p <> Pending -> settle p v = p.
Proof. by destruct p. Qed.

(** The final text resolves a waiting request whose closure is installed
    directly over the constructed callback, and puts that callback back. *)
Lemma final_text_resolves :
  let c := (run [RequestModelResponse true true; WsMessage (said ["Sure."]);
                 WsMessage turnDone] (listeningSession "Explain recursion")).1 in
  promiseOf 0 c = Some (Resolved "Sure.") /\ onModelResponse c = Constructed /\
  onTimeout 0 c = c.
Proof. vm_compute. done. Qed.

(** C9, as stated, at a session in which nothing has been heard: the text
    submitted is not the (empty) accumulated transcription. *)
Lemma fallback_text_submitted :
  isConnected freshSession = true /\ currentTranscription freshSession = "" /\
  ~ submitsTranscription freshSession.
Proof.
  split; [reflexivity|]. split; [reflexivity|].
  unfold submitsTranscription. vm_compute. discriminate.
Qed.

(** C9, amended.  On an open socket a turn-completion request whose sends go
    through writes two frames, in this order: the end-of-audio signal (an
    empty media-chunk list), then the user turn with the turn-complete
    marker, whose text is the accumulated transcription, or the fixed
    greeting when the accumulated transcription is empty.  On a socket that
    is not open it writes nothing. *)
Theorem turn_completion_frames (c : Client) :
  (requestModelResponse true true c).2 =
    if isConnected c then
      [Send (RealtimeInput []);
       Send (ClientContent "user"
               (match currentTranscription c with
                | EmptyString => "Hello, please respond to me."
                | text => text
                end) true)]
    else [].
Proof.
  unfold requestModelResponse. destruct (isConnected c); [|done]. simpl.
  unfold endTurnMessage. simpl. by destruct (currentTranscription c).
Qed.

(** C10.  Two runs in which a promise settles and the callback slot is not
    back to what it held before the requests.  In the first, a second
    request is made while the first is waiting (send, interrupt, send) and
    the turn completes: both promises resolve, each closure puts back what
    it found, and the slot ends up holding the first request's closure.  In
    the second, the first [ws.send] of a request throws: the promise is
    rejected and the closure just installed stays in the slot, its request
    unresolved and without a timer. *)
Theorem swapped_callback_not_restored :
  let before := listeningSession "Explain recursion" in
  let overlapped := (run overlappingRequests before).1 in
  let failed := (requestModelResponse false true before).1 in
  onModelResponse before = Constructed /\
  (promiseOf 0 overlapped = Some (Resolved "Sure.") /\
   promiseOf 1 overlapped = Some (Resolved "Sure.") /\
   onModelResponse overlapped = Swapped 0 Constructed) /\
  (promiseOf 0 failed = Some (Rejected "Failed to send audio end message") /\
   onModelResponse failed = Swapped 0 Constructed /\
   (resolved <$> requests failed !! 0%nat) = Some false /\
   (timerSet <$> requests failed !! 0%nat) = Some false) /\
  ~ settledAndRestored before overlapped 1 /\
  ~ settledAndRestored before failed 0.
Proof.
  vm_compute. repeat split; try reflexivity.
  - intros [_ H]. discriminate H.
  - intros [_ H]. discriminate H.
Qed.

(** The same when it is the second send that throws. *)
Lemma second_send_failure_leaves_closure :
  let before := listeningSession "Explain recursion" in
  let after := (requestModelResponse true false before).1 in
  promiseOf 0 after = Some (Rejected "Failed to send turn complete message") /\
  onModelResponse after = Swapped 0 Constructed.
Proof. vm_compute. done. Qed.

(** Two requests overlap and the first one times out: its timer takes the
    second request's closure out of the slot, so the completed turn does not
    reach the second request. *)
Lemma timeout_unhooks_later_request :
  let es := [RequestModelResponse true true; Interrupt; WsMessage (heard "Wait");
             RequestModelResponse true true; Timeout 0;
             WsMessage (said ["Sure."]); WsMessage turnDone] in
  let c := (run es (listeningSession "Explain recursion")).1 in
  onModelResponse c = Constructed /\ promiseOf 1 c = Some Pending.
Proof. vm_compute. done. Qed.

End ClientFacts.

(** ** The send button *)

Module WebviewFacts.
Import JS Webview Properties Scenarios.

Lemma sendCount_doSend w : sendCount (doSend w) = S (sendCount w).
Proof.
  unfold doSend. destruct (isRecording (set_isSending true w)); simpl;
  unfold sendCount; simpl; rewrite ?filter_app, ?length_app; simpl; lia.
Qed.

Lemma doSend_isSending w : isSending (doSend w) = true.
Proof. unfold doSend. by destruct (isRecording (set_isSending true w)). Qed.


Lemma doSend_posted w :
  posted (doSend w) =
    posted w ++ (if isRecording w then [Msg.stopDictation] else [])
             ++ [Msg.sendToModel (trim (currentTranscription w))].
Proof.
  unfold doSend. simpl. destruct (isRecording w); simpl; [|done].
  by rewrite <- app_assoc.
Qed.













(** The lock is taken by a send and by nothing else; four messages from the
    extension host release it. *)
Lemma lock_released (now : Z) (w : Webview) (text : string) :
  isSending (receive Msg.audioComplete now w) = false /\
  isSending (receive (Msg.error text) now w) = false /\
  isSending (receive Msg.interrupted now w) = false /\
  isSending (receive Msg.hardStopped now w) = false.
Proof. done. Qed.



Lemma contains_remove cls l : contains cls (remove [cls] l) = false.
Proof.
  unfold contains, remove. apply bool_decide_eq_false.
  rewrite list_elem_of_filter. intros [H _]. apply H. by apply list_elem_of_singleton.
Qed.

(** After either terminal message the start control is back and the lock is
    free. *)
Lemma startCapable_after_terminal now w text :
  startCapable (receive Msg.audioComplete now w) = true /\
  startCapable (receive (Msg.error text) now w) = true.
Proof. unfold startCapable. simpl. by rewrite !contains_remove. Qed.


End WebviewFacts.

(** ** The coordinator *)

Module ProviderFacts.
Import JS SoundCodeViewProvider Properties Scenarios.

(** *** Bookkeeping *)

Lemma stopPlayer_spec p :
  let p1 := stopPlayer p in
  playerProcess p1 = None /\
  players p1 = match playerProcess p with
               | Some pid => players p ∖ {[pid]}
               | None => players p
               end /\
  geminiClient p1 = geminiClient p /\ clients p1 = clients p /\
  captureProcess p1 = captureProcess p /\ recorders p1 = recorders p /\
  nextPid p1 = nextPid p /\ sends p1 = sends p.
Proof. unfold stopPlayer. destruct (playerProcess p) eqn:E; simpl; by rewrite ?E. Qed.


Lemma onClient_run i f p c c' out :
  clients p !! i = Some c -> f c = (c', out) ->
  onClient i f p = foldl (absorb i) (set_clients (<[i := c']> (clients p)) p) out.
Proof. unfold onClient. by intros -> ->. Qed.

Lemma absorb_sends i p e : sends (absorb i p e) = sends p.
Proof. by destruct e. Qed.

Lemma foldl_absorb_sends i out p : sends (foldl (absorb i) p out) = sends p.
Proof.
  revert p; induction out as [|e out IH]; intros p; simpl; [done|].
  by rewrite IH, absorb_sends.
Qed.

Lemma onClient_sends i f p : sends (onClient i f p) = sends p.
Proof.
  unfold onClient. destruct (clients p !! i); [|done].
  destruct (f c). by rewrite foldl_absorb_sends.
Qed.

Lemma resetTranscription_sends p : sends (resetTranscription p) = sends p.
Proof. unfold resetTranscription. destruct (geminiClient p); [apply onClient_sends|done]. Qed.

Lemma resetTranscription_effects p : effects (resetTranscription p) = effects p.
Proof.
  unfold resetTranscription. destruct (geminiClient p) as [i|]; [|done].
  unfold onClient. by destruct (clients p !! i).
Qed.

Lemma stopRecordingProcess_sends p : sends (stopRecordingProcess p) = sends p.
Proof. unfold stopRecordingProcess. by destruct (captureProcess p). Qed.

(** *** A call that is over stays over *)

Lemma complete_other j j' p : j' <> j -> sends (complete j' p) !! j = sends p !! j.
Proof.
  intros H. unfold complete. simpl.
  by rewrite list_lookup_insert_ne, resetTranscription_sends.
Qed.

Lemma fail_other j j' err p : j' <> j -> sends (fail j' err p) !! j = sends p !! j.
Proof.
  intros H. unfold fail. simpl.
  by rewrite list_lookup_insert_ne, resetTranscription_sends.
Qed.

Lemma afterResponse_other j j' text p :
  j' <> j -> sends (afterResponse j' text p) !! j = sends p !! j.
Proof.
  intros H. unfold afterResponse.
  destruct (truthy text); simpl negb; cbv iota zeta;
    [|by simpl; rewrite list_lookup_insert_ne].
  change (elevenLabsApiKey (postMessage (Msg.modelResponse text) p))
    with (elevenLabsApiKey p).
  destruct (truthy (elevenLabsApiKey p)).
  - simpl. by rewrite list_lookup_insert_ne.
  - by rewrite complete_other.
Qed.

Lemma resume_finished j p j' :
  sends p !! j = Some Finished -> sends (resume p j') !! j = Some Finished.
Proof.
  intros H. unfold resume.
  destruct (sends p !! j') as [[]|] eqn:E; try done.
  assert (j' <> j) by (intros ->; congruence).
  destruct (clients p !! client ≫= G.promiseOf k) as [[]|]; try done.
  - by rewrite afterResponse_other.
  - by rewrite fail_other.
Qed.

Lemma resumeAll_finished j p :
  sends p !! j = Some Finished -> sends (resumeAll p) !! j = Some Finished.
Proof.
  unfold resumeAll. generalize (seq 0 (length (sends p))). intros js.
  revert p; induction js as [|j' js IH]; intros p H; simpl; [done|].
  by apply IH, resume_finished.
Qed.

Lemma afterPlayback_finished j pid k p :
  (forall j' q, j' <> j -> sends (k j' q) !! j = sends q !! j) ->
  sends p !! j = Some Finished -> sends (afterPlayback pid k p) !! j = Some Finished.
Proof.
  intros Hk. unfold afterPlayback. generalize (seq 0 (length (sends p))). intros js.
  revert p; induction js as [|j' js IH]; intros p H; simpl; [done|].
  apply IH. destruct (sends p !! j') as [[]|] eqn:E; try done.
  case_bool_decide; [|done].
  rewrite Hk; [done|]. intros ->; congruence.
Qed.

(** Whatever happens next, a call of [handleSendToModel] that has come to
    its end does nothing more. *)
Lemma finished_stays (e : Event) (p : Provider) (j : nat) :
  sends p !! j = Some Finished -> sends (step p e) !! j = Some Finished.
Proof.
  intros H. unfold step. apply resumeAll_finished.
  destruct e as [m|i e|j' s1 s2|j' audio|pid code|pid err|pid chunk|w]; simpl.
  - destruct m; simpl; try done.
    + unfold startRecording. destruct (connected p); simpl; [done|].
      by rewrite !onClient_sends.
    + by rewrite stopRecordingProcess_sends.
    + unfold handleSendToModel. destruct (connected p); simpl.
      * rewrite stopRecordingProcess_sends. by apply lookup_app_l_Some.
      * by apply lookup_app_l_Some.
    + destruct (_ && _); [|done]. unfold updateWorkspaceContext. simpl.
      destruct (geminiClient p); [|done].
      destruct (connected _); [|done]. by rewrite onClient_sends.
    + unfold updateWorkspaceContext. simpl.
      destruct (geminiClient p); [|done].
      destruct (connected _); [|done]. by rewrite onClient_sends.
    + unfold handleFileSearch. by destruct (negb _).
    + unfold handleInterrupt.
      destruct (stopPlayer_spec p) as (_ & _ & Hg & _ & _ & _ & _ & Hs).
      destruct (geminiClient (stopPlayer p)); [|by rewrite Hs].
      destruct (connected (stopPlayer p)); [|by rewrite Hs].
      simpl. by rewrite !onClient_sends, Hs.
    + unfold handleHardStop.
      destruct (stopPlayer_spec (stopRecordingProcess p)) as (_ & _ & _ & _ & _ & _ & _ & Hs).
      destruct (geminiClient (stopPlayer (stopRecordingProcess p))); simpl.
      * by rewrite onClient_sends, Hs, stopRecordingProcess_sends.
      * by rewrite Hs, stopRecordingProcess_sends.
  - destruct (external e); [|done]. by rewrite onClient_sends.
  - unfold afterSleep. destruct (sends p !! j') as [[]|] eqn:E; try done.
    assert (j' <> j) by (intros ->; congruence).
    destruct (geminiClient p) as [i|]; [|by simpl; rewrite list_lookup_insert_ne].
    destruct (clients p !! i); [|done]. simpl.
    by rewrite list_lookup_insert_ne, onClient_sends.
  - unfold afterSpeech. destruct (sends p !! j') as [[]|] eqn:E; try done.
    assert (j' <> j) by (intros ->; congruence).
    destruct audio; [by simpl; rewrite list_lookup_insert_ne|by rewrite complete_other].
  - unfold onPlayerClose. apply afterPlayback_finished; [|done].
    intros j' q Hj. case_bool_decide; [by apply complete_other|by apply fail_other].
  - unfold onPlayerError. apply afterPlayback_finished; [|done].
    intros j' q Hj. by apply fail_other.
  - unfold onRecorderData. case_bool_decide; [|done]. simpl.
    destruct (geminiClient p); [by rewrite onClient_sends|done].
  - done.
Qed.

(** *** Interrupt *)




(** *** Send: the paths that do not lead to speech *)

(** C6, as stated, at a provider with no session: the send posts
    [audioComplete] and no error. *)
Lemma disconnected_send_posts_no_error :
  connected idle = false /\
  added idle (handleSendToModel idle) = [PostMessage Msg.audioComplete] /\
  ~ errorSurfaced idle (handleSendToModel idle).
Proof.
  split; [reflexivity|]. split; [reflexivity|].
  intros [text H].
  assert (added idle (handleSendToModel idle) = [PostMessage Msg.audioComplete]) as E
    by reflexivity.
  rewrite E in H. apply list_elem_of_singleton in H. discriminate H.
Qed.

(** C6, amended.  A send without a connected session posts [audioComplete],
    and nothing else, and is over.  A send whose turn-completion request is
    rejected (the socket not open when it is made, a frame that cannot be
    written, or the 30-second timer with no response text) posts [error]
    with the reason, and nothing else, and is over.  A call that is over
    makes no further move, so neither path reaches synthesis or playback;
    and after either message the webview shows the start control with the
    send lock free. *)
Theorem send_error_paths (p : Provider) :
  (connected p = false ->
     effects (handleSendToModel p) = effects p ++ [PostMessage Msg.audioComplete] /\
     sends (handleSendToModel p) !! length (sends p) = Some Finished) /\
  (forall j i k reason,
     sends p !! j = Some (AwaitingResponse i k) ->
     clients p !! i ≫= G.promiseOf k = Some (G.Rejected reason) ->
     effects (resume p j) =
       effects p ++ [PostMessage (Msg.error ("Failed to get response: Error: " +:+ reason))] /\
     sends (resume p j) !! j = Some Finished) /\
  (forall j e, sends p !! j = Some Finished -> sends (step p e) !! j = Some Finished) /\
  (forall (w : W.Webview) (now : Z) (text : string),
     W.startCapable (W.receive Msg.audioComplete now w) = true /\
     W.startCapable (W.receive (Msg.error text) now w) = true).
Proof.
  split; [|split; [|split]].
  - intros H. unfold handleSendToModel. rewrite H. simpl.
    split; [done|]. by apply list_lookup_middle.
  - intros j i k reason Hs Hp. unfold resume. rewrite Hs, Hp.
    unfold fail. simpl. rewrite resetTranscription_effects, resetTranscription_sends.
    split; [done|]. apply list_lookup_insert_eq. by eapply lookup_lt_Some.
  - intros j e. apply finished_stays.
  - intros w now text. apply WebviewFacts.startCapable_after_terminal.
Qed.

(** No session: [audioComplete].  A request that timed out with nothing
    said: [error] with the timeout reason. *)
Lemma send_error_paths_witness :
  added idle (handleSendToModel idle) = [PostMessage Msg.audioComplete] /\
  sends timedOut !! 0%nat = Some (AwaitingResponse 0 0) /\
  added timedOut (resume timedOut 0) =
    [PostMessage (Msg.error
       "Failed to get response: Error: Model response timeout - no response received")] /\
  sends (resume timedOut 0) !! 0%nat = Some Finished.
Proof.
  pose proof (proj1 (send_error_paths idle) eq_refl) as [H1 _].
  pose proof (proj1 (proj2 (send_error_paths timedOut)) 0%nat 0%nat 0%nat
                G.timeoutError ltac:(vm_compute; reflexivity) ltac:(vm_compute; reflexivity))
    as [H2 H3].
  split; [unfold added; rewrite H1; vm_compute; reflexivity|].
  split; [vm_compute; reflexivity|].
  split; [unfold added; rewrite H2; vm_compute; reflexivity|].
  exact H3.
Defined.

(** *** Hard stop *)

(** What hard stop does do, from every state: the recorder the capture
    adapter holds is killed, the player is stopped, the current session is
    closed, emptied and let go of, and [hardStopped] is posted last. *)
Lemma hardStop_discards_session (p : Provider) :
  let p' := handleHardStop p in
  geminiClient p' = None /\
  playerProcess p' = None /\
  (forall pid, captureProcess p = Some pid -> pid ∉ recorders p') /\
  (forall i c, geminiClient p = Some i -> clients p !! i = Some c ->
     exists c', clients p' !! i = Some c' /\ G.ws c' = None /\
                G.currentTranscription c' = "" /\ G.currentModelResponse c' = "") /\
  last (effects p') = Some (PostMessage Msg.hardStopped).
Proof.
  intros p'. subst p'. unfold handleHardStop.
  destruct (stopPlayer_spec (stopRecordingProcess p))
    as (Hpp & _ & Hg & Hc & _ & Hrec & _ & _).
  set (p1 := stopPlayer (stopRecordingProcess p)) in *.
  assert (geminiClient p1 = geminiClient p) as Hg'.
  { rewrite Hg. unfold stopRecordingProcess. by destruct (captureProcess p). }
  assert (clients p1 = clients p) as Hc'.
  { rewrite Hc. unfold stopRecordingProcess. by destruct (captureProcess p). }
  assert (forall pid, captureProcess p = Some pid -> pid ∉ recorders p1) as Hr.
  { intros pid E. rewrite Hrec. unfold stopRecordingProcess. rewrite E. simpl.
    rewrite elem_of_difference, elem_of_singleton. tauto. }
  clearbody p1. rewrite Hg'.
  destruct (geminiClient p) as [i|] eqn:Ei.
  - destruct (clients p !! i) as [c|] eqn:Ec.
    + rewrite <- Hc' in Ec.
      assert (exists c' out, G.disconnect c = (c', out) /\ G.ws c' = None /\
                G.currentTranscription c' = "" /\ G.currentModelResponse c' = "" /\
                (out = [] \/ out = [G.Close])) as (c' & out & Ed & ? & ? & ? & Ho).
      { unfold G.disconnect. destruct (G.ws c) eqn:E; do 2 eexists;
          (split; [reflexivity|]); simpl; repeat split; auto. }
      rewrite (onClient_run i _ p1 c c' out Ec Ed).
      assert (i < length (clients p1))%nat by by eapply lookup_lt_Some.
      destruct Ho as [-> | ->]; simpl; rewrite ?Hpp;
        (split; [done|]; split; [done|]; split; [done|]; split;
         [|by rewrite last_snoc]);
        intros i' c0 [= <-] E0; exists c'; (split; [by apply list_lookup_insert_eq|done]).
    + simpl. unfold onClient. rewrite Hc', Ec. simpl. rewrite Hpp.
      split; [done|]. split; [done|]. split; [done|]. split; [|by rewrite last_snoc].
      intros i' c0 [= <-] E0. congruence.
  - simpl. rewrite Hpp. split; [done|]. split; [done|]. split; [done|].
    split; [done|by rewrite last_snoc].
Qed.

(** When the only recorder alive is the one the capture adapter holds, hard
    stop leaves none. *)
Lemma hardStop_stops_tracked_recorder (p : Provider) :
  (forall pid, pid ∈ recorders p -> captureProcess p = Some pid) ->
  recorders (handleHardStop p) = ∅.
Proof.
  intros H. unfold handleHardStop.
  destruct (stopPlayer_spec (stopRecordingProcess p)) as (_ & _ & Hg & _ & _ & Hrec & _ & _).
  set (p1 := stopPlayer (stopRecordingProcess p)) in *.
  assert (recorders p1 = ∅) as Hr.
  { rewrite Hrec. unfold stopRecordingProcess.
    destruct (captureProcess p) as [pid|] eqn:E; simpl.
    - apply set_eq. intros x. rewrite elem_of_difference, elem_of_singleton.
      split; [|by intros ?%not_elem_of_empty].
      intros [Hx Hne]. apply H in Hx. congruence.
    - apply set_eq. intros x. split; [|by intros ?%not_elem_of_empty].
      intros Hx. apply H in Hx. congruence. }
  clearbody p1. simpl.
  destruct (geminiClient p1) as [i|]; simpl; [|done].
  unfold onClient. destruct (clients p1 !! i) as [c|]; [|done].
  destruct (G.disconnect c) as [c' out] eqn:Ed.
  assert (out = [] \/ out = [G.Close]) as [-> | ->]; [|done|done].
  unfold G.disconnect in Ed. destruct (G.ws c); inversion Ed; auto.
Qed.
Lemma foldl_absorb_clients i out p :
  clients (foldl (absorb i) p out) = clients p /\
  geminiClient (foldl (absorb i) p out) = geminiClient p.
Proof.
  revert p; induction out as [|e out IH]; intros p; simpl; [done|].
  destruct (IH (absorb i p e)) as [-> ->]. by destruct e.
Qed.

(** With no session held, start creates one: a new client object, with
    nothing heard and no request made. *)
Lemma start_creates_session (p : Provider) :
  geminiClient p = None ->
  let p' := startRecording p in
  let i := length (clients p) in
  geminiClient p' = Some i /\
  exists c, clients p' !! i = Some c /\
            G.currentTranscription c = "" /\ G.currentModelResponse c = "" /\
            G.requests c = [] /\ G.onModelResponse c = G.Constructed.
Proof.
  intros Hg p' i. subst p'. unfold startRecording, connected. rewrite Hg. simpl.
  fold i.
  set (c0 := G.create (geminiApiKey p)).
  set (p0 := set_geminiClient (Some i) (set_clients (clients p ++ [c0]) p)).
  assert (clients p0 !! i = Some c0) as E0 by by apply list_lookup_middle.
  rewrite (onClient_run i _ p0 c0 _ [] E0 eq_refl). simpl.
  set (c1 := G.setWorkspaceContext (buildContext p) c0).
  set (p1 := set_clients _ p0).
  assert (i < length (clients p ++ [c0]))%nat as Hi.
  { rewrite length_app. simpl. unfold i. lia. }
  assert (clients p1 !! i = Some c1) as E1 by by apply list_lookup_insert_eq.
  destruct (G.connect c1) as [c2 out] eqn:Ec.
  rewrite (onClient_run i _ p1 c1 c2 out E1 Ec).
  destruct (foldl_absorb_clients i out (set_clients (<[i:=c2]> (clients p1)) p1))
    as [-> ->].
  split; [done|]. exists c2. split.
  - simpl. apply list_lookup_insert_eq. by rewrite length_insert.
  - unfold G.connect in Ec. destruct (truthy (G.apiKey c1)); by inversion Ec.
Qed.

(** C8.  Start is asked for twice before the first session has connected;
    both sessions connect and each starts a recorder.  Hard stop then lets
    go of the second session and kills the second recorder: the first
    recorder (process 0) keeps running and the first session's socket stays
    open. *)
Theorem hard_stop_leaves_recorder :
  let before := run startedTwice idle in
  let after := step before (Receive Msg.hardStop) in
  elements (recorders before) = [1%nat; 0%nat] /\
  captureProcess before = Some 1%nat /\
  geminiClient after = None /\
  elements (recorders after) = [0%nat] /\
  (G.ws <$> clients after) = [Some G.OPEN; None] /\
  last (postedOf (effects after)) = Some Msg.hardStopped.
Proof. vm_compute. done. Qed.

(** One session is enough: interrupt asked for twice in a row spawns two
    recorders, and hard stop kills the later one. *)
Lemma hard_stop_leaves_recorder_one_session :
  let es := [Receive Msg.startDictation] ++ handshake 0 ++
            [Receive (Msg.sendToModel "x"); Receive Msg.interrupt; Receive Msg.interrupt;
             Receive Msg.hardStop] in
  elements (recorders (run es idle)) = [1%nat].
Proof. vm_compute. reflexivity. Qed.

End ProviderFacts.

(** ** Both sides together *)

Module SystemFacts.
Import JS System Properties Scenarios.

(** The reference run: a turn that completes with an answer, synthesis not
    configured.  The webview ends ready, with [audioComplete] received. *)
Lemma answered_turn_completes :
  let s := run (dictation ++
                [(2000, SendClick);
                 (2100, Host (P.Woke 0 true true));
                 (2500, Host (P.Client 0 (G.WsMessage (said ["Recursion is..."]))));
                 (2600, Host (P.Client 0 (G.WsMessage turnDone)))]) atRest in
  P.sends (provider s) = [P.Finished] /\
  terminalMessages (provider s) = [Msg.audioComplete] /\
  filter (fun e => P.isSpeech e = true) (P.effects (provider s)) = [] /\
  W.messageStatus (webview s) = "Ready" /\
  W.startCapable (webview s) = true.
Proof. vm_compute. done. Qed.

(** C5.  The turn completes without the model having said anything: the
    request resolves with the empty text, [handleSendToModel] returns, and
    no terminal message has been posted.  The webview is left thinking, with
    the send lock held and the start control hidden. *)
Theorem empty_answer_posts_nothing :
  let s := run emptyAnswer atRest in
  (P.clients (provider s) !! 0%nat ≫= G.promiseOf 0) = Some (G.Resolved "") /\
  P.sends (provider s) = [P.Finished] /\
  terminalMessages (provider s) = [] /\
  last (P.postedOf (P.effects (provider s))) = Some Msg.thinking /\
  W.messageStatus (webview s) = "Thinking..." /\
  W.isSending (webview s) = true /\
  W.startCapable (webview s) = false.
Proof. vm_compute. done. Qed.


(** And then two requests are waiting at once. *)
Lemma two_turns_in_flight :
  let s := run (interruptedTurn ++
                [(5000, SendClick); (5100, Host (P.Woke 1 true true))]) atRest in
  pendingRequests s = 2%nat /\
  P.sends (provider s) = [P.AwaitingResponse 0 0; P.AwaitingResponse 0 1].
Proof. vm_compute. done. Qed.

(** The socket closes between the click on send and the request: the
    request is rejected at once, [error] is posted, nothing is synthesized
    or played, and the webview is start-capable again. *)
Lemma closed_socket_send_reports_error :
  let s := run (dictation ++
                [(2000, SendClick);
                 (2050, Host (P.Client 0 G.WsClose));
                 (2100, Host (P.Woke 0 true true))]) atRest in
  P.sends (provider s) = [P.Finished] /\
  terminalMessages (provider s) =
    [Msg.error "Failed to get response: Error: WebSocket not connected"] /\
  filter (fun e => P.isSpeech e = true) (P.effects (provider s)) = [] /\
  W.messageStatus (webview s) = "Error" /\
  W.startCapable (webview s) = true.
Proof. vm_compute. done. Qed.

(** With synthesis configured: a synthesis that returns no audio ends in
    [audioComplete] without a player; a player that exits with code 1 ends
    in [error]. *)
Lemma synthesis_and_playback_failures_end_the_turn :
  let answered :=
    dictation ++
    [(2000, SendClick);
     (2100, Host (P.Woke 0 true true));
     (2500, Host (P.Client 0 (G.WsMessage (said ["Recursion is..."]))));
     (2600, Host (P.Client 0 (G.WsMessage turnDone)))] in
  let start := create "key" "tts-key" emptyWorkspace in
  let noAudio := run (answered ++ [(3000, Host (P.Spoken 0 None))]) start in
  let badExit := run (answered ++ [(3000, Host (P.Spoken 0 (Some [])));
                                   (3500, Host (P.PlayerClose 1 (Some 1)))]) start in
  P.sends (provider (run answered start)) = [P.AwaitingSpeech] /\
  terminalMessages (provider noAudio) = [Msg.audioComplete] /\
  W.startCapable (webview noAudio) = true /\
  terminalMessages (provider badExit) =
    [Msg.error "Failed to get response: Error: ffplay exited with code 1"] /\
  W.startCapable (webview badExit) = true.
Proof. vm_compute. done. Qed.

(** The scenario of the specification: send is clicked twice within 10 ms;
    one request is made. *)
Lemma double_click_one_request :
  let s := run (dictation ++
                [(2000, SendClick); (2005, SendClick);
                 (2105, Host (P.Woke 0 true true));
                 (2110, Host (P.Woke 1 true true))]) atRest in
  W.sendCount (webview s) = 1%nat /\
  P.sends (provider s) = [P.AwaitingResponse 0 0] /\
  (length <$> (G.requests <$> P.clients (provider s))) = [1%nat].
Proof. vm_compute. done. Qed.

(** The scenario of the specification: interrupt while the answer is being
    played.  The player is killed, the silent chunk is written, a recorder is
    started, and the webview shows dictation running with an empty
    transcription. *)
Lemma interrupt_while_speaking :
  let speaking :=
    run (dictation ++
         [(2000, SendClick);
          (2100, Host (P.Woke 0 true true));
          (2500, Host (P.Client 0 (G.WsMessage (said ["Recursion is..."]))));
          (2600, Host (P.Client 0 (G.WsMessage turnDone)));
          (3000, Host (P.Spoken 0 (Some [])))]) (create "key" "tts-key" emptyWorkspace) in
  let s := step speaking (3500, InterruptClick) in
  P.playerProcess (provider speaking) = Some 1%nat /\
  added (provider speaking) (provider s) =
    [P.Kill 1; P.SocketSend 0 silentChunk; P.PostMessage Msg.interrupted;
     P.SpawnRecorder 2; P.PostMessage Msg.recordingStarted] /\
  W.isRecording (webview s) = true /\
  W.currentTranscription (webview s) = "" /\
  W.timers (webview s) = [(4000, W.ShowListening)] /\
  W.messageStatus (W.fireTimer 0 4000 (webview s)) = "Listening...".
Proof. vm_compute. done. Qed.
End SystemFacts.

(** ** Strings *)

Module StringFacts.
Import JS Invariants.

Lemma string_app_empty_r s : s +:+ "" = s.
Proof.
  induction s as [|ch s IH]; [done|].
  change (String ch (s +:+ "") = String ch s). by rewrite IH.
Qed.

Lemma string_app_assoc a b c : (a +:+ b) +:+ c = a +:+ (b +:+ c).
Proof.
  induction a as [|ch a IH]; [done|].
  change (String ch ((a +:+ b) +:+ c) = String ch (a +:+ (b +:+ c))). by rewrite IH.
Qed.

Lemma string_concat_app a b :
  String.concat "" (a ++ b) = String.concat "" a +:+ String.concat "" b.
Proof.
  induction a as [|x a IH]; [done|].
  assert (forall l, String.concat "" (x :: l) = x +:+ String.concat "" l) as E.
  { intros [|y l]; simpl; [by rewrite string_app_empty_r|done]. }
  change ((x :: a) ++ b) with (x :: (a ++ b)). by rewrite !E, IH, string_app_assoc.
Qed.

Lemma trim_start_noLeadingSpace s : noLeadingSpace (trim_start s).
Proof. induction s as [|c s IH]; simpl; [done|]. by destruct (is_space c) eqn:E. Qed.

Lemma trim_start_id s : noLeadingSpace s -> trim_start s = s.
Proof. destruct s as [|c s]; simpl; [done|]. by intros ->. Qed.

Lemma trim_end_noLeadingSpace s : noLeadingSpace s -> noLeadingSpace (trim_end s).
Proof.
  destruct s as [|c s]; simpl; [done|]. intros H.
  destruct (trim_end s); [by rewrite H|done].
Qed.

Lemma trim_end_idem s : trim_end (trim_end s) = trim_end s.
Proof.
  induction s as [|c s IH]; simpl; [done|].
  destruct (trim_end s) as [|c' r] eqn:E.
  - destruct (is_space c) eqn:Ec; simpl; [done|by rewrite Ec].
  - cbn [trim_end]. cbn [trim_end] in IH. by rewrite IH.
Qed.

(** Trimming a trimmed string changes nothing. *)
Lemma trim_idem s : trim (trim s) = trim s.
Proof.
  unfold trim. rewrite (trim_start_id (trim_end _)).
  - apply trim_end_idem.
  - apply trim_end_noLeadingSpace, trim_start_noLeadingSpace.
Qed.

End StringFacts.

(** ** The context blob within its budget *)

Module BudgetFacts.
Import JS WorkspaceService Invariants WorkspaceFacts.

Lemma strlen_truncate_le c remaining :
  200 <= remaining -> strlen (truncate c remaining) <= remaining - 184.
Proof.
  intros H. destruct (Z.ltb_spec (remaining - 200) (strlen c)) as [Hlt|Hge].
  - rewrite strlen_truncate by lia. lia.
  - unfold truncate. rewrite (proj2 (Z.ltb_ge _ _)) by lia. lia.
Qed.

Lemma strlen_fileSection f t :
  strlen (fileSection f t) =
    21 + strlen (relativePath f) + strlen (or_else (language f) "") + strlen t.
Proof.
  unfold fileSection. rewrite !strlen_app.
  change (strlen nl) with 1. change (strlen "```") with 3.
  change (strlen "### File: ") with 10. lia.
Qed.

Lemma addFiles_balanced maxChars files acc :
  Forall shortWrapper files -> balanced maxChars acc ->
  balanced maxChars (addFiles files acc).
Proof.
  intros Hf. revert acc. induction Hf as [|file rest Hs _ IH]; intros [contextStr remaining] Hb.
  - done.
  - simpl. destruct (content file) as [c|]; [|by apply IH].
    destruct (truthy c && (500 <? remaining)) eqn:E; [|by apply IH].
    apply andb_prop in E as [_ E%Z.ltb_lt].
    assert (balanced maxChars
              (contextStr +:+ fileSection file (truncate c remaining),
               remaining - strlen (fileSection file (truncate c remaining)))) as Hb'.
    { destruct Hb as [Hsum Hpos]. simpl in *. split; simpl.
      - rewrite strlen_app. lia.
      - rewrite strlen_fileSection. pose proof (strlen_truncate_le c remaining).
        unfold shortWrapper in Hs. lia. }
    cbn [snd]. destruct (_ <=? 0); [done|by apply IH].
Qed.

Lemma addSelection_balanced maxChars context acc :
  balanced maxChars acc -> balanced maxChars (addSelection context acc).
Proof.
  intros Hb. destruct acc as [contextStr remaining]. unfold addSelection.
  destruct (selectedText context) as [sel|]; [|done].
  destruct (truthy sel && (0 <? remaining)); [|done].
  destruct (Z.leb_spec (strlen (selectedSection sel)) remaining); [|done].
  destruct Hb as [Hsum Hpos]. simpl in *. split; simpl; [rewrite strlen_app|]; lia.
Qed.

Lemma addActiveFile_balanced maxChars context acc :
  (forall f, activeFile context = Some f -> truthy_opt (content f) = true ->
     200 <= acc.2 /\ shortActive f) ->
  balanced maxChars acc -> balanced maxChars (addActiveFile context acc).
Proof.
  intros Hf Hb. destruct acc as [contextStr remaining]. unfold addActiveFile.
  destruct (activeFile context) as [f|]; [|done].
  destruct (content f) as [c|] eqn:Ec; [|done].
  destruct (truthy c) eqn:Et; [|done].
  destruct (0 <? remaining); [|done]. cbn [andb].
  destruct (Hf f eq_refl) as [H200 Hshort]; [by rewrite Ec|].
  destruct Hb as [Hsum Hpos]. simpl in *. split; simpl.
  - rewrite strlen_app. lia.
  - rewrite strlen_activeSection. pose proof (strlen_truncate_le c remaining).
    unfold shortActive in Hshort. lia.
Qed.

(** X1.  The budget is kept when paths are short.  Let the budget be
    non-negative; with a folder open let the header fit, and, if the active
    file has content, let its path and language (twice) take at most 135
    characters with at least 200 characters left after header and
    selection; let path and language of every attached file that can be
    read take at most 163 characters.  Then the blob is no longer than
    [maxChars]. *)
Theorem context_within_budget (w : Workspace) (contextFiles : list string) (maxChars : Z) :
  0 <= maxChars ->
  (forall context, getContext w = Some context ->
     strlen (header context) <= maxChars /\
     forall f, activeFile context = Some f -> truthy_opt (content f) = true ->
       shortActive f /\
       200 <= (addSelection context (header context, maxChars - strlen (header context))).2) ->
  Forall shortWrapper (readFiles w contextFiles) ->
  strlen (buildContextForPrompt w contextFiles maxChars) <= maxChars.
Proof.
  intros Hmax Hctx Hfiles. unfold buildContextForPrompt.
  set (acc1 := match getContext w with Some _ => _ | None => _ end).
  assert (balanced maxChars acc1) as H1.
  { subst acc1. destruct (getContext w) as [context|]; [|by split].
    destruct (Hctx context eq_refl) as [Hh Ha]. cbn [fst snd].
    change ("" +:+ header context) with (header context).
    apply addActiveFile_balanced.
    - intros f Hf Hc. destruct (Ha f Hf Hc). done.
    - apply addSelection_balanced. split; simpl; lia. }
  assert (balanced maxChars
            (if (0 <? Z.of_nat (length contextFiles)) && (0 <? acc1.2)
             then addFiles (readFiles w contextFiles) acc1 else acc1)) as [H2 H3].
  { destruct (_ && _); [by apply addFiles_balanced|done]. }
  lia.
Qed.

Lemma context_within_budget_witness :
  strlen (buildContextForPrompt Examples.tidyWorkspace ["notes.md"; "todo.md"] 1000) <= 1000.
Proof.
  apply context_within_budget.
  - lia.
  - intros context [= <-]. split; [vm_compute; discriminate|].
    intros f [= <-] _. split; vm_compute; discriminate.
  - repeat constructor; vm_compute; discriminate.
Defined.

End BudgetFacts.

(** ** The session client: frames, texts, timers *)

Module SessionFacts.
Import JS GeminiLiveClient Properties Scenarios Invariants.

(** *** Frames and the socket *)

Lemma call_no_frame h text isFinal c :
  Forall (fun e => isFrame e = false) (call h text isFinal c).2.
Proof.
  revert c. induction h as [|k original IH]; intros c; simpl.
  - by repeat constructor.
  - specialize (IH c). destruct (call original text isFinal c) as [c1 out].
    destruct (requests c1 !! k) as [r|]; [|done].
    by destruct (isFinal && negb (resolved r)).
Qed.

Lemma handleParts_no_frame parts c :
  Forall (fun e => isFrame e = false) (handleParts parts c).2.
Proof.
  revert c. induction parts as [|part rest IH]; intros c; simpl; [done|].
  destruct (truthy_opt part); [|done].
  unfold callOnModelResponse.
  match goal with |- context [call ?h ?t ?f ?c0] =>
    pose proof (call_no_frame h t f c0) as H; destruct (call h t f c0) as [c2 out1] end.
  specialize (IH c2). destruct (handleParts rest c2) as [c3 out2].
  simpl in *. by apply Forall_app.
Qed.

Lemma handleResponse_no_frame response c :
  Forall (fun e => isFrame e = false) (handleResponse response c).2.
Proof.
  unfold handleResponse.
  destruct (error response); [by repeat constructor|].
  destruct (setupComplete response); [by repeat constructor|].
  destruct (serverContent response) as [sc|]; [|done].
  unfold handleServerContent.
  destruct (transcriptionPresent _).
  - destruct (_ ≫= _) as [text|]; [|done]. destruct (truthy text); by repeat constructor.
  - destruct (modelTurnParts sc); [apply handleParts_no_frame|].
    destruct (turnComplete sc); [|done].
    unfold handleTurnComplete, callOnModelResponse.
    destruct (truthy _); apply call_no_frame.
Qed.

Lemma step_no_frame (e : Event) (c : Client) :
  isConnected c = false -> e <> WsOpen ->
  Forall (fun x => isFrame x = false) (step e c).2.
Proof.
  intros Hc He. destruct e; simpl; try done.
  - apply handleResponse_no_frame.
  - by repeat constructor.
  - by repeat constructor.
  - unfold connect. destruct (truthy _); by repeat constructor.
  - unfold sendAudio. by rewrite Hc.
  - unfold interrupt. by rewrite Hc.
  - unfold requestModelResponse. by rewrite Hc.
  - unfold sendContextUpdate. by rewrite Hc.
  - unfold disconnect. destruct (ws c); by repeat constructor.
Qed.

(** X2.  A client whose socket is not open writes no frame, whatever it is
    asked to do and whatever arrives; the one frame written without an open
    socket is the setup frame of the ['open'] listener. *)
Theorem no_frame_on_closed_socket (e : Event) (c : Client) :
  isConnected c = false -> e <> WsOpen ->
  Forall (fun x => isFrame x = false) (step e c).2.
Proof. apply step_no_frame. Qed.

Lemma update_request_ws k f c : ws (update_request k f c) = ws c.
Proof. unfold update_request. by destruct (requests c !! k). Qed.

Lemma call_ws h text isFinal c : ws (call h text isFinal c).1 = ws c.
Proof.
  revert c. induction h as [|k original IH]; intros c; simpl; [done|].
  specialize (IH c). destruct (call original text isFinal c) as [c1 out].
  destruct (requests c1 !! k) as [r|]; [|done].
  destruct (isFinal && negb (resolved r)); [|done].
  simpl. by rewrite update_request_ws.
Qed.

Lemma handleParts_ws parts c : ws (handleParts parts c).1 = ws c.
Proof.
  revert c. induction parts as [|part rest IH]; intros c; simpl; [done|].
  destruct (truthy_opt part); [|done].
  unfold callOnModelResponse. rewrite ClientFacts.call_streaming.
  specialize (IH (set_currentModelResponse (currentModelResponse c +:+ interpolate part) c)).
  by destruct (handleParts rest _).
Qed.

Lemma handleResponse_ws response c : ws (handleResponse response c).1 = ws c.
Proof.
  unfold handleResponse. destruct (error response); [done|].
  destruct (setupComplete response); [done|].
  destruct (serverContent response) as [sc|]; [|done].
  unfold handleServerContent. destruct (transcriptionPresent _).
  - destruct (_ ≫= _) as [text|]; [|done]. by destruct (truthy text).
  - destruct (modelTurnParts sc); [apply handleParts_ws|].
    destruct (turnComplete sc); [|done].
    unfold handleTurnComplete, callOnModelResponse. destruct (truthy _); apply call_ws.
Qed.

Lemma step_without_socket e c :
  ws c = None -> e <> Connect -> ws (step e c).1 = None.
Proof.
  intros Hw He. destruct e; simpl; try done.
  - unfold onOpen. by rewrite Hw.
  - by rewrite handleResponse_ws.
  - unfold onClosing. by rewrite Hw.
  - unfold sendAudio, isConnected. by rewrite Hw.
  - unfold interrupt, isConnected. by rewrite Hw.
  - unfold requestModelResponse, isConnected. by rewrite Hw.
  - unfold sendContextUpdate, isConnected. by rewrite Hw.
  - unfold disconnect. by rewrite Hw.
  - unfold onTimeout. destruct (requests c !! k) as [r|]; [|done].
    destruct (timerSet r && negb (resolved r)); [|done].
    simpl. by rewrite update_request_ws.
Qed.

(** X3.  A client without a socket (never connected, disconnected, or
    closed by the server) stays without one and writes nothing, until
    [connect] is called. *)
Theorem silent_until_connect (es : list Event) (c : Client) :
  ws c = None -> Connect ∉ es ->
  ws (run es c).1 = None /\ Forall (fun x => isFrame x = false) (run es c).2.
Proof.
  revert c. induction es as [|e es IH]; intros c Hw Hes; [done|].
  apply not_elem_of_cons in Hes as [He Hes]. simpl.
  pose proof (step_without_socket e c Hw (not_eq_sym He)) as H1.
  assert (Forall (fun x => isFrame x = false) (step e c).2) as H2.
  { assert (e = WsOpen \/ e <> WsOpen) as [->|Hn] by (destruct e; (by left) || (by right)).
    - simpl. unfold onOpen. by rewrite Hw.
    - apply step_no_frame; [|done]. unfold isConnected. by rewrite Hw. }
  destruct (step e c) as [c1 out1]. simpl in *.
  destruct (IH c1 H1 Hes) as [I1 I2]. destruct (run es c1) as [c2 out2].
  split; [done|]. by apply Forall_app.
Qed.

Lemma no_frame_on_closed_socket_witness :
  Forall (fun x => isFrame x = false)
    (step (RequestModelResponse true true) Examples.closedSession).2 /\
  Forall (fun x => isFrame x = false) (step (SendAudio [Byte.x01]) (create "key")).2.
Proof.
  split; apply no_frame_on_closed_socket; (reflexivity || discriminate).
Defined.

Lemma silent_until_connect_witness :
  let es := [WsOpen; SendAudio [Byte.x01]; WsMessage (heard "Explain");
             RequestModelResponse true true; Interrupt; Timeout 0] in
  ws (run es Examples.closedSession).1 = None /\
  Forall (fun x => isFrame x = false) (run es Examples.closedSession).2.
Proof.
  apply silent_until_connect; [reflexivity|].
  rewrite !not_elem_of_cons. repeat split; try discriminate. apply not_elem_of_nil.
Defined.

(** *** What was heard is what is submitted *)

Lemma heard_step text c :
  let c' := (step (WsMessage (heard text)) c).1 in
  currentTranscription c' = currentTranscription c +:+ text /\
  ws c' = ws c /\ requests c' = requests c /\ onModelResponse c' = onModelResponse c /\
  currentModelResponse c' = currentModelResponse c.
Proof.
  simpl. unfold handleResponse, handleServerContent. simpl.
  destruct text as [|ch text]; simpl; [|done]. by rewrite StringFacts.string_app_empty_r.
Qed.

Lemma hears_run texts c :
  let c' := (run (hears texts) c).1 in
  currentTranscription c' = currentTranscription c +:+ String.concat "" texts /\
  ws c' = ws c /\ requests c' = requests c /\ onModelResponse c' = onModelResponse c /\
  currentModelResponse c' = currentModelResponse c.
Proof.
  revert c. induction texts as [|text texts IH]; intros c.
  - simpl. by rewrite StringFacts.string_app_empty_r.
  - cbn [hears fmap list_fmap run]. fold (hears texts).
    pose proof (heard_step text c) as H.
    destruct (step (WsMessage (heard text)) c) as [c1 out1]. simpl in H.
    specialize (IH c1). destruct (run (hears texts) c1) as [c2 out2]. simpl in *.
    destruct H as (H1 & H2 & H3 & H4 & H5), IH as (I1 & I2 & I3 & I4 & I5).
    rewrite I1, H1, I2, I3, I4, I5, StringFacts.string_app_assoc. repeat split; try done.
    f_equal. destruct texts; simpl; [by rewrite StringFacts.string_app_empty_r|done].
Qed.

(** X4.  What the server transcribed is what the model is asked.  After
    any fragments, the transcription is what it was followed by the
    fragments in order, [getTranscription] is that text trimmed, and a turn
    completion then submits exactly that text (the fixed fallback if it is
    empty). *)
Theorem heard_text_is_submitted (texts : list string) (c : Client) :
  isConnected c = true ->
  let c1 := (run (hears texts) c).1 in
  let text := currentTranscription c +:+ String.concat "" texts in
  getTranscription c1 = trim text /\
  (requestModelResponse true true c1).2 =
    [Send (RealtimeInput []);
     Send (ClientContent "user"
             (if truthy text then text else "Hello, please respond to me.") true)].
Proof.
  intros Hc. pose proof (hears_run texts c) as H.
  destruct (run (hears texts) c) as [c1 out]. simpl in *. destruct H as (H1 & H2 & _).
  unfold getTranscription, requestModelResponse, isConnected, endTurnMessage.
  simpl. rewrite H1, H2.
  unfold isConnected in Hc. by destruct (ws c) as [[]|].
Qed.

(** *** The answer *)

Lemma handleParts_text parts c :
  let c' := (handleParts (Some <$> parts) c).1 in
  currentModelResponse c' = currentModelResponse c +:+ String.concat "" parts /\
  ws c' = ws c /\ requests c' = requests c /\ onModelResponse c' = onModelResponse c /\
  currentTranscription c' = currentTranscription c.
Proof.
  revert c. induction parts as [|part parts IH]; intros c.
  - simpl. by rewrite StringFacts.string_app_empty_r.
  - cbn [fmap list_fmap handleParts truthy_opt interpolate].
    assert (String.concat "" (part :: parts) = part +:+ String.concat "" parts) as ->.
    { destruct parts; simpl; [by rewrite StringFacts.string_app_empty_r|done]. }
    destruct (truthy part) eqn:E.
    + unfold callOnModelResponse. rewrite ClientFacts.call_streaming.
      set (c1 := set_currentModelResponse _ c).
      specialize (IH c1). fold (@fmap list _ _ _ (@Some string) parts).
      destruct (handleParts (Some <$> parts) c1) as [c3 out2]. simpl in *.
      destruct IH as (I1 & I2 & I3 & I4 & I5). rewrite I1, StringFacts.string_app_assoc. done.
    + destruct part; [|done]. simpl. apply IH.
Qed.

Lemma said_step parts c :
  let c' := (step (WsMessage (said parts)) c).1 in
  currentModelResponse c' = currentModelResponse c +:+ String.concat "" parts /\
  ws c' = ws c /\ requests c' = requests c /\ onModelResponse c' = onModelResponse c /\
  currentTranscription c' = currentTranscription c.
Proof. apply handleParts_text. Qed.

Lemma says_run partss c :
  let c' := (run (says partss) c).1 in
  currentModelResponse c' =
    currentModelResponse c +:+ String.concat "" (mjoin partss) /\
  ws c' = ws c /\ requests c' = requests c /\ onModelResponse c' = onModelResponse c /\
  currentTranscription c' = currentTranscription c.
Proof.
  revert c. induction partss as [|parts partss IH]; intros c.
  - simpl. by rewrite StringFacts.string_app_empty_r.
  - cbn [says fmap list_fmap run]. fold (says partss).
    pose proof (said_step parts c) as H.
    destruct (step (WsMessage (said parts)) c) as [c1 out1]. simpl in H.
    specialize (IH c1). destruct (run (says partss) c1) as [c2 out2]. simpl in *.
    destruct H as (H1 & H2 & H3 & H4 & H5), IH as (I1 & I2 & I3 & I4 & I5).
    rewrite I1, H1, I2, I3, I4, I5, StringFacts.string_app_assoc, StringFacts.string_concat_app. done.
Qed.

Lemma client_run_app es1 es2 c :
  run (es1 ++ es2) c =
    let '(c1, out1) := run es1 c in
    let '(c2, out2) := run es2 c1 in
    (c2, out1 ++ out2).
Proof.
  revert c. induction es1 as [|e es1 IH]; intros c; simpl.
  - by destruct (run es2 c).
  - destruct (step e c) as [c1 out1]. rewrite IH.
    destruct (run es1 c1) as [c2 out2]. destruct (run es2 c2) as [c3 out3].
    by rewrite app_assoc.
Qed.

(** X5.  A request made on an open socket, with the constructed callback
    in place, is resolved by the turn completion with the concatenation of
    the parts streamed since the request, however they were split into
    messages (with the empty string if there were none); the constructed
    callback is back in place, the final text is reported last, and the
    request's timer then changes nothing. *)
Theorem answer_is_what_was_streamed (partss : list (list string)) (c : Client) :
  isConnected c = true ->
  onModelResponse c = Constructed ->
  let k := length (requests c) in
  let r := run (RequestModelResponse true true :: says partss ++ [WsMessage turnDone]) c in
  let text := String.concat "" (mjoin partss) in
  promiseOf k r.1 = Some (Resolved text) /\
  onModelResponse r.1 = Constructed /\
  onTimeout k r.1 = r.1 /\
  last r.2 = Some (OnModelResponse text true).
Proof.
  intros Hc Hh k r text. subst r. cbn [run step].
  unfold requestModelResponse. rewrite Hc. cbn [negb].
  set (c0 := add_request _ _).
  rewrite client_run_app.
  pose proof (says_run partss c0) as H. destruct (run (says partss) c0) as [c1 out1].
  simpl in H. destruct H as (H1 & H2 & H3 & H4 & H5).
  change (currentModelResponse c0) with "" in H1.
  change ("" +:+ String.concat "" (mjoin partss)) with text in H1.
  change (requests c0) with
    (requests c ++ [ {| promise := Pending; resolved := false;
                        originalCallback := onModelResponse c; timerSet := true |} ]) in H3.
  change (onModelResponse c0) with (Swapped k (onModelResponse c)) in H4.
  rewrite Hh in H3, H4.
  assert (handleTurnComplete c1 =
            (set_onModelResponse Constructed
               (update_request k (mark_resolved (Resolved text)) c1),
             [OnModelResponse text true])) as Hfin.
  { unfold handleTurnComplete, callOnModelResponse. rewrite H4, H1.
    clearbody text. subst k.
    destruct text; simpl; rewrite H3, list_lookup_middle by done; done. }
  cbn [run step handleResponse turnDone serverMessage error setupComplete serverContent
       handleServerContent inputTranscription transcriptionPresent modelTurnParts
       turnComplete].
  rewrite Hfin. cbn [fst snd].
  assert (requests c1 !! k = Some {| promise := Pending; resolved := false;
                                     originalCallback := Constructed; timerSet := true |}) as Hk.
  { rewrite H3. subst k. by rewrite list_lookup_middle. }
  split; [|split; [done|split]].
  - unfold promiseOf, update_request. rewrite Hk. simpl.
    rewrite list_lookup_insert_eq; [done|]. by eapply lookup_lt_Some.
  - unfold onTimeout, update_request. rewrite Hk. simpl.
    rewrite list_lookup_insert_eq; [done|]. by eapply lookup_lt_Some.
  - by rewrite !last_app.
Qed.

(** *** No request waits for ever *)

Lemma timed_resolved v r : v <> Pending -> timed (mark_resolved v r).
Proof. intros Hv. unfold timed, mark_resolved, settle. simpl. by destruct (promise r). Qed.

Lemma update_request_timed k v c :
  v <> Pending -> Forall timed (requests c) ->
  Forall timed (requests (update_request k (mark_resolved v) c)).
Proof.
  intros Hv Hc. unfold update_request. destruct (requests c !! k) as [r|] eqn:E; [|done].
  simpl. apply Forall_insert; [done|by apply timed_resolved].
Qed.

Lemma call_timed h text isFinal c :
  Forall timed (requests c) -> Forall timed (requests (call h text isFinal c).1).
Proof.
  revert c. induction h as [|k original IH]; intros c Hc; simpl; [done|].
  specialize (IH c Hc). destruct (call original text isFinal c) as [c1 out].
  destruct (requests c1 !! k) as [r|]; [|done].
  destruct (isFinal && negb (resolved r)); [|done].
  simpl. by apply update_request_timed.
Qed.

Lemma handleResponse_timed response c :
  Forall timed (requests c) -> Forall timed (requests (handleResponse response c).1).
Proof.
  intros Hc. unfold handleResponse.
  destruct (error response); [done|]. destruct (setupComplete response); [done|].
  destruct (serverContent response) as [sc|]; [|done].
  unfold handleServerContent. destruct (transcriptionPresent _).
  - destruct (_ ≫= _) as [text|]; [|done]. by destruct (truthy text).
  - destruct (modelTurnParts sc); [by rewrite ClientFacts.handleParts_requests|].
    destruct (turnComplete sc); [|done].
    unfold handleTurnComplete, callOnModelResponse.
    destruct (truthy _); by apply call_timed.
Qed.

Lemma step_timed e c :
  Forall timed (requests c) -> Forall timed (requests (step e c).1).
Proof.
  intros Hc. destruct e; simpl.
  - unfold onOpen. by destruct (ws c).
  - by apply handleResponse_timed.
  - done.
  - unfold onClosing. by destruct (ws c).
  - done.
  - unfold connect. by destruct (truthy _).
  - unfold sendAudio. by destruct (isConnected c).
  - unfold interrupt. by destruct (isConnected c).
  - unfold requestModelResponse.
    destruct (isConnected c), sent1, sent2; simpl;
      (apply Forall_app; split; [done|]); apply Forall_singleton; unfold timed; simpl;
      intros ?; by try split.
  - unfold sendContextUpdate.
    destruct (isConnected c); [|done]. destruct (truthy _); [|done]. by destruct sent.
  - unfold disconnect. by destruct (ws c).
  - done.
  - done.
  - done.
  - unfold onTimeout. destruct (requests c !! k) as [r|]; [|done].
    destruct (timerSet r && negb (resolved r)); [|done].
    simpl. apply update_request_timed; [|done]. by destruct (truthy _).
Qed.

Lemma run_timed es c :
  Forall timed (requests c) -> Forall timed (requests (run es c).1).
Proof.
  revert c. induction es as [|e es IH]; intros c Hc; [done|].
  simpl. pose proof (step_timed e c Hc) as H. destruct (step e c) as [c1 out1].
  specialize (IH c1 H). by destruct (run es c1).
Qed.

(** X6.  No request waits for ever.  Whatever happened to a client since
    it was constructed, a promise that is still pending is settled when its
    timer fires: resolved with the partial response if there is one,
    rejected with the timeout error otherwise. *)
Theorem pending_request_is_settled_by_its_timer (key : string) (es : list Event) (k : nat) :
  let c := (run es (create key)).1 in
  promiseOf k c = Some Pending ->
  promiseOf k (onTimeout k c) =
    Some (if truthy (currentModelResponse c) then Resolved (currentModelResponse c)
          else Rejected "Model response timeout - no response received").
Proof.
  intros c Hp. assert (Forall timed (requests c)) as Hc by by apply run_timed.
  clearbody c. unfold promiseOf in Hp.
  destruct (requests c !! k) as [r|] eqn:E; [|done]. simpl in Hp.
  destruct (proj1 (Forall_lookup _ _) Hc k r E) as [Ht Hr]; [congruence|].
  unfold onTimeout, promiseOf, update_request. rewrite E, Ht, Hr. simpl.
  rewrite list_lookup_insert_eq by by eapply lookup_lt_Some.
  simpl. assert (promise r = Pending) as -> by congruence. by destruct (truthy _).
Qed.

Lemma heard_text_is_submitted_witness :
  let c := (run (hears ["Explain "; "recursion"]) freshSession).1 in
  getTranscription c = "Explain recursion" /\
  (requestModelResponse true true c).2 =
    [Send (RealtimeInput []); Send (ClientContent "user" "Explain recursion" true)].
Proof.
  pose proof (heard_text_is_submitted ["Explain "; "recursion"] freshSession) as H.
  vm_compute in H. vm_compute. apply H. reflexivity.
Defined.

Lemma answer_is_what_was_streamed_witness :
  let c := listeningSession "Explain recursion" in
  let r := run (RequestModelResponse true true ::
                says [["Recursion "; "is"]; [" self-reference."]] ++ [WsMessage turnDone]) c in
  promiseOf 0 r.1 = Some (Resolved "Recursion is self-reference.") /\
  onModelResponse r.1 = Constructed /\
  onTimeout 0 r.1 = r.1 /\
  last r.2 = Some (OnModelResponse "Recursion is self-reference." true).
Proof.
  pose proof (answer_is_what_was_streamed [["Recursion "; "is"]; [" self-reference."]]
                (listeningSession "Explain recursion")) as H.
  vm_compute in H. vm_compute. apply H; reflexivity.
Defined.

Lemma pending_request_is_settled_by_its_timer_witness :
  let es := [Connect; WsOpen; RequestModelResponse true true; WsMessage (said ["Rec"])] in
  let c := (run es (create "key")).1 in
  promiseOf 0 c = Some Pending /\
  promiseOf 0 (onTimeout 0 c) = Some (Resolved "Rec").
Proof.
  pose proof (pending_request_is_settled_by_its_timer "key"
                [Connect; WsOpen; RequestModelResponse true true; WsMessage (said ["Rec"])]
                0) as H.
  vm_compute in H. vm_compute. split; [reflexivity|]. apply H. reflexivity.
Defined.

End SessionFacts.

(** ** The page: the send lock over any run *)

Module PageFacts.
Import JS Webview WebviewLoop Invariants.

Lemma sendCount_postMessage m w :
  Msg.isSendToModel m = false -> sendCount (postMessage m w) = sendCount w.
Proof.
  intros H. unfold sendCount, postMessage. simpl. rewrite filter_app, length_app.
  destruct m; try done; simpl; lia.
Qed.

(** What a click on send comes to. *)
Lemma sendClick_cases now w :
  (sendClick now w = doSend w /\ isSending w = false) \/
  (isSending (sendClick now w) = isSending w /\ posted (sendClick now w) = posted w).
Proof.
  unfold sendClick. destruct (isSending w) eqn:E; [by right|].
  destruct (truthy _); [|by right]. simpl.
  destruct (_ <? _); [by right|by left].
Qed.

Lemma fireTimer_cases n now w :
  (exists w0, fireTimer n now w = doSend w0 /\ isSending w0 = false /\ isSending w = false /\
              posted w0 = posted w) \/
  (isSending (fireTimer n now w) = isSending w /\ posted (fireTimer n now w) = posted w).
Proof.
  unfold fireTimer. destruct (timers w !! n) as [[due t]|]; [|by right].
  set (w0 := set_timers _ w). destruct t; simpl; [|by right].
  change (isSending w0) with (isSending w). change (currentTranscription w0) with (currentTranscription w).
  destruct (isSending w) eqn:E; [by right|].
  destruct (truthy _); [|by right]. simpl.
  destruct (sendClick_cases now w0) as [[H1 H2]|[H1 H2]].
  - left. exists w0. by rewrite H1.
  - right. rewrite H1, H2. done.
Qed.

Lemma receive_keeps m now w :
  releasesLock m = false ->
  isSending (receive m now w) = isSending w /\ posted (receive m now w) = posted w.
Proof.
  destruct m; try done; intros _; simpl.
  - by destruct (isDictationActive _).
  - by destruct (truthy text).
Qed.

(** One event that does not release the lock: the lock and the count of
    sends stay as they are, or the lock was free and is taken with one send. *)
Lemma step_lock te w :
  keepsLock te = true ->
  (isSending (step w te) = isSending w /\ sendCount (step w te) = sendCount w) \/
  (isSending w = false /\ isSending (step w te) = true /\
   sendCount (step w te) = S (sendCount w)).
Proof.
  destruct te as [now e]. unfold keepsLock. simpl. intros Hk. destruct e.
  - destruct (sendClick_cases now w) as [[H1 H2]|[H1 H2]].
    + right. rewrite H1, WebviewFacts.sendCount_doSend, WebviewFacts.doSend_isSending. done.
    + left. unfold sendCount. by rewrite H1, H2.
  - left. unfold startClick. destruct (negb _); by rewrite sendCount_postMessage.
  - left. unfold interruptClick. by rewrite sendCount_postMessage.
  - left. unfold stopClick. by rewrite sendCount_postMessage.
  - destruct (fireTimer_cases n now w) as [(w0 & H1 & H2 & H3 & H4)|[H1 H2]].
    + right. rewrite H1, WebviewFacts.sendCount_doSend, WebviewFacts.doSend_isSending.
      unfold sendCount. by rewrite H4.
    + left. unfold sendCount. by rewrite H1, H2.
  - apply negb_true_iff in Hk. destruct (receive_keeps m now w Hk) as [H1 H2].
    left. unfold sendCount. by rewrite H1, H2.
Qed.

Lemma run_lock es w :
  Forall (fun te => keepsLock te = true) es ->
  (isSending (run es w) = isSending w /\ sendCount (run es w) = sendCount w) \/
  (isSending w = false /\ isSending (run es w) = true /\
   sendCount (run es w) = S (sendCount w)).
Proof.
  intros Hes. revert w. induction Hes as [|te es Hte _ IH]; intros w; [by left|].
  change (run (te :: es) w) with (run es (step w te)).
  destruct (step_lock te w Hte) as [[H1 H2]|(H1 & H2 & H3)];
    destruct (IH (step w te)) as [[I1 I2]|(I1 & I2 & I3)].
  - left. by rewrite I1, I2.
  - right. by rewrite <- H1, <- H2.
  - right. by rewrite I1, I2.
  - congruence.
Qed.

(** X7.  One send per turn.  Over any clicks, timers and messages among
    which none ends the turn (audio complete, error, interrupted, hard
    stopped): while the send lock is held nothing is sent and the lock stays
    held; and from any state at most one request is sent, after which the
    lock is held. *)
Theorem one_send_per_lock (es : list (Z * Event)) (w : Webview) :
  Forall (fun te => keepsLock te = true) es ->
  (isSending w = true ->
     isSending (run es w) = true /\ sendCount (run es w) = sendCount w) /\
  (sendCount w <= sendCount (run es w) <= S (sendCount w))%nat /\
  (sendCount (run es w) = S (sendCount w) -> isSending (run es w) = true).
Proof.
  intros Hes. destruct (run_lock es w Hes) as [[H1 H2]|(H1 & H2 & H3)].
  - rewrite H1, H2. split; [done|]. split; lia.
  - rewrite H1, H2, H3. split; [done|]. split; [lia|done].
Qed.

Lemma one_send_per_lock_witness :
  Forall (fun te => keepsLock te = true) Examples.impatientClicks /\
  sendCount (run Examples.impatientClicks Scenarios.dictating) = 1%nat /\
  isSending (run Examples.impatientClicks Scenarios.dictating) = true.
Proof.
  assert (Forall (fun te => keepsLock te = true) Examples.impatientClicks) as Hk
    by (repeat constructor).
  pose proof (one_send_per_lock Examples.impatientClicks Scenarios.dictating Hk)
    as (_ & _ & H).
  split; [exact Hk|]. split; [reflexivity|]. apply H. reflexivity.
Defined.

(** *** What is sent *)

Lemma sendClick_posted now w :
  exists extra, posted (sendClick now w) = posted w ++ extra /\ Forall wellFormedSend extra.
Proof.
  unfold sendClick. destruct (isSending w); [exists []; by rewrite app_nil_r|].
  destruct (truthy (trim (currentTranscription w))) eqn:E; [|exists []; by rewrite app_nil_r].
  simpl. destruct (_ <? _); [exists []; by rewrite app_nil_r|].
  eexists. split; [apply WebviewFacts.doSend_posted|].
  apply Forall_app. split; [by destruct (isRecording w); repeat constructor|].
  apply Forall_singleton. simpl. split; [done|apply StringFacts.trim_idem].
Qed.

Lemma fireTimer_posted n now w :
  exists extra, posted (fireTimer n now w) = posted w ++ extra /\ Forall wellFormedSend extra.
Proof.
  unfold fireTimer. destruct (timers w !! n) as [[due t]|]; [|exists []; by rewrite app_nil_r].
  set (w0 := set_timers _ w). destruct t; simpl; [|exists []; by rewrite app_nil_r].
  destruct (_ && _); [|exists []; by rewrite app_nil_r].
  apply (sendClick_posted now w0).
Qed.

Lemma receive_posted m now w : posted (receive m now w) = posted w.
Proof.
  destruct m; simpl; try done.
  - by destruct (isDictationActive _).
  - by destruct (truthy text).
Qed.

Lemma step_posted te w :
  exists extra, posted (step w te) = posted w ++ extra /\ Forall wellFormedSend extra.
Proof.
  destruct te as [now e]. destruct e; simpl.
  - apply sendClick_posted.
  - unfold startClick. destruct (negb _); eexists; (split; [done|]); by repeat constructor.
  - eexists; (split; [done|]); by repeat constructor.
  - eexists; (split; [done|]); by repeat constructor.
  - apply fireTimer_posted.
  - exists []. by rewrite receive_posted, app_nil_r.
Qed.

Lemma run_posted es w :
  Forall wellFormedSend (posted w) -> Forall wellFormedSend (posted (run es w)).
Proof.
  revert w. induction es as [|te es IH]; intros w Hw; [done|].
  change (run (te :: es) w) with (run es (step w te)). apply IH.
  destruct (step_posted te w) as (extra & -> & Hx). by apply Forall_app.
Qed.

(** X8.  Whatever happens on the page after it is loaded, every request it
    sends carries text that is not empty and has no white space at either
    end. *)
Theorem sends_carry_trimmed_text (es : list (Z * Event)) :
  Forall wellFormedSend (posted (run es initial)).
Proof. by apply run_posted. Qed.

End PageFacts.

(** ** The coordinator over any run *)

Module CoordinatorFacts.
Import JS SoundCodeViewProvider Invariants.

(** *** Requests are never forgotten *)

Lemma update_request_length k f c :
  length (G.requests (G.update_request k f c)) = length (G.requests c).
Proof.
  unfold G.update_request. destruct (G.requests c !! k); [|done].
  simpl. by rewrite length_insert.
Qed.

Lemma call_length h text isFinal c :
  length (G.requests (G.call h text isFinal c).1) = length (G.requests c).
Proof.
  revert c. induction h as [|k original IH]; intros c; simpl; [done|].
  specialize (IH c). destruct (G.call original text isFinal c) as [c1 out].
  destruct (G.requests c1 !! k) as [r|]; [|done].
  destruct (isFinal && negb (G.resolved r)); [|done].
  simpl in *. by rewrite update_request_length.
Qed.

Lemma handleResponse_length response c :
  length (G.requests (G.handleResponse response c).1) = length (G.requests c).
Proof.
  unfold G.handleResponse. destruct (G.error response); [done|].
  destruct (G.setupComplete response); [done|].
  destruct (G.serverContent response) as [sc|]; [|done].
  unfold G.handleServerContent. destruct (G.transcriptionPresent _).
  - destruct (_ ≫= _) as [text|]; [|done]. by destruct (truthy text).
  - destruct (G.modelTurnParts sc); [by rewrite ClientFacts.handleParts_requests|].
    destruct (G.turnComplete sc); [|done].
    unfold G.handleTurnComplete, G.callOnModelResponse.
    destruct (truthy _); apply call_length.
Qed.

Lemma request_appended sent1 sent2 c :
  exists r, G.requests (G.requestModelResponse sent1 sent2 c).1 = G.requests c ++ [r].
Proof.
  unfold G.requestModelResponse.
  destruct (G.isConnected c), sent1, sent2; simpl; by eexists.
Qed.

Lemma step_length e c :
  (length (G.requests c) <= length (G.requests (G.step e c).1))%nat.
Proof.
  destruct e; simpl; try done.
  - unfold G.onOpen. by destruct (G.ws c).
  - by rewrite handleResponse_length.
  - unfold G.onClosing. by destruct (G.ws c).
  - unfold G.connect. by destruct (truthy _).
  - unfold G.sendAudio. by destruct (G.isConnected c).
  - unfold G.interrupt. by destruct (G.isConnected c).
  - destruct (request_appended sent1 sent2 c) as [r ->]. rewrite length_app. lia.
  - unfold G.sendContextUpdate.
    destruct (G.isConnected c); [|done]. destruct (truthy _); [|done]. by destruct sent.
  - unfold G.disconnect. by destruct (G.ws c).
  - unfold G.onTimeout. destruct (G.requests c !! k) as [r|]; [|done].
    destruct (G.timerSet r && negb (G.resolved r)); [|done].
    simpl. by rewrite update_request_length.
Qed.

Lemma step_clientStep e c : clientStep c (G.step e c).1.
Proof. split; [apply SessionFacts.step_timed|apply step_length]. Qed.

(** *** Properties that every handler keeps *)

Create HintDb stable.

Section Stable.

(** A property of the provider that every update the handlers make keeps:
    a field written, a client object stepped, a new client or call added, a
    call moved on, an effect logged that is no empty answer, a file attached
    or detached. *)
Variable I : Provider -> Prop.
Hypothesis I_captureProcess : forall v p, I p -> I (set_captureProcess v p).
Hypothesis I_playerProcess : forall v p, I p -> I (set_playerProcess v p).
Hypothesis I_geminiClient : forall v p, I p -> I (set_geminiClient v p).
Hypothesis I_client : forall i c c' p,
  clients p !! i = Some c -> clientStep c c' ->
  I p -> I (set_clients (<[i := c']> (clients p)) p).
Hypothesis I_newClient : forall key p,
  I p -> I (set_clients (clients p ++ [G.create key]) p).
Hypothesis I_workspace : forall v p, I p -> I (set_workspace v p).
Hypothesis I_recorders : forall v p, I p -> I (set_recorders v p).
Hypothesis I_players : forall v p, I p -> I (set_players v p).
Hypothesis I_nextPid : forall v p, I p -> I (set_nextPid v p).
Hypothesis I_newSend : forall s p,
  ~ awaiting s -> I p -> I (set_sends (sends p ++ [s]) p).
Hypothesis I_setSend : forall j s p, ~ awaiting s -> I p -> I (setSend j s p).
Hypothesis I_await : forall j i k c p,
  clients p !! i = Some c -> (k < length (G.requests c))%nat ->
  I p -> I (setSend j (AwaitingResponse i k) p).
Hypothesis I_emit : forall e p, answerNotEmpty e -> I p -> I (emit e p).
Hypothesis I_add : forall file p,
  truthy file = true -> file ∉ contextFiles p ->
  I p -> I (set_contextFiles (contextFiles p ++ [file]) p).
Hypothesis I_remove : forall file p,
  I p -> I (set_contextFiles (filter (fun f => f ≠ file) (contextFiles p)) p).

Local Hint Resolve I_captureProcess I_playerProcess I_geminiClient I_workspace
  I_recorders I_players I_nextPid I_emit : stable.

Lemma not_awaiting_Finished : ~ awaiting Finished.
Proof. by intros (i & k & ?). Qed.

Lemma foldl_stable {A} (g : Provider -> A -> Provider) l p :
  (forall p x, I p -> I (g p x)) -> I p -> I (foldl g p l).
Proof. intros Hg. revert p. induction l as [|x l IH]; intros p Hp; simpl; auto. Qed.

Lemma postMessage_stable m p : answerNotEmpty (PostMessage m) -> I p -> I (postMessage m p).
Proof. unfold postMessage. auto with stable. Qed.

Lemma startRecordingProcess_stable p : I p -> I (startRecordingProcess p).
Proof. unfold startRecordingProcess. intros. apply I_emit; [done|]. auto with stable. Qed.

Lemma stopRecordingProcess_stable p : I p -> I (stopRecordingProcess p).
Proof.
  unfold stopRecordingProcess. intros. destruct (captureProcess p); [|done].
  apply I_emit; [done|]. auto with stable.
Qed.

Lemma play_stable audio p : I p -> I (play audio p).
Proof. unfold play. intros. apply I_emit; [done|]. auto with stable. Qed.

Lemma stopPlayer_stable p : I p -> I (stopPlayer p).
Proof.
  unfold stopPlayer. intros. destruct (playerProcess p); [|done].
  apply I_playerProcess, I_emit; [done|]. auto with stable.
Qed.

Lemma startAudioCapture_stable p : I p -> I (startAudioCapture p).
Proof.
  unfold startAudioCapture. intros.
  apply postMessage_stable; [done|]. by apply startRecordingProcess_stable.
Qed.

Lemma absorb_stable i p e : I p -> I (absorb i p e).
Proof.
  intros. destruct e; simpl.
  - by apply I_emit.
  - by apply I_emit.
  - by apply postMessage_stable.
  - done.
  - apply I_emit; [done|]. by apply postMessage_stable.
  - by apply startAudioCapture_stable.
  - done.
Qed.

Lemma onClient_stable i e p : I p -> I (onClient i (G.step e) p).
Proof.
  intros. unfold onClient. destruct (clients p !! i) as [c|] eqn:E; [|done].
  pose proof (step_clientStep e c) as Hc.
  destruct (G.step e c) as [c' out]. apply foldl_stable; [|by eapply I_client].
  intros. by apply absorb_stable.
Qed.

Lemma resetTranscription_stable p : I p -> I (resetTranscription p).
Proof.
  intros. unfold resetTranscription. destruct (geminiClient p) as [i|]; [|done].
  by apply (onClient_stable i G.ResetTranscription).
Qed.

Lemma handleInterrupt_stable p : I p -> I (handleInterrupt p).
Proof.
  intros H. apply stopPlayer_stable in H. unfold handleInterrupt.
  destruct (geminiClient (stopPlayer p)); [|done].
  destruct (connected (stopPlayer p)); [|done].
  apply startAudioCapture_stable, postMessage_stable; [done|].
  apply (onClient_stable _ G.Interrupt). by apply (onClient_stable _ G.ResetTranscription).
Qed.

Lemma handleHardStop_stable p : I p -> I (handleHardStop p).
Proof.
  intros H. apply stopRecordingProcess_stable, stopPlayer_stable in H.
  unfold handleHardStop. apply postMessage_stable; [done|].
  destruct (geminiClient _); [|done].
  by apply I_geminiClient, (onClient_stable _ G.Disconnect).
Qed.

Lemma updateWorkspaceContext_stable p : I p -> I (updateWorkspaceContext p).
Proof.
  intros. unfold updateWorkspaceContext. destruct (geminiClient p); [|done].
  destruct (connected p); [|done].
  by apply (onClient_stable _ (G.SendContextUpdate true (buildContext p))).
Qed.

Lemma handleFileSearch_stable query p : I p -> I (handleFileSearch query p).
Proof.
  intros. unfold handleFileSearch. destruct (negb _); [done|].
  by apply postMessage_stable.
Qed.

Lemma startRecording_stable p : I p -> I (startRecording p).
Proof.
  intros. unfold startRecording. destruct (negb _); [|by apply startAudioCapture_stable].
  apply (onClient_stable _ G.Connect).
  apply (onClient_stable _ (G.SetWorkspaceContext (buildContext p))).
  by apply I_geminiClient, I_newClient.
Qed.

Lemma stopRecording_stable p : I p -> I (stopRecording p).
Proof.
  intros. unfold stopRecording. apply postMessage_stable; [done|].
  by apply stopRecordingProcess_stable.
Qed.

Lemma handleSendToModel_stable p : I p -> I (handleSendToModel p).
Proof.
  intros. unfold handleSendToModel. destruct (negb _); apply I_newSend.
  - apply not_awaiting_Finished.
  - by apply postMessage_stable.
  - by intros (i & k & ?).
  - by apply stopRecordingProcess_stable.
Qed.

Lemma afterSleep_stable j sent1 sent2 p : I p -> I (afterSleep j sent1 sent2 p).
Proof.
  intros. unfold afterSleep. destruct (sends p !! j) as [[]|]; try done.
  destruct (geminiClient p) as [i|]; [|by apply I_setSend; [apply not_awaiting_Finished|]].
  destruct (clients p !! i) as [c|] eqn:E; [|done].
  assert (I (onClient i (G.step (G.RequestModelResponse sent1 sent2))
               (postMessage Msg.thinking p))) as H1.
  { apply onClient_stable. by apply postMessage_stable. }
  destruct (request_appended sent1 sent2 c) as [r Hr].
  apply (I_await _ _ _ (G.requestModelResponse sent1 sent2 c).1); [| |done].
  - rewrite (ProviderFacts.onClient_run i _ (postMessage Msg.thinking p) c _ _ E
               (surjective_pairing _)).
    destruct (ProviderFacts.foldl_absorb_clients i (G.requestModelResponse sent1 sent2 c).2
                (set_clients (<[i:=(G.requestModelResponse sent1 sent2 c).1]>
                                (clients (postMessage Msg.thinking p)))
                   (postMessage Msg.thinking p))) as [-> _].
    simpl. apply list_lookup_insert_eq. by eapply lookup_lt_Some.
  - rewrite Hr, length_app. simpl. lia.
Qed.

Lemma complete_stable j p : I p -> I (complete j p).
Proof.
  intros. unfold complete. apply I_setSend; [apply not_awaiting_Finished|].
  apply postMessage_stable; [done|]. by apply resetTranscription_stable.
Qed.

Lemma fail_stable j err p : I p -> I (fail j err p).
Proof.
  intros. unfold fail. apply I_setSend; [apply not_awaiting_Finished|].
  apply postMessage_stable; [done|]. by apply resetTranscription_stable.
Qed.

Lemma afterResponse_stable j text p : I p -> I (afterResponse j text p).
Proof.
  intros. unfold afterResponse. destruct (truthy text) eqn:E; simpl;
    [|by apply I_setSend; [apply not_awaiting_Finished|]].
  assert (I (postMessage (Msg.modelResponse text) p)) by by apply postMessage_stable.
  destruct (truthy (elevenLabsApiKey _)).
  - apply I_setSend; [by intros (i & k & ?)|]. by apply I_emit.
  - by apply complete_stable.
Qed.

Lemma resume_stable p j : I p -> I (resume p j).
Proof.
  intros. unfold resume. destruct (sends p !! j) as [[]|]; try done.
  destruct (_ ≫= _) as [[]|]; try done.
  - by apply afterResponse_stable.
  - by apply fail_stable.
Qed.

Lemma resumeAll_stable p : I p -> I (resumeAll p).
Proof. intros. unfold resumeAll. apply foldl_stable; [|done]. apply resume_stable. Qed.

Lemma afterSpeech_stable j audio p : I p -> I (afterSpeech j audio p).
Proof.
  intros. unfold afterSpeech. destruct (sends p !! j) as [[]|]; try done.
  destruct audio; [|by apply complete_stable].
  apply I_setSend; [by intros (i & k & ?)|]. by apply play_stable.
Qed.

Lemma afterPlayback_stable pid k p :
  (forall j p, I p -> I (k j p)) -> I p -> I (afterPlayback pid k p).
Proof.
  intros Hk ?. unfold afterPlayback. apply foldl_stable; [|done].
  intros q j ?. destruct (sends q !! j) as [[]|]; try done.
  destruct (bool_decide _); auto.
Qed.

Lemma onPlayerClose_stable pid code p : I p -> I (onPlayerClose pid code p).
Proof.
  intros. unfold onPlayerClose. apply afterPlayback_stable; [|auto with stable].
  intros. destruct (bool_decide _); [by apply complete_stable|by apply fail_stable].
Qed.

Lemma onPlayerError_stable pid err p : I p -> I (onPlayerError pid err p).
Proof.
  intros. unfold onPlayerError. apply afterPlayback_stable; [|auto with stable].
  intros. by apply fail_stable.
Qed.

Lemma onRecorderData_stable pid chunk p : I p -> I (onRecorderData pid chunk p).
Proof.
  intros. unfold onRecorderData. destruct (bool_decide _); [|done].
  assert (I (postMessage (Msg.audioData chunk) p)) by by apply postMessage_stable.
  destruct (geminiClient _); [|done]. by apply (onClient_stable _ (G.SendAudio chunk)).
Qed.

Lemma onDidReceiveMessage_stable m p : I p -> I (onDidReceiveMessage m p).
Proof.
  intros. destruct m; simpl.
  - by apply startRecording_stable.
  - by apply stopRecording_stable.
  - by apply handleSendToModel_stable.
  - destruct (truthy file) eqn:E; [|done].
    destruct (bool_decide (file ∈ contextFiles p)) eqn:E'; [done|]. simpl.
    apply bool_decide_eq_false in E'. by apply updateWorkspaceContext_stable, I_add.
  - by apply updateWorkspaceContext_stable, I_remove.
  - by apply handleFileSearch_stable.
  - by apply handleInterrupt_stable.
  - by apply handleHardStop_stable.
Qed.

Lemma step_stable p e : I p -> I (step p e).
Proof.
  intros. unfold step. apply resumeAll_stable. destruct e.
  - by apply onDidReceiveMessage_stable.
  - destruct (external e); [by apply onClient_stable|done].
  - by apply afterSleep_stable.
  - by apply afterSpeech_stable.
  - by apply onPlayerClose_stable.
  - by apply onPlayerError_stable.
  - by apply onRecorderData_stable.
  - by apply I_workspace.
Qed.

Lemma run_stable es p : I p -> I (run es p).
Proof.
  revert p. induction es as [|e es IH]; intros p Hp; [done|].
  apply IH. by apply step_stable.
Qed.

End Stable.

(** X9.  The coordinator never shows or speaks an empty answer: whatever
    happens after it is constructed, every model response it posts to the
    webview and every text it hands to speech synthesis is non-empty. *)
Theorem no_empty_answer
    (geminiKey elevenLabsKey : string) (w : Workspace) (es : list Event) :
  Forall answerNotEmpty (effects (run es (create geminiKey elevenLabsKey w))).
Proof.
  apply (run_stable (fun p => Forall answerNotEmpty (effects p))); try done.
  intros e q He Hq. simpl. apply Forall_app. split; [done|by apply Forall_singleton].
Qed.

(** X10.  The attached files form a set: whatever happens after the
    coordinator is constructed, no name is attached twice and no attached
    name is empty. *)
Theorem context_files_form_a_set
    (geminiKey elevenLabsKey : string) (w : Workspace) (es : list Event) :
  contextSet (run es (create geminiKey elevenLabsKey w)).
Proof.
  apply (run_stable contextSet); try done.
  - intros file q Ht Hin [H1 H2]. split; simpl.
    + apply NoDup_app. split; [done|]. split; [|apply NoDup_singleton].
      intros x Hx ->%list_elem_of_singleton. done.
    + apply Forall_app. split; [done|by apply Forall_singleton].
  - intros file q [H1 H2]. split; simpl.
    + by apply NoDup_filter.
    + apply Forall_forall. intros x [_ Hx]%list_elem_of_filter.
      by apply (proj1 (Forall_forall _ _) H2).
  - split; constructor.
Qed.

(** *** Starting dictation *)

Lemma resumeAll_idle p :
  (forall j i k, sends p !! j <> Some (AwaitingResponse i k)) -> resumeAll p = p.
Proof.
  intros H. unfold resumeAll. generalize (seq 0 (length (sends p))).
  intros l. induction l as [|j l IH]; [done|]. simpl.
  assert (resume p j = p) as ->; [|done].
  unfold resume. specialize (H j). by destruct (sends p !! j) as [[]|]; try done; destruct (H _ _ eq_refl).
Qed.

(** X11.  Starting dictation without a connected session, no call waiting
    for a response.  With a key: a new session is created; when its socket
    opens the setup frame carries the model name and the instruction built
    from the workspace context as it was at the start; when the server
    confirms, a recorder is spawned and held and the webview is told that
    recording started; nothing else happens.  Without a key: the error is
    posted and shown, there is no session to talk to and no recorder. *)
Theorem dictation_start (p : Provider) :
  connected p = false ->
  (forall j i k, sends p !! j <> Some (AwaitingResponse i k)) ->
  let i := length (clients p) in
  let session := G.setWorkspaceContext (buildContext p) (G.create (geminiApiKey p)) in
  if truthy (geminiApiKey p) then
    let p' := run [Receive Msg.startDictation; Client i G.WsOpen;
                   Client i (G.WsMessage Scenarios.setupDone)] p in
    effects p' =
      effects p ++ [SocketSend i (G.Setup "models/gemini-2.0-flash-exp"
                                    (G.systemInstruction session));
                    SpawnRecorder (nextPid p);
                    PostMessage Msg.recordingStarted] /\
    connected p' = true /\
    captureProcess p' = Some (nextPid p) /\
    nextPid p ∈ recorders p'
  else
    let p' := step p (Receive Msg.startDictation) in
    effects p' =
      effects p ++
        [PostMessage (Msg.error
           "Gemini API key not configured. Go to Settings > soundcode.geminiApiKey");
         ShowErrorMessage
           "soundCode: Gemini API key not configured. Go to Settings > soundcode.geminiApiKey"] /\
    connected p' = false /\
    recorders p' = recorders p.
Proof.
  intros Hc Hs i session.
  set (c0 := G.create (geminiApiKey p)).
  set (p0 := set_geminiClient (Some i) (set_clients (clients p ++ [c0]) p)).
  assert (clients p0 !! i = Some c0) as E0 by by apply list_lookup_middle.
  assert (onDidReceiveMessage Msg.startDictation p =
            onClient i G.connect (set_clients (<[i := session]> (clients p0)) p0)) as E1.
  { simpl. unfold startRecording. rewrite Hc. simpl. fold i c0 p0.
    by rewrite (ProviderFacts.onClient_run i _ p0 c0 _ [] E0 eq_refl). }
  set (p1 := set_clients _ p0) in E1.
  assert (clients p1 = clients p ++ [session]) as Ecl.
  { subst p1 p0. simpl. subst i.
    rewrite (insert_app_r_alt _ _ (length (clients p))) by done.
    by rewrite Nat.sub_diag. }
  assert (clients p1 !! i = Some session) as E2 by (rewrite Ecl; by apply list_lookup_middle).
  assert (effects p1 = effects p /\ sends p1 = sends p /\ geminiClient p1 = Some i /\
          recorders p1 = recorders p /\ nextPid p1 = nextPid p) as (F1 & F2 & F3 & F4 & F5)
    by done.
  assert (i < length (clients p1))%nat as Hi by by eapply lookup_lt_Some.
  clearbody p1. clear E0 p0.
  destruct (truthy (geminiApiKey p)) eqn:Ek.
  - intros p'. subst p'.
    remember (run [Receive Msg.startDictation; Client i G.WsOpen;
                   Client i (G.WsMessage Scenarios.setupDone)] p) as r eqn:Er.
    unfold run in Er. cbn [foldl] in Er. unfold step at 3 in Er. rewrite E1 in Er.
    set (c2 := G.set_ws (Some G.CONNECTING) session).
    rewrite (ProviderFacts.onClient_run i _ p1 session c2 [] E2) in Er.
    2:{ unfold G.connect. simpl. by rewrite Ek. }
    cbn [foldl] in Er.
    set (p2 := set_clients _ p1) in Er.
    assert (clients p2 !! i = Some c2) as E3 by by apply list_lookup_insert_eq.
    assert (effects p2 = effects p /\ sends p2 = sends p /\ geminiClient p2 = Some i /\
            recorders p2 = recorders p /\ nextPid p2 = nextPid p) as (G1 & G2 & G3 & G4 & G5)
      by done.
    assert (i < length (clients p2))%nat as Hi2 by by eapply lookup_lt_Some.
    clearbody p2.
    rewrite (resumeAll_idle p2) in Er by by rewrite G2.
    unfold step at 2 in Er. cbn [external] in Er.
    set (c3 := G.set_ws (Some G.OPEN) c2).
    rewrite (ProviderFacts.onClient_run i _ p2 c2 c3
               [G.Send (G.Setup "models/gemini-2.0-flash-exp" (G.systemInstruction session))]
               E3 eq_refl) in Er.
    cbn [foldl absorb] in Er.
    set (p3 := emit _ _) in Er.
    assert (clients p3 !! i = Some c3) as E4 by by apply list_lookup_insert_eq.
    assert (effects p3 = effects p ++ [SocketSend i (G.Setup "models/gemini-2.0-flash-exp"
                                                      (G.systemInstruction session))] /\
            sends p3 = sends p /\ geminiClient p3 = Some i /\
            recorders p3 = recorders p /\ nextPid p3 = nextPid p) as (K1 & K2 & K3 & K4 & K5).
    { subst p3. simpl. by rewrite G1. }
    clearbody p3.
    rewrite (resumeAll_idle p3) in Er by by rewrite K2.
    unfold step in Er. cbn [external] in Er.
    rewrite (ProviderFacts.onClient_run i _ p3 c3 c3 [G.OnConnected] E4 eq_refl) in Er.
    cbn [foldl absorb] in Er.
    set (p4 := startAudioCapture _) in Er.
    assert (sends p4 = sends p) as L2 by done.
    rewrite (resumeAll_idle p4) in Er by by rewrite L2.
    subst r p4. unfold connected. simpl. rewrite K1, K3, K5. simpl.
    rewrite list_lookup_insert_eq by by eapply lookup_lt_Some.
    split; [by rewrite <- !app_assoc|]. split; [done|]. split; [done|].
    apply elem_of_union. left. by apply elem_of_singleton.
  - intros p'. subst p'.
    remember (step p (Receive Msg.startDictation)) as r eqn:Er.
    unfold step in Er. rewrite E1 in Er.
    rewrite (ProviderFacts.onClient_run i _ p1 session session
               [G.OnError "Gemini API key not configured. Go to Settings > soundcode.geminiApiKey"] E2)
      in Er.
    2:{ unfold G.connect. simpl. by rewrite Ek. }
    cbn [foldl absorb] in Er.
    set (p2 := emit _ _) in Er.
    assert (sends p2 = sends p) as G2 by done.
    rewrite (resumeAll_idle p2) in Er by by rewrite G2.
    subst r p2. unfold connected. simpl. rewrite F1, F3, F4. simpl.
    rewrite list_lookup_insert_eq by done.
    split; [by rewrite <- app_assoc|]. done.
Qed.

Lemma dictation_start_witness :
  let p' := run [Receive Msg.startDictation; Client 0 G.WsOpen;
                 Client 0 (G.WsMessage Scenarios.setupDone)] Scenarios.idle in
  effects p' =
    [SocketSend 0 (G.Setup "models/gemini-2.0-flash-exp" G.baseInstruction);
     SpawnRecorder 0; PostMessage Msg.recordingStarted] /\
  connected p' = true /\ captureProcess p' = Some 0%nat.
Proof.
  pose proof (dictation_start Scenarios.idle) as H.
  vm_compute in H. vm_compute.
  destruct H as (H1 & H2 & H3 & _); [reflexivity|intros [|j] i k; discriminate|].
  by repeat split.
Defined.

(** *** Attached files *)

Lemma updateWorkspaceContext_contextFiles p :
  contextFiles (updateWorkspaceContext p) = contextFiles p.
Proof.
  by apply (updateWorkspaceContext_stable (fun q => contextFiles q = contextFiles p)).
Qed.

Lemma filter_absent (file : string) (l : list string) :
  file ∉ l -> filter (fun f => f ≠ file) l = l.
Proof.
  induction l as [|x l IH]; [done|]. intros [Hx Hl]%not_elem_of_cons.
  rewrite filter_cons, decide_True by done. by rewrite IH.
Qed.

(** X12.  Attaching a file that is attached already, or one with an empty
    name, changes nothing at all; detaching a file that is not attached
    leaves the list as it is, and so does attaching a new file and
    detaching it again; after detaching, the file is not attached. *)
Theorem attach_and_detach (file : string) (p : Provider) :
  let attach := onDidReceiveMessage (Msg.addContextFile file) in
  let detach := onDidReceiveMessage (Msg.removeContextFile file) in
  (file ∈ contextFiles p -> attach p = p) /\
  (truthy file = false -> attach p = p) /\
  (file ∉ contextFiles p ->
     contextFiles (detach p) = contextFiles p /\
     contextFiles (detach (attach p)) = contextFiles p) /\
  file ∉ contextFiles (detach p).
Proof.
  simpl. split; [|split; [|split]].
  - intros H. rewrite bool_decide_eq_true_2 by done. by rewrite andb_false_r.
  - by intros ->.
  - intros H. rewrite !updateWorkspaceContext_contextFiles. simpl.
    split; [by apply filter_absent|].
    destruct (truthy file); simpl.
    + rewrite bool_decide_eq_false_2 by done. simpl.
      rewrite updateWorkspaceContext_contextFiles. simpl.
      rewrite filter_app, filter_absent by done.
      rewrite filter_cons, decide_False by (by intros ?). by rewrite app_nil_r.
    + by apply filter_absent.
  - rewrite updateWorkspaceContext_contextFiles. simpl.
    intros [H _]%list_elem_of_filter. done.
Qed.

Lemma attach_and_detach_witness :
  let attach := onDidReceiveMessage (Msg.addContextFile "notes.md") in
  let detach := onDidReceiveMessage (Msg.removeContextFile "notes.md") in
  contextFiles (attach Scenarios.idle) = ["notes.md"] /\
  attach (attach Scenarios.idle) = attach Scenarios.idle /\
  contextFiles (detach (attach Scenarios.idle)) = [] /\
  contextFiles (detach Scenarios.idle) = [].
Proof.
  destruct (attach_and_detach "notes.md" Scenarios.idle) as (_ & _ & H & _).
  destruct (attach_and_detach "notes.md"
              (onDidReceiveMessage (Msg.addContextFile "notes.md") Scenarios.idle))
    as (H' & _).
  split; [reflexivity|]. split; [apply H'; vm_compute; left|].
  apply H. vm_compute. apply not_elem_of_nil.
Defined.

(** *** A turn that is answered *)

(** X13.  When the model's answer arrives and is not empty, the call that
    waited for it posts the answer; with a synthesis key it then requests
    speech for exactly that text and waits for it, without one it posts
    audio complete and is over. *)
Theorem answered_turn (p : Provider) (j i k : nat) (text : string) :
  sends p !! j = Some (AwaitingResponse i k) ->
  clients p !! i ≫= G.promiseOf k = Some (G.Resolved text) ->
  truthy text = true ->
  let p' := resume p j in
  if truthy (elevenLabsApiKey p) then
    effects p' = effects p ++ [PostMessage (Msg.modelResponse text); TextToSpeech text] /\
    sends p' !! j = Some AwaitingSpeech
  else
    effects p' =
      effects p ++ [PostMessage (Msg.modelResponse text); PostMessage Msg.audioComplete] /\
    sends p' !! j = Some Finished.
Proof.
  intros Hj Hk Ht p'. subst p'. unfold resume. rewrite Hj, Hk.
  unfold afterResponse. rewrite Ht. simpl.
  assert (j < length (sends p))%nat as Hlt by by eapply lookup_lt_Some.
  destruct (truthy (elevenLabsApiKey p)).
  - simpl. split; [by rewrite <- app_assoc|]. by apply list_lookup_insert_eq.
  - unfold complete. simpl.
    rewrite ProviderFacts.resetTranscription_effects, ProviderFacts.resetTranscription_sends.
    simpl. split; [by rewrite <- app_assoc|]. by apply list_lookup_insert_eq.
Qed.

Lemma answered_turn_witness :
  sends Examples.answered !! 0%nat = Some (AwaitingResponse 0 0) /\
  Properties.added Examples.answered (resume Examples.answered 0) =
    [PostMessage (Msg.modelResponse "Recursion is..."); PostMessage Msg.audioComplete] /\
  sends (resume Examples.answered 0) !! 0%nat = Some Finished.
Proof.
  pose proof (answered_turn Examples.answered 0 0 0 "Recursion is...") as H.
  vm_compute in H. vm_compute.
  destruct H as [H1 H2]; [reflexivity..|]. by repeat split.
Defined.

(** *** A waiting turn goes on when its timer fires *)

Lemma run_tracked es p : tracked p -> tracked (run es p).
Proof.
  apply (run_stable tracked); try done.
  - intros i c c' q Hi [Ht Hl] [H1 H2]. split; simpl.
    + apply Forall_insert; [done|]. apply Ht. by eapply (proj1 (Forall_lookup _ _) H1).
    + intros j i' k Hj. destruct (H2 j i' k Hj) as (c0 & Hc0 & Hk).
      destruct (decide (i' = i)) as [->|Hne].
      * exists c'. split; [apply list_lookup_insert_eq; by eapply lookup_lt_Some|].
        assert (c0 = c) as -> by congruence. lia.
      * exists c0. by rewrite list_lookup_insert_ne.
  - intros key q [H1 H2]. split; simpl.
    + apply Forall_app. split; [done|]. by repeat constructor.
    + intros j i k Hj. destruct (H2 j i k Hj) as (c0 & Hc0 & Hk).
      exists c0. split; [by apply lookup_app_l_Some|done].
  - intros s q Hs [H1 H2]. split; [done|]. simpl. intros j i k Hj.
    apply lookup_app_Some in Hj as [Hj|[_ Hj]]; [by eapply H2|].
    destruct (j - length (sends q))%nat; [|done].
    exfalso. apply Hs. exists i, k. simpl in Hj. congruence.
  - intros j s q Hs [H1 H2]. split; [done|]. simpl. intros j' i k Hj.
    destruct (decide (j' = j)) as [->|Hne].
    + apply list_lookup_insert_Some in Hj as [(_ & Hj & _)|[? _]]; [|done].
      exfalso. apply Hs. by exists i, k.
    + rewrite list_lookup_insert_ne in Hj by done. by eapply H2.
  - intros j i k c q Hc Hk [H1 H2]. split; [done|]. simpl. intros j' i' k' Hj.
    destruct (decide (j' = j)) as [->|Hne].
    + apply list_lookup_insert_Some in Hj as [(_ & [= <- <-] & _)|[? _]]; [|done].
      by exists c.
    + rewrite list_lookup_insert_ne in Hj by done. by eapply H2.
Qed.

Lemma resume_other j j' p : j' <> j -> sends (resume p j') !! j = sends p !! j.
Proof.
  intros Hne. unfold resume. destruct (sends p !! j') as [[]|]; try done.
  destruct (_ ≫= _) as [[]|]; try done.
  - by apply ProviderFacts.afterResponse_other.
  - by apply ProviderFacts.fail_other.
Qed.

Lemma resetTranscription_promise i k p :
  clients (resetTranscription p) !! i ≫= G.promiseOf k = clients p !! i ≫= G.promiseOf k.
Proof.
  unfold resetTranscription. destruct (geminiClient p) as [i0|]; [|done].
  unfold onClient. destruct (clients p !! i0) as [c0|] eqn:E; [|done]. simpl.
  destruct (decide (i = i0)) as [->|Hne].
  - rewrite list_lookup_insert_eq by by eapply lookup_lt_Some. by rewrite E.
  - by rewrite list_lookup_insert_ne.
Qed.

Lemma resume_promise i k p j :
  clients (resume p j) !! i ≫= G.promiseOf k = clients p !! i ≫= G.promiseOf k.
Proof.
  unfold resume. destruct (sends p !! j) as [[|i0 k0| | |]|]; try done.
  destruct (clients p !! i0 ≫= G.promiseOf k0) as [[|text|reason]|]; try done.
  - unfold afterResponse. destruct (truthy text); simpl; [|done].
    destruct (truthy (elevenLabsApiKey _)); [done|].
    unfold complete. simpl. by rewrite resetTranscription_promise.
  - unfold fail. simpl. by rewrite resetTranscription_promise.
Qed.

Lemma resume_movedOn j j' p : movedOn j p -> movedOn j (resume p j').
Proof.
  intros H. destruct (decide (j' = j)) as [->|Hne].
  - unfold movedOn in *. unfold resume. destruct H as [H|H]; rewrite H; auto.
  - unfold movedOn. by rewrite resume_other.
Qed.

Lemma foldl_resume_movedOn j l p : movedOn j p -> movedOn j (foldl resume p l).
Proof.
  revert p. induction l as [|j' l IH]; intros p H; [done|].
  simpl. by apply IH, resume_movedOn.
Qed.

Lemma resume_settled j i k v p :
  sends p !! j = Some (AwaitingResponse i k) ->
  clients p !! i ≫= G.promiseOf k = Some v -> v <> G.Pending ->
  movedOn j (resume p j).
Proof.
  intros Hj Hv Hne. unfold resume. rewrite Hj, Hv.
  assert (j < length (sends p))%nat as Hlt by by eapply lookup_lt_Some.
  destruct v as [|text|reason]; [done| |].
  - unfold afterResponse, movedOn. destruct (truthy text); simpl.
    + destruct (truthy (elevenLabsApiKey _)); simpl.
      * right. by apply list_lookup_insert_eq.
      * left. unfold complete. simpl. apply list_lookup_insert_eq.
        by rewrite ProviderFacts.resetTranscription_sends.
    + left. by apply list_lookup_insert_eq.
  - left. unfold fail. simpl. apply list_lookup_insert_eq.
    by rewrite ProviderFacts.resetTranscription_sends.
Qed.

Lemma foldl_resume_settled j i k v l p :
  j ∈ l ->
  sends p !! j = Some (AwaitingResponse i k) ->
  clients p !! i ≫= G.promiseOf k = Some v -> v <> G.Pending ->
  movedOn j (foldl resume p l).
Proof.
  revert p. induction l as [|j' l IH]; intros p Hin Hj Hv Hne; [by apply elem_of_nil in Hin|].
  simpl. destruct (decide (j' = j)) as [->|Hd].
  - by eapply foldl_resume_movedOn, resume_settled.
  - apply IH.
    + apply elem_of_cons in Hin as [?|?]; [congruence|done].
    + by rewrite resume_other.
    + by rewrite resume_promise.
    + done.
Qed.

Lemma onTimeout_settles k c r :
  G.requests c !! k = Some r -> timed r ->
  exists v, G.promiseOf k (G.onTimeout k c) = Some v /\ v <> G.Pending.
Proof.
  intros Hr Ht. unfold G.onTimeout, G.promiseOf. rewrite Hr.
  assert (k < length (G.requests c))%nat as Hlt by by eapply lookup_lt_Some.
  destruct (G.promise r) as [|text|reason] eqn:Ep.
  - destruct (Ht Ep) as [-> ->]. simpl. unfold G.update_request. rewrite Hr. simpl.
    rewrite list_lookup_insert_eq by done. simpl. rewrite Ep.
    destruct (truthy _); by eexists.
  - exists (G.Resolved text). split; [|done].
    destruct (G.timerSet r && negb (G.resolved r)); simpl; [|by rewrite Hr; simpl; rewrite Ep].
    unfold G.update_request. rewrite Hr. simpl.
    rewrite list_lookup_insert_eq by done. simpl. by rewrite Ep.
  - exists (G.Rejected reason). split; [|done].
    destruct (G.timerSet r && negb (G.resolved r)); simpl; [|by rewrite Hr; simpl; rewrite Ep].
    unfold G.update_request. rewrite Hr. simpl.
    rewrite list_lookup_insert_eq by done. simpl. by rewrite Ep.
Qed.

(** X14.  No turn waits for the model for ever.  Whatever happened since
    the coordinator was constructed, a call that waits for the response to a
    request is past that wait once the request's timer has fired: it is
    over, or it waits for speech synthesis. *)
Theorem waiting_turn_moves_on_at_timeout
    (geminiKey elevenLabsKey : string) (w : Workspace) (es : list Event) (j i k : nat) :
  let p := run es (create geminiKey elevenLabsKey w) in
  sends p !! j = Some (AwaitingResponse i k) ->
  let p' := step p (Client i (G.Timeout k)) in
  sends p' !! j = Some Finished \/ sends p' !! j = Some AwaitingSpeech.
Proof.
  intros p Hj p'. assert (tracked p) as [H1 H2].
  { apply run_tracked. split; [by constructor|]. by intros ???. }
  clearbody p. subst p'. destruct (H2 j i k Hj) as (c & Hc & Hk).
  destruct (lookup_lt_is_Some_2 _ _ Hk) as [r Hr].
  assert (timed r) as Ht.
  { eapply (proj1 (Forall_lookup _ _)); [|done]. by eapply (proj1 (Forall_lookup _ _) H1). }
  destruct (onTimeout_settles k c r Hr Ht) as (v & Hv & Hne).
  unfold step. cbn [external].
  rewrite (ProviderFacts.onClient_run i _ p c (G.onTimeout k c) [] Hc eq_refl).
  cbn [foldl]. unfold resumeAll.
  eapply (foldl_resume_settled j i k v).
  - apply elem_of_seq. simpl. split; [lia|]. by eapply lookup_lt_Some.
  - done.
  - simpl. rewrite list_lookup_insert_eq by by eapply lookup_lt_Some. done.
  - done.
Qed.

Lemma waiting_turn_moves_on_at_timeout_witness :
  let p := run Examples.waitingForModel (create "key" "" Scenarios.emptyWorkspace) in
  sends p !! 0%nat = Some (AwaitingResponse 0 0) /\
  (sends (step p (Client 0 (G.Timeout 0))) !! 0%nat = Some Finished \/
   sends (step p (Client 0 (G.Timeout 0))) !! 0%nat = Some AwaitingSpeech).
Proof.
  split; [reflexivity|].
  apply (waiting_turn_moves_on_at_timeout "key" "" Scenarios.emptyWorkspace
           Examples.waitingForModel 0 0 0).
  reflexivity.
Defined.

(** *** The end of playback *)
Lemma foldl_fixed {A B} (f : A -> B -> A) (q : A) (l : list B) :
  (forall x, x ∈ l -> f q x = q) -> foldl f q l = q.
Proof.
  induction l as [|x l IH]; intros H; [done|].
  simpl. rewrite H by by left. apply IH. intros y Hy. apply H. by right.
Qed.

Lemma seq_split (j n : nat) :
  (j < n)%nat -> seq 0 n = seq 0 j ++ j :: seq (S j) (n - S j).
Proof.
  intros H. replace n with (j + S (n - S j))%nat at 1 by lia.
  by rewrite seq_app.
Qed.

(** One call waits for player [pid]: its continuation runs, nothing else. *)
Lemma afterPlayback_single pid k j p :
  sends p !! j = Some (AwaitingPlayback pid) ->
  (forall j', sends p !! j' = Some (AwaitingPlayback pid) -> j' = j) ->
  (forall j', j' <> j -> sends (k j p) !! j' = sends p !! j') ->
  afterPlayback pid k p = k j p.
Proof.
  intros Hj Hu Hk. unfold afterPlayback.
  rewrite (seq_split j) by by eapply lookup_lt_Some.
  rewrite foldl_app. rewrite (foldl_fixed _ p (seq 0 j)).
  - cbn [foldl]. rewrite Hj, bool_decide_eq_true_2 by done.
    apply foldl_fixed. intros j' Hj'%elem_of_seq.
    rewrite Hk by lia.
    destruct (sends p !! j') as [[| | |q|]|] eqn:E; try done.
    destruct (bool_decide (q = pid)) eqn:Eq; [|done].
    apply bool_decide_eq_true in Eq as ->. specialize (Hu j' E). lia.
  - intros j' Hj'%elem_of_seq.
    destruct (sends p !! j') as [[| | |q|]|] eqn:E; try done.
    destruct (bool_decide (q = pid)) eqn:Eq; [|done].
    apply bool_decide_eq_true in Eq as ->. specialize (Hu j' E). lia.
Qed.

(** X15.  The end of playback ends the turn.  Let one call, and no other,
    wait for player [pid].  When the player closes, the handle is dropped
    and the call finishes: with exit code 0 it posts audio complete, with
    any other code, or none (the player was killed), it posts the error
    that ffplay exited with that code.  When the player reports an error,
    the call finishes by posting that error. *)
Theorem playback_end (p : Provider) (j pid : nat) :
  sends p !! j = Some (AwaitingPlayback pid) ->
  (forall j', sends p !! j' = Some (AwaitingPlayback pid) -> j' = j) ->
  (forall code,
     let p' := onPlayerClose pid code p in
     effects p' =
       effects p ++
         [PostMessage
            (if bool_decide (code = Some 0) then Msg.audioComplete
             else Msg.error ("Failed to get response: Error: ffplay exited with code "
                             +:+ showCode code))] /\
     sends p' !! j = Some Finished /\
     playerProcess p' = None /\ pid ∉ players p') /\
  (forall err,
     let p' := onPlayerError pid err p in
     effects p' = effects p ++ [PostMessage (Msg.error ("Failed to get response: " +:+ err))] /\
     sends p' !! j = Some Finished /\
     playerProcess p' = None).
Proof.
  intros Hj Hu.
  assert (j < length (sends p))%nat as Hlt by by eapply lookup_lt_Some.
  assert (forall q, playerProcess q = None /\ pid ∉ players q ->
            playerProcess (resetTranscription q) = None /\
            pid ∉ players (resetTranscription q)) as Hr.
  { intros q. by apply (resetTranscription_stable
                          (fun q => playerProcess q = None /\ pid ∉ players q)). }
  split.
  - intros code p'. subst p'. unfold onPlayerClose.
    set (p0 := set_playerProcess None _).
    assert (playerProcess p0 = None /\ pid ∉ players p0) as H0.
    { split; [done|]. simpl. intros [_ H]%elem_of_difference. apply H. by apply elem_of_singleton. }
    rewrite (afterPlayback_single pid _ j p0); [|done|done|].
    + destruct (bool_decide (code = Some 0)).
      * unfold complete. simpl.
        rewrite ProviderFacts.resetTranscription_effects,
          ProviderFacts.resetTranscription_sends.
        split; [done|]. split; [by apply list_lookup_insert_eq|]. by apply Hr.
      * unfold fail. simpl.
        rewrite ProviderFacts.resetTranscription_effects,
          ProviderFacts.resetTranscription_sends.
        split; [done|]. split; [by apply list_lookup_insert_eq|]. by apply Hr.
    + intros j' Hne. destruct (bool_decide (code = Some 0)).
      * by apply ProviderFacts.complete_other.
      * by apply ProviderFacts.fail_other.
  - intros err p'. subst p'. unfold onPlayerError.
    set (p0 := set_playerProcess None _).
    rewrite (afterPlayback_single pid _ j p0); [|done|done|].
    + unfold fail. simpl.
      rewrite ProviderFacts.resetTranscription_effects,
        ProviderFacts.resetTranscription_sends.
      split; [done|]. split; [by apply list_lookup_insert_eq|].
      by apply (resetTranscription_stable
                  (fun q => playerProcess q = None)).
    + intros j' Hne. by apply ProviderFacts.fail_other.
Qed.

Lemma playback_end_witness :
  sends Examples.speaking !! 0%nat = Some (AwaitingPlayback 1) /\
  Properties.added Examples.speaking (onPlayerClose 1 (Some 0) Examples.speaking) =
    [PostMessage Msg.audioComplete] /\
  Properties.added Examples.speaking (onPlayerClose 1 None Examples.speaking) =
    [PostMessage (Msg.error "Failed to get response: Error: ffplay exited with code null")] /\
  Properties.added Examples.speaking (onPlayerError 1 "spawn ffplay ENOENT" Examples.speaking) =
    [PostMessage (Msg.error "Failed to get response: spawn ffplay ENOENT")].
Proof.
  assert (sends Examples.speaking !! 0%nat = Some (AwaitingPlayback 1)) as H0 by reflexivity.
  assert (forall j', sends Examples.speaking !! j' = Some (AwaitingPlayback 1) -> j' = 0%nat)
    as Hu by (intros [|j'] H; [reflexivity|vm_compute in H; discriminate]).
  destruct (playback_end Examples.speaking 0 1 H0 Hu) as [Hc He].
  destruct (Hc (Some 0)) as (H1 & _), (Hc None) as (H2 & _),
    (He "spawn ffplay ENOENT") as (H3 & _).
  unfold Properties.added. rewrite H1, H2, H3, !drop_app_length. by repeat split.
Defined.

(** *** Attaching a file while a session is connected *)

(** X16.  Attaching a new file records it and, on a connected session
    whose rebuilt context is not blank, writes one user turn that carries
    the context-update notice and the rebuilt context and does not complete
    the turn; otherwise nothing is written. *)
Theorem attach_sends_context (file : string) (p : Provider) :
  truthy file = true -> file ∉ contextFiles p ->
  let p' := onDidReceiveMessage (Msg.addContextFile file) p in
  let blob := WorkspaceService.buildContextForPrompt (workspace p) (contextFiles p ++ [file])
                WorkspaceService.defaultMaxChars in
  contextFiles p' = contextFiles p ++ [file] /\
  effects p' =
    effects p ++
      match geminiClient p with
      | Some i =>
          if connected p && truthy (trim blob)
          then [SocketSend i
                  (G.ClientContent "user"
                     ("[CONTEXT UPDATE] The following files have been added to the conversation context. Please reference them in subsequent responses:"
                      +:+ nl +:+ nl +:+ blob) false)]
          else []
      | None => []
      end.
Proof.
  intros Ht Hin p' blob. subst p'. simpl.
  rewrite Ht, bool_decide_eq_false_2 by done. simpl.
  split; [by rewrite updateWorkspaceContext_contextFiles|].
  unfold updateWorkspaceContext, connected. simpl.
  destruct (geminiClient p) as [i|]; simpl; [|by rewrite app_nil_r].
  destruct (clients p !! i) as [c|] eqn:E; simpl; [|by rewrite app_nil_r].
  destruct (G.isConnected c) eqn:Ec; simpl; [|by rewrite app_nil_r].
  unfold onClient. simpl. rewrite E. unfold G.sendContextUpdate. rewrite Ec. simpl.
  unfold buildContext. simpl. fold blob.
  destruct (truthy (trim blob)); simpl; [done|by rewrite app_nil_r].
Qed.

Lemma attach_sends_context_witness :
  let p' := onDidReceiveMessage (Msg.addContextFile "notes.md") Examples.listening in
  contextFiles p' = ["notes.md"] /\
  exists text,
    Properties.added Examples.listening p' = [SocketSend 0 (G.ClientContent "user" text false)] /\
    strlen text = 2394.
Proof.
  destruct (attach_sends_context "notes.md" Examples.listening) as [H1 H2];
    [reflexivity|vm_compute; apply not_elem_of_nil|].
  split; [exact H1|]. unfold Properties.added. rewrite H2, drop_app_length.
  eexists. split; [vm_compute; reflexivity|vm_compute; reflexivity].
Defined.

End CoordinatorFacts.

(** ** The speech-to-text client *)

Module SpeechFacts.
Import JS GoogleSpeechClient Invariants.

Lemma report_step u c :
  let r := handleResponse (report u) c in
  currentTranscription r.1 =
    currentTranscription c +:+ match u with Final text => text +:+ " " | Interim _ => "" end /\
  client r.1 = client c /\ recognizeStream r.1 = recognizeStream c /\
  exists text, r.2 = [OnTranscription text false] /\ trim text = text.
Proof.
  assert (forall text, or_else (Some text) "" = text) as E by by intros [].
  destruct u as [text|text]; unfold handleResponse;
    cbn [report results alternatives isFinal transcript default from_option id];
    rewrite E; cbn [fst snd currentTranscription client recognizeStream
                    set_currentTranscription].
  - rewrite StringFacts.string_app_empty_r. repeat split.
    eexists; (split; [done|]); apply StringFacts.trim_idem.
  - repeat split. eexists; (split; [done|]); apply StringFacts.trim_idem.
Qed.

(** X17.  The speech client keeps final results only.  After any
    sequence of interim and final results the stored transcription is what
    it was followed by the final texts, each with one space after it;
    [getTranscription] is that text trimmed; every result calls the
    transcription callback once, with trimmed text and never marked
    final. *)
Theorem only_final_results_are_kept (us : list Utterance) (c : Client) :
  let r := receive (report <$> us) c in
  currentTranscription r.1 = currentTranscription c +:+ spoken us /\
  getTranscription r.1 = trim (currentTranscription c +:+ spoken us) /\
  length r.2 = length us /\
  Forall interimCallback r.2.
Proof.
  revert c. induction us as [|u us IH]; intros c.
  - simpl. unfold getTranscription. by rewrite StringFacts.string_app_empty_r.
  - cbn [fmap list_fmap receive]. pose proof (report_step u c) as H.
    destruct (handleResponse (report u) c) as [c1 out1]. 
    specialize (IH c1). fold (@fmap list _ _ _ report us).
    destruct (receive (report <$> us) c1) as [c2 out2]. simpl in *.
    destruct H as (H1 & _ & _ & text & -> & Ht), IH as (I1 & I2 & I3 & I4).
    unfold getTranscription in *. rewrite I1, H1, StringFacts.string_app_assoc.
    assert ((match u with Final text0 => text0 +:+ " " | Interim _ => "" end) +:+ spoken us
            = match u with Final text0 => text0 +:+ " " +:+ spoken us | Interim _ => spoken us end)
      as ->.
    { destruct u; [done|]. by rewrite StringFacts.string_app_assoc. }
    split; [done|]. split; [done|]. split; [by rewrite <- I3|].
    constructor; [by exists text|done].
Qed.

End SpeechFacts.

(** ** The speech-synthesis client *)

Module SynthesisFacts.
Import JS ElevenLabsClient.

(** X18.  The connection test succeeds exactly when a key is configured
    and the service answers with a body that is not empty; it makes one
    request with the text "Test" when a key is configured and none
    otherwise.  [textToSpeech] makes its request under the same condition
    and returns audio exactly when the service answers with a body, be it
    empty. *)
Theorem connection_test_outcome (apiKey : string) (outcome : Fetch) :
  ((testConnection apiKey outcome).1 = Success <->
     truthy apiKey = true /\ exists body, outcome = Ok (Some body) /\ body <> []) /\
  (testConnection apiKey outcome).2 = (if truthy apiKey then [Request "Test"] else []) /\
  (forall text,
     (textToSpeech apiKey text outcome).2 = (if truthy apiKey then [Request text] else []) /\
     (is_Some (textToSpeech apiKey text outcome).1 <->
        truthy apiKey = true /\ exists body, outcome = Ok (Some body))).
Proof.
  unfold testConnection, textToSpeech.
  destruct (truthy apiKey); simpl.
  - destruct outcome as [| |[[|b body]|]]; simpl;
      (split; [|split; [done|intros text; split; [done|]]]);
      (split; [try done|]).
    all: try (intros [_ (body' & ? & ?)]; congruence).
    all: try (intros [_ (body' & ?)]; congruence).
    all: try (by intros [? ?]).
    all: try (intros _; split; [done|]; by eexists).
    all: try (intros _; by eexists).
  - split; [|split; [done|intros text; split; [done|]]].
    + split; [done|]. by intros [? _].
    + split; [by intros [? ?]|by intros [? _]].
Qed.

End SynthesisFacts.
